(** * imf-creator: the song event model and the MIDI file reader

    A shallow embedding of [imfcreator/midi.py], [imfcreator/utils.py] and
    [imfcreator/plugins/midifileplugin.py], followed by the properties of
    the decoder and of the event ordering that the specification states,
    and by further properties of the code ([imfcreator/midi/constants.py]
    included).

    Python integers are unbounded, so they are [Z].  Python floats are
    IEEE 754 binary64, so they are the kernel's primitive [float].  A raised
    exception is the left summand of the result type. *)

From Stdlib Require Import ZArith Lia List Bool Strings.Byte PrimFloat Uint63.
From Stdlib Require Import Sorting.Sorted.
From Stdlib Require FloatAxioms SpecFloat.
From stdpp Require Import base option list strings gmap.
Import ListNotations.

Local Open Scope Z_scope.

(** ** Python values and exceptions *)

Module Py.

(** The exceptions the modelled code can raise.  [ValueError] and
    [TypeError] carry the message template of the raise site.  [ShortRead]
    stands for the failure of a [_binary] helper on too few bytes.
    [OutOfFuel] is no Python exception: it marks a loop of the model that
    used up its iteration bound, which never happens (see
    [_open_terminates] below). *)
Inductive exn : Type :=
  | ValueError (msg : string)
  | TypeError (msg : string)
  | IndexError (msg : string)
  | KeyError (key : string)
  | ZeroDivisionError
  | OSError
  | StructError
  | ShortRead
  | OutOfFuel.

Definition result (A : Type) : Type := (exn + A)%type.

Definition Ok {A} (a : A) : result A := inr a.
Definition Raise {A} (e : exn) : result A := inl e.

Definition is_TypeError (e : exn) : bool :=
  match e with TypeError _ => true | _ => false end.

(** [float(z)] for an integer of at most 63 bits (every integer the
    decoder converts is below [2^26]). *)
Definition float_of_int (z : Z) : float :=
  if z <? 0 then PrimFloat.opp (PrimFloat.of_uint63 (Uint63.of_Z (- z)))
  else PrimFloat.of_uint63 (Uint63.of_Z z).

(** Python's [seq[i]] on a list: a negative index counts from the end,
    anything outside [-len, len) raises [IndexError]. *)
Definition list_getitem {A} (l : list A) (i : Z) : result A :=
  let n := Z.of_nat (length l) in
  let j := if i <? 0 then i + n else i in
  if (j <? 0) || (n <=? j) then Raise (IndexError "list index out of range")
  else match l !! Z.to_nat j with
       | Some x => Ok x
       | None => Raise (IndexError "list index out of range")
       end.

(** Python's [s * n] on a string: [n] copies, none when [n <= 0]. *)
Fixpoint str_repeat (s : string) (n : nat) : string :=
  match n with
  | O => EmptyString
  | S k => String.append s (str_repeat s k)
  end.

Definition str_mul (s : string) (n : Z) : string := str_repeat s (Z.to_nat n).

End Py.

Import Py.

(** ** [imfcreator/midi.py] *)

Module Midi.

(** [class EventType(IntEnum)] *)
Inductive EventType : Set :=
  | NOTE_OFF
  | NOTE_ON
  | POLYPHONIC_KEY_PRESSURE
  | CONTROLLER_CHANGE
  | PROGRAM_CHANGE
  | CHANNEL_KEY_PRESSURE
  | PITCH_BEND
  | F0_SYSEX
  | F7_SYSEX
  | META.

Definition EventType_value (t : EventType) : Z :=
  match t with
  | NOTE_OFF => 0x80
  | NOTE_ON => 0x90
  | POLYPHONIC_KEY_PRESSURE => 0xa0
  | CONTROLLER_CHANGE => 0xb0
  | PROGRAM_CHANGE => 0xc0
  | CHANNEL_KEY_PRESSURE => 0xd0
  | PITCH_BEND => 0xe0
  | F0_SYSEX => 0xf0
  | F7_SYSEX => 0xf7
  | META => 0xff
  end.

Definition EventType_members : list EventType :=
  [NOTE_OFF; NOTE_ON; POLYPHONIC_KEY_PRESSURE; CONTROLLER_CHANGE;
   PROGRAM_CHANGE; CHANNEL_KEY_PRESSURE; PITCH_BEND; F0_SYSEX; F7_SYSEX; META].

(** [class MetaType(IntEnum)].  The trailing commas of the source make each
    right-hand side a one-element tuple, which [IntEnum] passes to [int]:
    the member values are the plain integers. *)
Inductive MetaType : Set :=
  | SEQUENCE_NUMBER
  | TEXT_EVENT
  | COPYRIGHT
  | TRACK_NAME
  | INSTRUMENT_NAME
  | LYRIC
  | MARKER
  | CUE_POINT
  | PROGRAM_NAME
  | DEVICE_NAME
  | CHANNEL_PREFIX
  | PORT
  | END_OF_TRACK
  | SET_TEMPO
  | SMTPE_OFFSET
  | TIME_SIGNATURE
  | KEY_SIGNATURE
  | SEQUENCER_SPECIFIC.

Definition MetaType_value (m : MetaType) : Z :=
  match m with
  | SEQUENCE_NUMBER => 0x00
  | TEXT_EVENT => 0x01
  | COPYRIGHT => 0x02
  | TRACK_NAME => 0x03
  | INSTRUMENT_NAME => 0x04
  | LYRIC => 0x05
  | MARKER => 0x06
  | CUE_POINT => 0x07
  | PROGRAM_NAME => 0x08
  | DEVICE_NAME => 0x09
  | CHANNEL_PREFIX => 0x20
  | PORT => 0x21
  | END_OF_TRACK => 0x2f
  | SET_TEMPO => 0x51
  | SMTPE_OFFSET => 0x54
  | TIME_SIGNATURE => 0x58
  | KEY_SIGNATURE => 0x59
  | SEQUENCER_SPECIFIC => 0x7f
  end.

Definition MetaType_members : list MetaType :=
  [SEQUENCE_NUMBER; TEXT_EVENT; COPYRIGHT; TRACK_NAME; INSTRUMENT_NAME; LYRIC;
   MARKER; CUE_POINT; PROGRAM_NAME; DEVICE_NAME; CHANNEL_PREFIX; PORT;
   END_OF_TRACK; SET_TEMPO; SMTPE_OFFSET; TIME_SIGNATURE; KEY_SIGNATURE;
   SEQUENCER_SPECIFIC].

(** [class ControllerType(IntEnum)]: the controller numbers the source
    names.  The numbers its comments call undefined (3, 9, 14-15, 20-31,
    35, 41, 46-47, 52-63, 85-90, 102-119) have no member. *)
Inductive ControllerType : Set :=
  | BANK_SELECT_MSB
  | MODULATION_WHEEL_MSB
  | BREATH_CONTROLLER_MSB
  | FOOT_CONTROLLER_MSB
  | PORTAMENTO_TIME_MSB
  | DATA_ENTRY_MSB
  | VOLUME_MSB
  | BALANCE_MSB
  | PAN_MSB
  | EXPRESSION_MSB
  | EFFECT_1_MSB
  | EFFECT_2_MSB
  | GENERAL_PURPOSE_1_MSB
  | GENERAL_PURPOSE_2_MSB
  | GENERAL_PURPOSE_3_MSB
  | GENERAL_PURPOSE_4_MSB
  | BANK_SELECT_LSB
  | MODULATION_LSB
  | BREATH_CONTROLLER_LSB
  | FOOT_CONTROLLER_LSB
  | PORTAMENTO_TIME_LSB
  | DATA_ENTRY_LSB
  | VOLUME_LSB
  | BALANCE_LSB
  | PAN_LSB
  | EXPRESSION_LSB
  | EFFECT_1_LSB
  | EFFECT_2_LSB
  | GENERAL_PURPOSE_1_LSB
  | GENERAL_PURPOSE_2_LSB
  | GENERAL_PURPOSE_3_LSB
  | GENERAL_PURPOSE_4_LSB
  | SUSTAIN_PEDAL_SWITCH
  | PORTAMENTO_SWITCH
  | SOSTENUTO_SWITCH
  | SOFT_PEDAL_SWITCH
  | LEGATO_FOOTSWITCH
  | HOLD_2_SWITCH
  | SOUND_CONTROLLER_1
  | SOUND_CONTROLLER_2
  | SOUND_CONTROLLER_3
  | SOUND_CONTROLLER_4
  | SOUND_CONTROLLER_5
  | SOUND_CONTROLLER_6
  | SOUND_CONTROLLER_7
  | SOUND_CONTROLLER_8
  | SOUND_CONTROLLER_9
  | SOUND_CONTROLLER_10
  | GENERAL_PURPOSE_5
  | GENERAL_PURPOSE_6
  | GENERAL_PURPOSE_7
  | GENERAL_PURPOSE_8
  | PORTAMENTO_AMOUNT
  | EFFECTS_1_DEPTH
  | EFFECTS_2_DEPTH
  | EFFECTS_3_DEPTH
  | EFFECTS_4_DEPTH
  | EFFECTS_5_DEPTH
  | DATA_INCREMENT
  | DATA_DECREMENT
  | NRPN_LSB
  | NRPN_MSB
  | RPN_LSB
  | RPN_MSB
  | ALL_SOUND_OFF
  | RESET_ALL_CONTROLLERS
  | LOCAL_ON_OFF_SWITCH
  | ALL_NOTES_OFF
  | OMNI_MODE_OFF
  | OMNI_MODE_ON
  | MONOPHONIC_MODE
  | POLYPHONIC_MODE.

Definition ControllerType_value (c : ControllerType) : Z :=
  match c with
  | BANK_SELECT_MSB => 0
  | MODULATION_WHEEL_MSB => 1
  | BREATH_CONTROLLER_MSB => 2
  | FOOT_CONTROLLER_MSB => 4
  | PORTAMENTO_TIME_MSB => 5
  | DATA_ENTRY_MSB => 6
  | VOLUME_MSB => 7
  | BALANCE_MSB => 8
  | PAN_MSB => 10
  | EXPRESSION_MSB => 11
  | EFFECT_1_MSB => 12
  | EFFECT_2_MSB => 13
  | GENERAL_PURPOSE_1_MSB => 16
  | GENERAL_PURPOSE_2_MSB => 17
  | GENERAL_PURPOSE_3_MSB => 18
  | GENERAL_PURPOSE_4_MSB => 19
  | BANK_SELECT_LSB => 32
  | MODULATION_LSB => 33
  | BREATH_CONTROLLER_LSB => 34
  | FOOT_CONTROLLER_LSB => 36
  | PORTAMENTO_TIME_LSB => 37
  | DATA_ENTRY_LSB => 38
  | VOLUME_LSB => 39
  | BALANCE_LSB => 40
  | PAN_LSB => 42
  | EXPRESSION_LSB => 43
  | EFFECT_1_LSB => 44
  | EFFECT_2_LSB => 45
  | GENERAL_PURPOSE_1_LSB => 48
  | GENERAL_PURPOSE_2_LSB => 49
  | GENERAL_PURPOSE_3_LSB => 50
  | GENERAL_PURPOSE_4_LSB => 51
  | SUSTAIN_PEDAL_SWITCH => 64
  | PORTAMENTO_SWITCH => 65
  | SOSTENUTO_SWITCH => 66
  | SOFT_PEDAL_SWITCH => 67
  | LEGATO_FOOTSWITCH => 68
  | HOLD_2_SWITCH => 69
  | SOUND_CONTROLLER_1 => 70
  | SOUND_CONTROLLER_2 => 71
  | SOUND_CONTROLLER_3 => 72
  | SOUND_CONTROLLER_4 => 73
  | SOUND_CONTROLLER_5 => 74
  | SOUND_CONTROLLER_6 => 75
  | SOUND_CONTROLLER_7 => 76
  | SOUND_CONTROLLER_8 => 77
  | SOUND_CONTROLLER_9 => 78
  | SOUND_CONTROLLER_10 => 79
  | GENERAL_PURPOSE_5 => 80
  | GENERAL_PURPOSE_6 => 81
  | GENERAL_PURPOSE_7 => 82
  | GENERAL_PURPOSE_8 => 83
  | PORTAMENTO_AMOUNT => 84
  | EFFECTS_1_DEPTH => 91
  | EFFECTS_2_DEPTH => 92
  | EFFECTS_3_DEPTH => 93
  | EFFECTS_4_DEPTH => 94
  | EFFECTS_5_DEPTH => 95
  | DATA_INCREMENT => 96
  | DATA_DECREMENT => 97
  | NRPN_LSB => 98
  | NRPN_MSB => 99
  | RPN_LSB => 100
  | RPN_MSB => 101
  | ALL_SOUND_OFF => 120
  | RESET_ALL_CONTROLLERS => 121
  | LOCAL_ON_OFF_SWITCH => 122
  | ALL_NOTES_OFF => 123
  | OMNI_MODE_OFF => 124
  | OMNI_MODE_ON => 125
  | MONOPHONIC_MODE => 126
  | POLYPHONIC_MODE => 127
  end.

Definition ControllerType_members : list ControllerType :=
  [BANK_SELECT_MSB; MODULATION_WHEEL_MSB; BREATH_CONTROLLER_MSB;
   FOOT_CONTROLLER_MSB; PORTAMENTO_TIME_MSB; DATA_ENTRY_MSB; VOLUME_MSB;
   BALANCE_MSB; PAN_MSB; EXPRESSION_MSB; EFFECT_1_MSB; EFFECT_2_MSB;
   GENERAL_PURPOSE_1_MSB; GENERAL_PURPOSE_2_MSB; GENERAL_PURPOSE_3_MSB;
   GENERAL_PURPOSE_4_MSB; BANK_SELECT_LSB; MODULATION_LSB;
   BREATH_CONTROLLER_LSB; FOOT_CONTROLLER_LSB; PORTAMENTO_TIME_LSB;
   DATA_ENTRY_LSB; VOLUME_LSB; BALANCE_LSB; PAN_LSB; EXPRESSION_LSB;
   EFFECT_1_LSB; EFFECT_2_LSB; GENERAL_PURPOSE_1_LSB; GENERAL_PURPOSE_2_LSB;
   GENERAL_PURPOSE_3_LSB; GENERAL_PURPOSE_4_LSB; SUSTAIN_PEDAL_SWITCH;
   PORTAMENTO_SWITCH; SOSTENUTO_SWITCH; SOFT_PEDAL_SWITCH; LEGATO_FOOTSWITCH;
   HOLD_2_SWITCH; SOUND_CONTROLLER_1; SOUND_CONTROLLER_2; SOUND_CONTROLLER_3;
   SOUND_CONTROLLER_4; SOUND_CONTROLLER_5; SOUND_CONTROLLER_6;
   SOUND_CONTROLLER_7; SOUND_CONTROLLER_8; SOUND_CONTROLLER_9;
   SOUND_CONTROLLER_10; GENERAL_PURPOSE_5; GENERAL_PURPOSE_6;
   GENERAL_PURPOSE_7; GENERAL_PURPOSE_8; PORTAMENTO_AMOUNT; EFFECTS_1_DEPTH;
   EFFECTS_2_DEPTH; EFFECTS_3_DEPTH; EFFECTS_4_DEPTH; EFFECTS_5_DEPTH;
   DATA_INCREMENT; DATA_DECREMENT; NRPN_LSB; NRPN_MSB; RPN_LSB; RPN_MSB;
   ALL_SOUND_OFF; RESET_ALL_CONTROLLERS; LOCAL_ON_OFF_SWITCH; ALL_NOTES_OFF;
   OMNI_MODE_OFF; OMNI_MODE_ON; MONOPHONIC_MODE; POLYPHONIC_MODE].

#[export] Instance EventType_eq_dec : EqDecision EventType.
Proof. solve_decision. Defined.

#[export] Instance MetaType_eq_dec : EqDecision MetaType.
Proof. solve_decision. Defined.

(** Calling an enumeration class on a value, [EventType(v)]: the member
    with that value, or [ValueError] when there is none. *)
Definition enum_call {E} (value : E → Z) (members : list E) (name : string)
    (v : Z) : result E :=
  match find (λ m, value m =? v) members with
  | Some m => Ok m
  | None => Raise (ValueError (String.append "{value} is not a valid " name))
  end.

Definition EventType_call : Z → result EventType :=
  enum_call EventType_value EventType_members "EventType".
Definition MetaType_call : Z → result MetaType :=
  enum_call MetaType_value MetaType_members "MetaType".
Definition ControllerType_call : Z → result ControllerType :=
  enum_call ControllerType_value ControllerType_members "ControllerType".

(** The objects found in an event's data dictionary and channel field. *)
Inductive pyobj : Type :=
  | PyInt (z : Z)
  | PyFloat (x : float)
  | PyBytes (b : list byte)
  | PyStr (s : string)
  | PyIntList (l : list Z)
  | PyMeta (m : MetaType)
  | PyController (c : ControllerType).

(** [_EVENT_TYPE_ORDER]: a dictionary with an entry for each of the ten
    event types, so a lookup by event type never misses. *)
Definition _EVENT_TYPE_ORDER (t : EventType) : Z :=
  match t with
  | NOTE_OFF => 10
  | NOTE_ON => 100
  | POLYPHONIC_KEY_PRESSURE => 40
  | CONTROLLER_CHANGE => 1
  | PROGRAM_CHANGE => 0
  | CHANNEL_KEY_PRESSURE => 50
  | PITCH_BEND => 30
  | F0_SYSEX => 0
  | F7_SYSEX => 0
  | META => 0
  end.

(** [class SongEvent].  [data] and [channel] default to [None].  The times
    the reader produces are sums of integer delta times, so [time] is an
    integer here. *)
Record SongEvent : Type := mkSongEvent {
  track : Z;
  time : Z;
  type : EventType;
  _data : option (gmap string pyobj);
  channel : option pyobj;
}.

Definition is_sysex_or_meta (t : EventType) : bool :=
  match t with F0_SYSEX | F7_SYSEX | META => true | _ => false end.

(** [type(channel) is not int] for a channel that is not [None]. *)
Definition is_int (o : pyobj) : bool :=
  match o with PyInt _ => true | _ => false end.

(** ["meta_type" not in data]: the membership test raises [TypeError] when
    [data] is [None]. *)
Definition not_in (key : string) (data : option (gmap string pyobj)) : result bool :=
  match data with
  | None => Raise (TypeError "argument of type 'NoneType' is not iterable")
  | Some d => Ok (bool_decide (d !! key = None))
  end.

(** [SongEvent.__init__] *)
Definition SongEvent_init (track : Z) (time : Z) (event_type : EventType)
    (data : option (gmap string pyobj)) (channel : option pyobj) : result SongEvent :=
  let set_fields := Ok (mkSongEvent track time event_type data channel) in
  let check_meta :=
    match event_type with
    | META =>
        match not_in "meta_type" data with
        | inl e => Raise e
        | inr true =>
            Raise (ValueError "{event_type} events must have a 'meta_type' data entry.")
        | inr false => set_fields
        end
    | _ => set_fields
    end in
  if is_sysex_or_meta event_type then
    match channel with
    | Some _ => Raise (ValueError "Channel must be None for {event_type} events.")
    | None => check_meta
    end
  else
    match channel with
    | None => Raise (ValueError "Channel must be an integer for {event_type} events.")
    | Some c =>
        if is_int c then check_meta
        else Raise (ValueError "Channel must be an integer for {event_type} events.")
    end.

(** [SongEvent.__getitem__] *)
Definition SongEvent_getitem (e : SongEvent) (key : string) : result pyobj :=
  match _data e with
  | None => Raise (TypeError "'NoneType' object is not subscriptable")
  | Some d =>
      match d !! key with
      | Some v => Ok v
      | None => Raise (KeyError key)
      end
  end.

(** [SongEvent.__eq__] *)
Definition SongEvent_eq (self other : SongEvent) : bool :=
  if negb (time self =? time other) then false
  else if negb (_EVENT_TYPE_ORDER (type self) =? _EVENT_TYPE_ORDER (type other)) then false
  else if negb (track self =? track other) then false
  else true.

(** [SongEvent.__lt__] *)
Definition SongEvent_lt (self other : SongEvent) : bool :=
  if time self <? time other then true
  else if time self >? time other then false
  else if _EVENT_TYPE_ORDER (type self) <? _EVENT_TYPE_ORDER (type other) then true
  else if _EVENT_TYPE_ORDER (type self) >? _EVENT_TYPE_ORDER (type other) then false
  else track self <? track other.

(** [SongEvent.__setitem__]: the assignment updates the data dictionary of
    the event in place; the result is the event after it. *)
Definition SongEvent_setitem (e : SongEvent) (key : string) (value : pyobj) :
    result SongEvent :=
  match _data e with
  | None => Raise (TypeError "'NoneType' object does not support item assignment")
  | Some d =>
      Ok (mkSongEvent (track e) (time e) (type e) (Some (<[key := value]> d))
            (channel e))
  end.

(** The comparisons the decorator [functools.total_ordering] adds to the
    class from [__lt__] and [__eq__]: [__ne__] negates [__eq__], and
    [a > b] is [not a < b and a != b], [a <= b] is [a < b or a == b],
    [a >= b] is [not a < b]. *)
Definition SongEvent_ne (self other : SongEvent) : bool :=
  negb (SongEvent_eq self other).
Definition SongEvent_gt (self other : SongEvent) : bool :=
  negb (SongEvent_lt self other) && SongEvent_ne self other.
Definition SongEvent_le (self other : SongEvent) : bool :=
  SongEvent_lt self other || SongEvent_eq self other.
Definition SongEvent_ge (self other : SongEvent) : bool :=
  negb (SongEvent_lt self other).

End Midi.

Import Midi.

(** ** [imfcreator/midi/constants.py] *)

Module Constants.

Definition NOTE_OFF_EVENT : Z := 0x80.
Definition NOTE_ON_EVENT : Z := 0x90.
Definition POLYPHONIC_KEY_PRESSURE_EVENT : Z := 0xa0.
Definition CONTROLLER_CHANGE_EVENT : Z := 0xb0.
Definition PROGRAM_CHANGE_EVENT : Z := 0xc0.
Definition CHANNEL_KEY_PRESSURE_EVENT : Z := 0xd0.
Definition PITCH_BEND_EVENT : Z := 0xe0.
Definition F0_SYSEX_EVENT : Z := 0xf0.
Definition F7_SYSEX_EVENT : Z := 0xf7.
Definition META_EVENT : Z := 0xff.

End Constants.

(** ** [imfcreator/utils.py] *)

Module Utils.

(** Python's two-argument [min] and [max] return the first argument unless
    the second is strictly smaller (strictly larger). *)
Definition py_min (a b : float) : float := if PrimFloat.ltb b a then b else a.
Definition py_max (a b : float) : float := if PrimFloat.ltb a b then b else a.

(** [clamp(value, minimum, maximum)], which the reader calls on floats. *)
Definition clamp (value minimum maximum : float) : float :=
  py_max minimum (py_min value maximum).

End Utils.

(** ** [imfcreator/plugins/_binary.py] *)

Module Binary.

(** The ordinal of a byte. *)
Definition byte_value (b : byte) : Z := Z.of_N (Byte.to_N b).
Global Arguments byte_value : simpl never.

(** Modelled from the spec: the module [imfcreator/plugins/_binary.py] is
    not among the sources.  The reader uses [u8], [u16be] and [u32be] for
    "one byte as an ordinal", a "big-endian 16-bit number" and a
    "big-endian 32-bit integer".  Given fewer bytes than it decodes (a read
    at the end of the stream) each fails; the model calls that failure
    [ShortRead]. *)
Definition u8 (c : list byte) : result Z :=
  match c with
  | [b0] => Ok (byte_value b0)
  | _ => Raise ShortRead
  end.

(** Modelled from the spec: [_binary.u16be], a big-endian 16-bit number. *)
Definition u16be (c : list byte) : result Z :=
  match c with
  | [b0; b1] => Ok (byte_value b0 * 256 + byte_value b1)
  | _ => Raise ShortRead
  end.

(** Modelled from the spec: [_binary.u32be], a big-endian 32-bit integer. *)
Definition u32be (c : list byte) : result Z :=
  match c with
  | [b0; b1; b2; b3] =>
      Ok (((byte_value b0 * 256 + byte_value b1) * 256 + byte_value b2) * 256
          + byte_value b3)
  | _ => Raise ShortRead
  end.

End Binary.

Import Binary.

(** ** The file object

    A binary stream open for reading: its content split at the current
    position.  [behind] holds the bytes before the position, nearest first;
    [ahead] the bytes from the position on; [beyond] how far the position
    lies past the end of the content (seeking there is allowed, reading
    there returns nothing). *)

Module File.

Record file : Type := mkFile {
  behind : list byte;
  ahead : list byte;
  beyond : N;
}.

Definition of_bytes (content : list byte) : file := mkFile [] content 0%N.

(** [fp.tell()] *)
Definition tell (f : file) : Z := Z.of_nat (length (behind f)) + Z.of_N (beyond f).

(** [fp.read(n)]: up to [n] bytes, fewer at the end of the content, all the
    rest when [n] is negative. *)
Definition read (n : Z) (f : file) : list byte * file :=
  let k := if n <? 0 then length (ahead f) else Z.to_nat n in
  let data := take k (ahead f) in
  (data, mkFile (rev_append data (behind f)) (drop k (ahead f)) (beyond f)).

(** Moving the position back over [k] bytes of content. *)
Fixpoint unread (k : nat) (behind ahead : list byte) : option (list byte * list byte) :=
  match k with
  | O => Some (behind, ahead)
  | S k' =>
      match behind with
      | [] => None
      | b :: bs => unread k' bs (b :: ahead)
      end
  end.

(** [fp.seek(offset, os.SEEK_CUR)]; a position before the start of the
    content is an [OSError]. *)
Definition seek_cur (offset : Z) (f : file) : result file :=
  if 0 <=? offset then
    let k := Z.to_nat offset in
    let moved := take k (ahead f) in
    Ok (mkFile (rev_append moved (behind f)) (drop k (ahead f))
               (beyond f + Z.to_N (offset - Z.of_nat (length moved)))%N)
  else
    let back := Z.to_N (- offset) in
    if (back <=? beyond f)%N then
      Ok (mkFile (behind f) (ahead f) (beyond f - back)%N)
    else
      match unread (N.to_nat (back - beyond f)) (behind f) (ahead f) with
      | Some (bs, ah) => Ok (mkFile bs ah 0%N)
      | None => Raise OSError
      end.

End File.

Import File.

(** ** [imfcreator/plugins/midifileplugin.py] *)

Module MidiFilePlugin.

(** Code that reads from the stream: it takes the file object, and either
    raises or returns a value and the file object at its new position. *)
Definition M (A : Type) : Type := file → result (A * file).

#[export] Instance M_ret : MRet M := λ A a f, Ok (a, f).
#[export] Instance M_bind : MBind M := λ A B k m f,
  match m f with
  | inl e => inl e
  | inr (a, f') => k a f'
  end.

Definition throw {A} (e : exn) : M A := λ _, Raise e.

Definition lift {A} (r : result A) : M A := λ f,
  match r with
  | inl e => inl e
  | inr a => Ok (a, f)
  end.

Definition fp_read (n : Z) : M (list byte) := λ f, Ok (File.read n f).
Definition fp_tell : M Z := λ f, Ok (File.tell f, f).
Definition fp_seek (offset : Z) : M unit := λ f,
  match File.seek_cur offset f with
  | inl e => inl e
  | inr f' => Ok (tt, f')
  end.

(** [_u8(f)] *)
Definition _u8 : M Z := c ← fp_read 1; lift (u8 c).

(** The loop of [_read_var_length]; [fuel] bounds its iterations. *)
Fixpoint _read_var_length_loop (fuel : nat) (length b : Z) : M Z :=
  if negb (Z.land b 0x80 =? 0) then
    match fuel with
    | O => throw OutOfFuel
    | S fuel' =>
        let length := length * 0x80 + Z.land b 0x7f in
        b ← _u8;
        _read_var_length_loop fuel' length b
    end
  else mret (length * 0x80 + b).

(** [_read_var_length(f)].  Every iteration of the loop reads a byte, so
    the number of bytes ahead bounds the iterations. *)
Definition _read_var_length : M Z := λ f,
  (b ← _u8; _read_var_length_loop (length (ahead f)) 0 b) f.

(** [[_u8(self.fp) for _ in range(n)]] *)
Fixpoint _u8_times (n : nat) : M (list Z) :=
  match n with
  | O => mret []
  | S n' => b ← _u8; bs ← _u8_times n'; mret (b :: bs)
  end.

Definition _u8_list (n : Z) : M (list Z) := _u8_times (Z.to_nat n).

(** [struct.unpack(">HHH", c)] *)
Definition unpack_HHH (c : list byte) : result (Z * Z * Z) :=
  match c with
  | [a0; a1; b0; b1; c0; c1] =>
      Ok (byte_value a0 * 256 + byte_value a1,
          byte_value b0 * 256 + byte_value b1,
          byte_value c0 * 256 + byte_value c1)
  | _ => Raise StructError
  end.

(** [struct.unpack("<bB", c)]: a signed byte, then an unsigned one. *)
Definition unpack_bB (c : list byte) : result (Z * Z) :=
  match c with
  | [s; u] =>
      let v := byte_value s in
      Ok (if v <? 128 then v else v - 256, byte_value u)
  | _ => Raise StructError
  end.

Definition MThd : list byte := [x4d; x54; x68; x64].
Definition MTrk : list byte := [x4d; x54; x72; x6b].

#[export] Instance byte_eq_dec : EqDecision byte := Byte.byte_eq_dec.

(** [MidiReader.accept] *)
Definition accept (preview : list byte) : result bool :=
  if bool_decide (take 4 preview = MThd) then
    match u32be (take 4 (drop 4 preview)) with
    | inl e => Raise e
    | inr n => Ok (n =? 6)
    end
  else Ok false.

(** [MidiReader._read_chunk_header]: [None] at the end of the file. *)
Definition _read_chunk_header : M (option (list byte * Z)) :=
  chunk_name ← fp_read 4;
  match chunk_name with
  | [] => mret None
  | _ =>
      c ← fp_read 4;
      chunk_length ← lift (u32be c);
      mret (Some (chunk_name, chunk_length))
  end.

(** [chunk_name, chunk_length = self._read_chunk_header()] *)
Definition unpack_chunk_header : M (list byte * Z) :=
  h ← _read_chunk_header;
  match h with
  | Some p => mret p
  | None => throw (TypeError "cannot unpack non-iterable NoneType object")
  end.

(** [get_key_signature], local to the KEY_SIGNATURE branch. *)
Definition keys : list string :=
  ["Cb"; "Gb"; "Db"; "Ab"; "Eb"; "Bb"; "F";
   "C"; "G"; "D"; "A"; "E"; "B"; "F#";
   "C#"; "G#"; "D#"; "A#"]%string.

Definition get_key_signature (sharps_flats major_minor : Z) : result string :=
  match list_getitem keys (sharps_flats + 7 + major_minor * 3) with
  | inl e => Raise e
  | inr k => Ok (String.append k (str_mul "m" major_minor))
  end.

(** [event_data.update(new)]: the entries of [new] win. *)
Definition dict_update (event_data new : gmap string pyobj) : gmap string pyobj :=
  new ∪ event_data.

Definition text_meta_types : list MetaType :=
  [TEXT_EVENT; COPYRIGHT; TRACK_NAME; INSTRUMENT_NAME; LYRIC; MARKER;
   CUE_POINT; PROGRAM_NAME; DEVICE_NAME].

(** The META branch of [_read_events] once [meta_type] and [data_length]
    are read: the chain of tests on [meta_type] and the entries each adds
    to [event_data]. *)
Definition read_meta_data (meta_type : MetaType) (data_length : Z)
    (event_data : gmap string pyobj) : M (gmap string pyobj) :=
  if bool_decide (meta_type = SEQUENCE_NUMBER) then
    if negb (data_length =? 2) then
      throw (ValueError "MetaType.SEQUENCE_NUMBER events should have a data length of 2.")
    else
      c ← fp_read 2;
      number ← lift (u16be c);
      mret (dict_update event_data {["number" := PyInt number]})
  else if bool_decide (meta_type ∈ text_meta_types) then
    text ← fp_read data_length;
    mret (dict_update event_data {["text" := PyBytes text]})
  else if bool_decide (meta_type = CHANNEL_PREFIX) then
    if negb (data_length =? 1) then
      throw (ValueError "MetaType.CHANNEL_PREFIX events should have a data length of 1.")
    else
      ch ← _u8;
      mret (dict_update event_data {["channel" := PyInt ch]})
  else if bool_decide (meta_type = PORT) then
    if negb (data_length =? 1) then
      throw (ValueError "MetaType.PORT events should have a data length of 1.")
    else
      port ← _u8;
      mret (dict_update event_data {["port" := PyInt port]})
  else if bool_decide (meta_type = SET_TEMPO) then
    if negb (data_length =? 3) then
      throw (ValueError "MetaType.SET_TEMPO events should have a data length of 3.")
    else
      b0 ← _u8;
      b1 ← _u8;
      b2 ← _u8;
      let speed := Z.shiftl b0 16 + Z.shiftl b1 8 + b2 in
      if speed =? 0 then throw ZeroDivisionError
      else
        mret (dict_update event_data
                {["bpm" := PyFloat (PrimFloat.div (float_of_int 60000000)
                                                  (float_of_int speed))]})
  else if bool_decide (meta_type = SMTPE_OFFSET) then
    if negb (data_length =? 5) then
      throw (ValueError "MetaType.SMTPE_OFFSET events should have a data length of 5.")
    else
      hours ← _u8;
      minutes ← _u8;
      seconds ← _u8;
      frames ← _u8;
      fractional_frames ← _u8;
      mret (dict_update event_data
              (<["fractional_frames" := PyInt fractional_frames]>
                 (<["frames" := PyInt frames]>
                    (<["seconds" := PyInt seconds]>
                       (<["minutes" := PyInt minutes]>
                          {["hours" := PyInt hours]})))))
  else if bool_decide (meta_type = TIME_SIGNATURE) then
    if negb (data_length =? 4) then
      throw (ValueError "MetaType.TIME_SIGNATURE events should have a data length of 4.")
    else
      numerator ← _u8;
      exponent ← _u8;
      clocks ← _u8;
      notes ← _u8;
      mret (dict_update event_data
              (<["number_of_32nd_notes_per_beat" := PyInt notes]>
                 (<["midi_clocks_per_metronome_tick" := PyInt clocks]>
                    (<["denominator" := PyInt (2 ^ exponent)]>
                       {["numerator" := PyInt numerator]}))))
  else if bool_decide (meta_type = KEY_SIGNATURE) then
    c ← fp_read 2;
    '(sharps_flats, major_minor) ← lift (unpack_bB c);
    key ← lift (get_key_signature sharps_flats major_minor);
    mret (dict_update event_data {["key" := PyStr key]})
  else if negb (data_length =? 0) then
    bytes ← _u8_list data_length;
    mret (dict_update event_data {["bytes" := PyIntList bytes]})
  else mret event_data.

(** The channel branch of [_read_events]: the data dictionary of a channel
    voice message, selected by the status byte masked with [0xf0]. *)
Definition read_channel_data (event_type : Z) : M (gmap string pyobj) :=
  if event_type =? EventType_value NOTE_OFF then
    note ← _u8;
    velocity ← _u8;
    mret (<["velocity" := PyInt velocity]> {["note" := PyInt note]})
  else if event_type =? EventType_value NOTE_ON then
    note ← _u8;
    velocity ← _u8;
    mret (<["velocity" := PyInt velocity]> {["note" := PyInt note]})
  else if event_type =? EventType_value POLYPHONIC_KEY_PRESSURE then
    note ← _u8;
    pressure ← _u8;
    mret (<["pressure" := PyInt pressure]> {["note" := PyInt note]})
  else if event_type =? EventType_value CONTROLLER_CHANGE then
    number ← _u8;
    controller ← lift (ControllerType_call number);
    value ← _u8;
    mret (<["value" := PyInt value]> {["controller" := PyController controller]})
  else if event_type =? EventType_value PROGRAM_CHANGE then
    program ← _u8;
    mret {["program" := PyInt program]}
  else if event_type =? EventType_value CHANNEL_KEY_PRESSURE then
    pressure ← _u8;
    mret {["pressure" := PyInt pressure]}
  else if event_type =? EventType_value PITCH_BEND then
    lsb ← _u8;
    msb ← _u8;
    let value := (lsb + msb * 0x80) - 0x2000 in
    mret {["value" := PyFloat (Utils.clamp
                                 (PrimFloat.div (float_of_int value) (float_of_int 0x1fff))
                                 (-1)%float 1%float)]}
  else throw (ValueError "Unsupported MIDI event code: 0x{event_type:x}").

(** The state of the loop of [_read_events]. *)
Record track_state : Type := mkTrackState {
  running_status : option Z;
  event_time : Z;
  events : list SongEvent;
}.

(** One iteration of the loop of [_read_events]: one event is read at the
    current position and appended. *)
Definition read_event (track_number : Z) (st : track_state) : M track_state :=
  delta_time ← _read_var_length;
  let event_time := event_time st + delta_time in
  event_type ← _u8;
  '(event_type, running_status) ←
    (if Z.land event_type 0x80 =? 0 then
       _ ← fp_seek (-1);
       match running_status st with
       | None =>
           throw (ValueError
                    "Expected a running status, but it was None at pos {self.fp.tell()}.")
       | Some status => mret (status, running_status st)
       end
     else mret (event_type, None));
  '(event_type, event_data, channel, running_status) ←
    (if bool_decide (event_type ∈ [EventType_value F0_SYSEX; EventType_value F7_SYSEX]) then
       data_length ← _read_var_length;
       bytes ← _u8_list data_length;
       mret (event_type, {["bytes" := PyIntList bytes]}, None, running_status)
     else if event_type =? EventType_value META then
       code ← _u8;
       meta_type ← lift (MetaType_call code);
       let event_data : gmap string pyobj := {["meta_type" := PyMeta meta_type]} in
       data_length ← _read_var_length;
       event_data ← read_meta_data meta_type data_length event_data;
       mret (event_type, event_data, None, running_status)
     else
       let running_status := Some event_type in
       let channel := Some (PyInt (Z.land event_type 0xf)) in
       let event_type := Z.land event_type 0xf0 in
       event_data ← read_channel_data event_type;
       mret (event_type, event_data, channel, running_status));
  event_type ← lift (EventType_call event_type);
  event ← lift (SongEvent_init track_number event_time event_type (Some event_data) channel);
  mret (mkTrackState running_status event_time (events st ++ [event])).

(** The loop of [_read_events]; [fuel] bounds its iterations. *)
Fixpoint _read_events_loop (fuel : nat) (chunk_end track_number : Z)
    (st : track_state) : M (list SongEvent) :=
  pos ← fp_tell;
  if pos <? chunk_end then
    match fuel with
    | O => throw OutOfFuel
    | S fuel' =>
        st ← read_event track_number st;
        _read_events_loop fuel' chunk_end track_number st
    end
  else mret (events st).

(** [MidiReader._read_events].  Every iteration that does not raise takes
    at least one byte off the stream, so one more than the number of bytes
    ahead bounds the iterations. *)
Definition _read_events (chunk_length track_number : Z) : M (list SongEvent) := λ f,
  (pos ← fp_tell;
   let chunk_end := pos + chunk_length in
   _read_events_loop (S (length (ahead f))) chunk_end track_number
     (mkTrackState None 0 [])) f.

(** The body of the [try] in the loop of [MidiReader._open]. *)
Definition read_chunk (track_number : Z) (events : list SongEvent) : M (list SongEvent) :=
  '(chunk_name, chunk_length) ← unpack_chunk_header;
  if negb (bool_decide (chunk_name = MTrk)) then
    _ ← fp_seek chunk_length;
    mret events
  else
    track_events ← _read_events chunk_length track_number;
    mret (events ++ track_events).

(** The loop of [MidiReader._open]: a [TypeError] raised in the body ends
    it, any other exception propagates.  [fuel] bounds its iterations. *)
Fixpoint _open_loop (fuel : nat) (track_number : Z) (events : list SongEvent)
    (f : file) : result (list SongEvent) :=
  match read_chunk track_number events f with
  | inl e => if is_TypeError e then Ok events else Raise e
  | inr (events, f) =>
      match fuel with
      | O => Raise OutOfFuel
      | S fuel' => _open_loop fuel' (track_number + 1) events f
      end
  end.

(** The fields [MidiReader._open] sets. *)
Record MidiReader : Type := mkMidiReader {
  division : Z;
  reader_events : list SongEvent;
}.

(** [MidiReader._open].  Every chunk read takes at least one byte, so the
    number of bytes ahead bounds the iterations of the chunk loop. *)
Definition _open (f : file) : result MidiReader :=
  match unpack_chunk_header f with
  | inl e => Raise e
  | inr ((chunk_name, chunk_length), f) =>
      if negb (bool_decide (chunk_name = MThd)) then
        Raise (ValueError "Unexpected MIDI header chunk name: {chunk_name}")
      else if negb (chunk_length =? 6) then
        Raise (ValueError "Unexpected MIDI header chunk length: {chunk_length}")
      else
        let (c, f) := File.read 6 f in
        match unpack_HHH c with
        | inl e => Raise e
        | inr (file_format, num_tracks, division) =>
            if negb (bool_decide (file_format ∈ [0; 1])) then
              Raise (ValueError "Unsupported MIDI file format: {file_format}")
            else
              match _open_loop (length (ahead f)) 0 [] f with
              | inl e => Raise e
              | inr events => Ok (mkMidiReader division events)
              end
        end
  end.

(** [MidiReader.event_count] *)
Definition event_count (r : MidiReader) : Z := Z.of_nat (length (reader_events r)).

(** [MidiReader.get_event] *)
Definition get_event (r : MidiReader) (index : Z) : result SongEvent :=
  list_getitem (reader_events r) index.

(** Opening a reader on the bytes of a file. *)
Definition open_bytes (content : list byte) : result MidiReader :=
  _open (File.of_bytes content).

End MidiFilePlugin.

Import MidiFilePlugin.

(** ** The canonical variable-length quantity encoding

    The repository has no encoder.  To state the round trip of the decoder,
    the encoder is written here after the Standard MIDI File format: the
    quantity is cut into groups of seven bits, most significant group
    first, each byte but the last with its high bit set. *)

Module VLQ.

Definition byte_of_Z (z : Z) : byte :=
  default x00 (Byte.of_N (Z.to_N z)).

(** The continuation bytes for the groups of [m], at most [k] of them. *)
Fixpoint vlq_groups (k : nat) (m : Z) : list byte :=
  match k with
  | O => []
  | S k' =>
      if m =? 0 then []
      else vlq_groups k' (m / 128) ++ [byte_of_Z (128 + m mod 128)]
  end.

(** Modelled from the spec: the "variable-length quantity" encoding,
    "7-bit-per-byte, high-bit-continuation", which the repository only
    decodes.  The last byte holds the low seven bits; a quantity [n] has no
    more than [Z.log2 n] groups above it. *)
Definition vlq_encode (n : Z) : list byte :=
  vlq_groups (Z.to_nat (Z.log2 n)) (n / 128) ++ [byte_of_Z (n mod 128)].

End VLQ.

Import VLQ.

(** * Properties *)

(** ** Vocabulary of the statements *)

(** The sort key the comparison methods look at. *)
Definition sort_key (e : SongEvent) : Z * Z * Z :=
  (time e, _EVENT_TYPE_ORDER (type e), track e).

Definition key_lt (k1 k2 : Z * Z * Z) : Prop :=
  let '(t1, p1, r1) := k1 in
  let '(t2, p2, r2) := k2 in
  t1 < t2 ∨ (t1 = t2 ∧ (p1 < p2 ∨ (p1 = p2 ∧ r1 < r2))).

(** Events to exercise the ordering on. *)
Definition note_off_at (t r : Z) : SongEvent :=
  mkSongEvent r t NOTE_OFF
    (Some (<["velocity" := PyInt 0]> {["note" := PyInt 60]})) (Some (PyInt 0)).
Definition note_on_at (t r : Z) : SongEvent :=
  mkSongEvent r t NOTE_ON
    (Some (<["velocity" := PyInt 100]> {["note" := PyInt 60]})) (Some (PyInt 0)).
Definition program_change_at (t r : Z) : SongEvent :=
  mkSongEvent r t PROGRAM_CHANGE (Some {["program" := PyInt 5]}) (Some (PyInt 3)).
Definition end_of_track_at (t r : Z) : SongEvent :=
  mkSongEvent r t META (Some {["meta_type" := PyMeta END_OF_TRACK]}) None.

(** The clamp of [x] to the closed interval from [lo] to [hi], as the
    specification means it: [lo] for a number below the interval, [hi] for
    one above it, the number itself within.  It is written out here and
    owes nothing to the [clamp] of the code. *)
Definition clamp_to_interval (lo hi x : float) : float :=
  if PrimFloat.ltb x lo then lo
  else if PrimFloat.ltb hi x then hi
  else x.

(** The value a PITCH_BEND message is specified to carry: the clamp of
    [(lsb + msb*128 - 8192) / 8191] to [-1.0, 1.0]. *)
Definition pitch_bend_value (lsb msb : Z) : float :=
  clamp_to_interval (-1)%float 1%float
    (PrimFloat.div (float_of_int (lsb + msb * 128 - 8192)) (float_of_int 8191)).

Definition in_unit_range (x : float) : bool :=
  PrimFloat.leb (-1)%float x && PrimFloat.leb x 1%float.

Definition byte_values : list Z := Z.of_nat <$> seq 0 256.

(** The controller numbers from 0 to 127 that [ControllerType] does not
    name, as the comments of the source list them. *)
Definition undefined_controllers : list Z :=
  [3; 9; 14; 15] ++ (Z.of_nat <$> seq 20 12) ++ [35; 41; 46; 47]
  ++ (Z.of_nat <$> seq 52 12) ++ (Z.of_nat <$> seq 85 6)
  ++ (Z.of_nat <$> seq 102 18).

(** The data dictionary of a META event whose type has no decoder of its
    own: the payload under "bytes", when there is one. *)
Definition raw_meta_data (m : MetaType) (payload : list byte) : gmap string pyobj :=
  match payload with
  | [] => {["meta_type" := PyMeta m]}
  | _ :: _ =>
      dict_update {["meta_type" := PyMeta m]}
        {["bytes" := PyIntList (byte_value <$> payload)]}
  end.

(** A byte read as [struct]'s format [b]. *)
Definition signed_byte (b : byte) : Z :=
  if byte_value b <? 128 then byte_value b else byte_value b - 256.

(** The state of the event loop at the start of a track. *)
Definition track_start : track_state := mkTrackState None 0 [].

(** Sample files.  The header chunk: format 1, two tracks, 96 ticks. *)
Definition smf_header : list byte :=
  MThd ++ [x00; x00; x00; x06; x00; x01; x00; x02; x00; x60].

Definition track_chunk (size : byte) (body : list byte) : list byte :=
  MTrk ++ [x00; x00; x00; size] ++ body.

(** A chunk with the tag "XFIH" and two bytes of content. *)
Definition foreign_chunk : list byte :=
  [x58; x46; x49; x48; x00; x00; x00; x02; xaa; xbb].

(** A note-on and an end of track. *)
Definition first_track : list byte :=
  track_chunk x08 [x00; x90; x3c; x64; x00; xff; x2f; x00].

(** A program change and an end of track. *)
Definition second_track : list byte :=
  track_chunk x07 [x00; xc0; x05; x00; xff; x2f; x00].

Definition smf_with_foreign_chunk : list byte :=
  smf_header ++ first_track ++ foreign_chunk ++ second_track.

(** A META event of type [0x0a], which [MetaType] does not name, with a
    payload of one byte. *)
Definition smf_unknown_meta : list byte :=
  smf_header ++ track_chunk x05 [x00; xff; x0a; x01; x33].

(** A controller change for controller number 3. *)
Definition smf_controller_3 : list byte :=
  smf_header ++ track_chunk x04 [x00; xb0; x03; x01].

(** A key signature with the raw bytes (0, 1). *)
Definition smf_key_signature_0_1 : list byte :=
  smf_header ++ track_chunk x06 [x00; xff; x59; x02; x00; x01].

(** What a decoded file shows of its events: track, time, type. *)
Definition event_summary (r : MidiReader) : list (Z * Z * EventType) :=
  (λ e, (track e, time e, type e)) <$> reader_events r.

(** How many bytes of the stream lie ahead. *)
Definition remaining (f : file) : Z := Z.of_nat (length (ahead f)).

(** The result of a loop of the model that used up its bound. *)
Definition out_of_fuel {A} (r : result A) : Prop :=
  match r with
  | inl OutOfFuel => True
  | _ => False
  end.

(** [advances z m]: the code [m] never uses up a bound, and when it
    returns, the stream has at least [z] bytes fewer ahead. *)
Definition advances {A} (z : Z) (m : M A) : Prop :=
  ∀ f, ¬ out_of_fuel (m f)
       ∧ ∀ a f', m f = Ok (a, f') → remaining f' + z ≤ remaining f.

(** The events of a track are all tagged with the track number the loop
    was given, in non-decreasing order of time. *)
Definition track_invariant (track_number : Z) (st : track_state) : Prop :=
  Forall (λ e, track e = track_number ∧ time e ≤ event_time st) (events st)
  ∧ StronglySorted (λ a b, time a ≤ time b) (events st).

(** *** Vocabulary of the further properties *)

(** The arguments [SongEvent.__init__] lets through. *)
Definition valid_event_args (event_type : EventType)
    (data : option (gmap string pyobj)) (channel : option pyobj) : Prop :=
  if is_sysex_or_meta event_type then
    channel = None
    ∧ (event_type = META → ∃ d v, data = Some d ∧ d !! "meta_type" = Some v)
  else ∃ z, channel = Some (PyInt z).

(** The data dictionary of a channel voice message with plain data
    bytes. *)
Definition voice_data (t : EventType) (data : list byte) : option (gmap string pyobj) :=
  match t, data with
  | NOTE_OFF, [note; velocity] | NOTE_ON, [note; velocity] =>
      Some (<["velocity" := PyInt (byte_value velocity)]>
              {["note" := PyInt (byte_value note)]})
  | POLYPHONIC_KEY_PRESSURE, [note; pressure] =>
      Some (<["pressure" := PyInt (byte_value pressure)]>
              {["note" := PyInt (byte_value note)]})
  | PROGRAM_CHANGE, [program] => Some {["program" := PyInt (byte_value program)]}
  | CHANNEL_KEY_PRESSURE, [pressure] => Some {["pressure" := PyInt (byte_value pressure)]}
  | _, _ => None
  end.

(** Two streams that differ only in what lies behind the position. *)
Definition same_ahead (f1 f2 : file) : Prop :=
  ahead f1 = ahead f2 ∧ beyond f1 = beyond f2.

(** [blind m]: the code [m] only reads forward, so its outcome does not
    depend on what lies behind the position. *)
Definition blind {A} (m : M A) : Prop :=
  ∀ f1 f2, same_ahead f1 f2 →
    match m f1, m f2 with
    | inl e1, inl e2 => e1 = e2
    | inr (a1, f1'), inr (a2, f2') => a1 = a2 ∧ same_ahead f1' f2'
    | _, _ => False
    end.

(** The data lengths the META branch insists on, with the message of the
    [ValueError] it raises for any other length. *)
Definition fixed_meta_length (m : MetaType) : option (Z * string) :=
  match m with
  | SEQUENCE_NUMBER =>
      Some (2, "MetaType.SEQUENCE_NUMBER events should have a data length of 2."%string)
  | CHANNEL_PREFIX =>
      Some (1, "MetaType.CHANNEL_PREFIX events should have a data length of 1."%string)
  | PORT => Some (1, "MetaType.PORT events should have a data length of 1."%string)
  | SET_TEMPO =>
      Some (3, "MetaType.SET_TEMPO events should have a data length of 3."%string)
  | SMTPE_OFFSET =>
      Some (5, "MetaType.SMTPE_OFFSET events should have a data length of 5."%string)
  | TIME_SIGNATURE =>
      Some (4, "MetaType.TIME_SIGNATURE events should have a data length of 4."%string)
  | _ => None
  end.

(** The tempo a SET_TEMPO event carries, in beats per minute, for a
    number of microseconds per quarter note. *)
Definition tempo_bpm (speed : Z) : float :=
  PrimFloat.div (float_of_int 60000000) (float_of_int speed).

(** A META event with the data dictionary [event_data], appended to the
    events of a track. *)
Definition with_meta_event (track : Z) (st : track_state) (time : Z)
    (event_data : gmap string pyobj) : track_state :=
  mkTrackState None time
    (events st ++ [mkSongEvent track time META (Some event_data) None]).

(** The order of the events of a decoded file: by track, and within a
    track by time. *)
Definition file_order (a b : SongEvent) : Prop :=
  track a < track b ∨ (track a = track b ∧ time a ≤ time b).

(** What holds of every event the decoder builds: a track number and a
    time that are not negative, a data dictionary, the invariants of the
    constructor, and a channel, when there is one, from 0 to 15. *)
Definition event_well_formed (e : SongEvent) : Prop :=
  0 ≤ track e ∧ 0 ≤ time e
  ∧ (∃ d, _data e = Some d)
  ∧ valid_event_args (type e) (_data e) (channel e)
  ∧ ∀ c, channel e = Some c → ∃ z, c = PyInt z ∧ 0 ≤ z ≤ 15.

(** The events of the track being read: tagged with its number, in
    non-decreasing order of time up to the running time, each well
    formed. *)
Definition track_well_formed (track_number : Z) (st : track_state) : Prop :=
  0 ≤ event_time st
  ∧ Forall (λ e, track e = track_number ∧ time e ≤ event_time st ∧ event_well_formed e)
      (events st)
  ∧ StronglySorted (λ a b, time a ≤ time b) (events st).

(** The events read so far when the chunk loop is at [track_number]. *)
Definition file_well_formed (track_number : Z) (events : list SongEvent) : Prop :=
  0 ≤ track_number
  ∧ Forall (λ e, track e < track_number ∧ event_well_formed e) events
  ∧ StronglySorted file_order events.

(** The constants of [midi/constants.py], in the order of the file. *)
Definition event_constants : list Z :=
  [Constants.NOTE_OFF_EVENT; Constants.NOTE_ON_EVENT;
   Constants.POLYPHONIC_KEY_PRESSURE_EVENT; Constants.CONTROLLER_CHANGE_EVENT;
   Constants.PROGRAM_CHANGE_EVENT; Constants.CHANNEL_KEY_PRESSURE_EVENT;
   Constants.PITCH_BEND_EVENT; Constants.F0_SYSEX_EVENT; Constants.F7_SYSEX_EVENT;
   Constants.META_EVENT].

(** The keys of the data dictionary the decoder builds for an event of
    each type; a META event has "meta_type" and the keys of its meta
    type. *)
Definition event_keys (t : EventType) : gset string :=
  match t with
  | NOTE_OFF | NOTE_ON => {["note"; "velocity"]}
  | POLYPHONIC_KEY_PRESSURE => {["note"; "pressure"]}
  | CONTROLLER_CHANGE => {["controller"; "value"]}
  | PROGRAM_CHANGE => {["program"]}
  | CHANNEL_KEY_PRESSURE => {["pressure"]}
  | PITCH_BEND => {["value"]}
  | F0_SYSEX | F7_SYSEX => {["bytes"]}
  | META => {["meta_type"]}
  end.

(** The keys the decoder adds for each meta type.  END_OF_TRACK and
    SEQUENCER_SPECIFIC get "bytes" when their payload is not empty. *)
Definition meta_keys (m : MetaType) : gset string :=
  match m with
  | SEQUENCE_NUMBER => {["number"]}
  | TEXT_EVENT | COPYRIGHT | TRACK_NAME | INSTRUMENT_NAME | LYRIC | MARKER
  | CUE_POINT | PROGRAM_NAME | DEVICE_NAME => {["text"]}
  | CHANNEL_PREFIX => {["channel"]}
  | PORT => {["port"]}
  | END_OF_TRACK | SEQUENCER_SPECIFIC => ∅
  | SET_TEMPO => {["bpm"]}
  | SMTPE_OFFSET => {["hours"; "minutes"; "seconds"; "frames"; "fractional_frames"]}
  | TIME_SIGNATURE =>
      {["numerator"; "denominator"; "midi_clocks_per_metronome_tick";
        "number_of_32nd_notes_per_beat"]}
  | KEY_SIGNATURE => {["key"]}
  end.

(** The data dictionary of a decoded event has the keys of its type. *)
Definition event_schema (e : SongEvent) : Prop :=
  ∃ d, _data e = Some d
       ∧ match type e with
         | META =>
             ∃ m, d !! "meta_type" = Some (PyMeta m)
                  ∧ (dom d = {["meta_type"]} ∪ meta_keys m
                     ∨ (m ∈ [END_OF_TRACK; SEQUENCER_SPECIFIC]
                        ∧ dom d = {["meta_type"; "bytes"]}))
         | t => dom d = event_keys t
         end.

(** *** Proof support *)

Ltac is_poslit p :=
  lazymatch p with
  | xH => idtac
  | xO ?q => is_poslit q
  | xI ?q => is_poslit q
  end.

Ltac is_Zlit z :=
  lazymatch z with
  | Z0 => idtac
  | Zpos ?p => is_poslit p
  | Zneg ?p => is_poslit p
  end.

Ltac is_boollit b := lazymatch b with true => idtac | false => idtac end.

(** Evaluate the closed arithmetic that [cbn] leaves alone. *)
Ltac ground_step :=
  match goal with
  | |- context [byte_value ?b] =>
      let v := eval vm_compute in (byte_value b) in
      is_Zlit v; change (byte_value b) with v
  | |- context [Z.land ?a ?b] =>
      is_Zlit a; is_Zlit b;
      let v := eval vm_compute in (Z.land a b) in change (Z.land a b) with v
  | |- context [Z.to_nat ?a] =>
      is_Zlit a;
      let v := eval vm_compute in (Z.to_nat a) in change (Z.to_nat a) with v
  | |- context [Z.eqb ?a ?b] =>
      is_Zlit a; is_Zlit b;
      let v := eval vm_compute in (Z.eqb a b) in change (Z.eqb a b) with v
  | |- context [@bool_decide ?P ?d] =>
      let v := eval vm_compute in (@bool_decide P d) in
      is_boollit v; change (@bool_decide P d) with v
  end.

Ltac ground := repeat (progress (repeat ground_step; cbn)).

(** Turn the binds of the reader monad into matches on results. *)
Ltac monad_unfold :=
  unfold mbind, M_bind, mret, M_ret, throw, lift, fp_seek, fp_read, fp_tell.

(** ** The ordering of song events *)

Section Ordering.

Lemma SongEvent_lt_key (a b : SongEvent) :
  SongEvent_lt a b = true ↔ key_lt (sort_key a) (sort_key b).
Proof.
  unfold SongEvent_lt, sort_key, key_lt.
  rewrite !Z.gtb_ltb.
  destruct (Z.ltb_spec (time a) (time b)); [intuition lia |].
  destruct (Z.ltb_spec (time b) (time a)); [intuition (try discriminate; lia) |].
  destruct (Z.ltb_spec (_EVENT_TYPE_ORDER (type a)) (_EVENT_TYPE_ORDER (type b)));
    [intuition lia |].
  destruct (Z.ltb_spec (_EVENT_TYPE_ORDER (type b)) (_EVENT_TYPE_ORDER (type a)));
    [intuition (try discriminate; lia) |].
  rewrite Z.ltb_lt. intuition lia.
Qed.

Lemma SongEvent_eq_key (a b : SongEvent) :
  SongEvent_eq a b = true ↔ sort_key a = sort_key b.
Proof.
  unfold SongEvent_eq, sort_key.
  destruct (Z.eqb_spec (time a) (time b)); simpl; [| split; [discriminate | congruence]].
  destruct (Z.eqb_spec (_EVENT_TYPE_ORDER (type a)) (_EVENT_TYPE_ORDER (type b)));
    simpl; [| split; [discriminate | congruence]].
  destruct (Z.eqb_spec (track a) (track b)); simpl;
    [split; congruence | split; [discriminate | congruence]].
Qed.

Lemma key_lt_trans (k1 k2 k3 : Z * Z * Z) :
  key_lt k1 k2 → key_lt k2 k3 → key_lt k1 k3.
Proof.
  destruct k1 as [[t1 p1] r1], k2 as [[t2 p2] r2], k3 as [[t3 p3] r3].
  unfold key_lt. lia.
Qed.

Lemma key_lt_asym (k1 k2 : Z * Z * Z) : key_lt k1 k2 → ¬ key_lt k2 k1.
Proof.
  destruct k1 as [[t1 p1] r1], k2 as [[t2 p2] r2].
  unfold key_lt. lia.
Qed.

Lemma SongEvent_lt_false (a b : SongEvent) :
  ¬ key_lt (sort_key a) (sort_key b) → SongEvent_lt a b = false.
Proof.
  intros Hno. destruct (SongEvent_lt a b) eqn:Hlt; [| reflexivity].
  apply SongEvent_lt_key in Hlt. destruct (Hno Hlt).
Qed.

(** C5: the comparison [SongEvent.__lt__] over the keys (time, event
    priority, track) is a strict order on all events: it is transitive,
    and no two events are each strictly less than the other. *)
Theorem SongEvent_lt_strict_order (a b c : SongEvent) :
  (SongEvent_lt a b = true → SongEvent_lt b c = true → SongEvent_lt a c = true)
  ∧ ¬ (SongEvent_lt a b = true ∧ SongEvent_lt b a = true).
Proof.
  split.
  - rewrite !SongEvent_lt_key. apply key_lt_trans.
  - rewrite !SongEvent_lt_key. intros [Hab Hba].
    exact (key_lt_asym _ _ Hab Hba).
Qed.

Lemma SongEvent_lt_strict_order_witness :
  SongEvent_lt (program_change_at 4 1) (note_off_at 4 0) = true
  ∧ SongEvent_lt (note_off_at 4 0) (note_on_at 4 0) = true
  ∧ SongEvent_lt (program_change_at 4 1) (note_on_at 4 0) = true
  ∧ ¬ (SongEvent_lt (program_change_at 4 1) (note_off_at 4 0) = true
       ∧ SongEvent_lt (note_off_at 4 0) (program_change_at 4 1) = true).
Proof.
  pose proof (SongEvent_lt_strict_order
                (program_change_at 4 1) (note_off_at 4 0) (note_on_at 4 0))
    as [Htrans Hasym].
  split; [reflexivity |].
  split; [reflexivity |].
  split; [apply Htrans; reflexivity | exact Hasym].
Defined.

(** C6: at one timestamp a program change, controller change, pitch bend
    or note-off compares strictly before a note-on; in particular a
    NOTE_OFF and a NOTE_ON of equal time and track. *)
Theorem before_note_on (a b : SongEvent) :
  time a = time b →
  type a ∈ [PROGRAM_CHANGE; CONTROLLER_CHANGE; PITCH_BEND; NOTE_OFF] →
  type b = NOTE_ON →
  SongEvent_lt a b = true ∧ SongEvent_lt b a = false ∧ SongEvent_eq a b = false.
Proof.
  intros Htime Ha Hb.
  assert (Hprio : _EVENT_TYPE_ORDER (type a) < _EVENT_TYPE_ORDER (type b)).
  { rewrite Hb. set_unfold in Ha.
    destruct Ha as [-> | [-> | [-> | [-> | []]]]]; simpl; lia. }
  split; [apply SongEvent_lt_key; unfold key_lt, sort_key; lia |].
  split; [apply SongEvent_lt_false; unfold key_lt, sort_key; lia |].
  destruct (SongEvent_eq a b) eqn:Heq; [| reflexivity].
  apply SongEvent_eq_key in Heq. unfold sort_key in Heq.
  injection Heq as _ Hp _. lia.
Qed.

Lemma before_note_on_witness :
  SongEvent_lt (note_off_at 4 0) (note_on_at 4 0) = true
  ∧ SongEvent_lt (note_on_at 4 0) (note_off_at 4 0) = false
  ∧ SongEvent_eq (note_off_at 4 0) (note_on_at 4 0) = false.
Proof.
  apply (before_note_on (note_off_at 4 0) (note_on_at 4 0)).
  - reflexivity.
  - simpl. set_solver.
  - reflexivity.
Defined.

(** C10: two events of equal time and track whose types have the same
    priority compare equal, and neither is strictly less than the other,
    whatever their channels and data. *)
Theorem same_priority_indistinguishable (a b : SongEvent) :
  time a = time b →
  track a = track b →
  _EVENT_TYPE_ORDER (type a) = _EVENT_TYPE_ORDER (type b) →
  SongEvent_eq a b = true ∧ SongEvent_lt a b = false ∧ SongEvent_lt b a = false.
Proof.
  intros Htime Htrack Hprio.
  split; [apply SongEvent_eq_key; unfold sort_key; congruence |].
  split; apply SongEvent_lt_false; unfold key_lt, sort_key; lia.
Qed.

Lemma same_priority_indistinguishable_witness :
  type (program_change_at 4 0) ≠ type (end_of_track_at 4 0)
  ∧ channel (program_change_at 4 0) ≠ channel (end_of_track_at 4 0)
  ∧ SongEvent_eq (program_change_at 4 0) (end_of_track_at 4 0) = true
  ∧ SongEvent_lt (program_change_at 4 0) (end_of_track_at 4 0) = false
  ∧ SongEvent_lt (end_of_track_at 4 0) (program_change_at 4 0) = false.
Proof.
  split; [discriminate |]. split; [discriminate |].
  apply (same_priority_indistinguishable (program_change_at 4 0) (end_of_track_at 4 0));
    reflexivity.
Defined.

End Ordering.

(** ** The constructor of song events *)

Section Construction.

(** A META event given a channel is refused by the channel test, before
    the data is looked at. *)
Lemma SongEvent_init_meta_channel (track time : Z) data (c : pyobj) :
  SongEvent_init track time META data (Some c)
  = Raise (ValueError "Channel must be None for {event_type} events.").
Proof. reflexivity. Qed.

Lemma SongEvent_init_meta (track time : Z) (d : gmap string pyobj) (v : pyobj) :
  d !! "meta_type" = Some v →
  SongEvent_init track time META (Some d) None
  = Ok (mkSongEvent track time META (Some d) None).
Proof.
  intros Hd. unfold SongEvent_init, not_in. cbn.
  rewrite bool_decide_eq_false_2; [reflexivity | congruence].
Qed.

(** C9: constructing a META event without a data mapping fails, and not
    with the [ValueError] the constructor raises for a broken invariant
    (as it does for a mapping that lacks 'meta_type'): the membership test
    of the 'meta_type' check raises [TypeError] on [None]. *)
Theorem SongEvent_init_meta_no_data (track time : Z) :
  SongEvent_init track time META None None
  = Raise (TypeError "argument of type 'NoneType' is not iterable")
  ∧ ∀ d : gmap string pyobj,
      d !! "meta_type" = None →
      SongEvent_init track time META (Some d) None
      = Raise (ValueError "{event_type} events must have a 'meta_type' data entry.").
Proof.
  split; [reflexivity |].
  intros d Hd. unfold SongEvent_init, not_in. cbn.
  rewrite bool_decide_eq_true_2 by exact Hd. reflexivity.
Qed.

Lemma SongEvent_init_meta_no_data_witness :
  SongEvent_init 0 0 META None None
  = Raise (TypeError "argument of type 'NoneType' is not iterable")
  ∧ SongEvent_init 0 0 META (Some {["text" := PyBytes []]}) None
    = Raise (ValueError "{event_type} events must have a 'meta_type' data entry.").
Proof.
  destruct (SongEvent_init_meta_no_data 0 0) as [Hnone Hsome].
  split; [exact Hnone |].
  apply Hsome. reflexivity.
Defined.

End Construction.

(** ** Termination

    Every loop of the model runs under a bound taken from the number of
    bytes ahead.  The bounds are never used up: each iteration takes at
    least one byte off the stream.  So a result of the model is a reader or
    a Python exception, as for the code. *)

Section Advances.

Context {A B : Type}.

Lemma advances_weaken (z z' : Z) (m : M A) :
  z' ≤ z → advances z m → advances z' m.
Proof.
  intros Hz Hm f. destruct (Hm f) as [Hno Hok]. split; [exact Hno |].
  intros a f' Hrun. specialize (Hok a f' Hrun). lia.
Qed.

Lemma advances_ret (a : A) : advances 0 (mret a : M A).
Proof.
  intros f. split; [intros [] |].
  intros a' f' [= _ <-]. lia.
Qed.

Lemma advances_throw (z : Z) (e : exn) :
  ¬ out_of_fuel (@Raise A e) → advances z (throw e : M A).
Proof.
  intros He f. split; [destruct e; cbn in *; tauto | discriminate].
Qed.

Lemma advances_lift (r : result A) : ¬ out_of_fuel r → advances 0 (lift r).
Proof.
  intros Hr f. unfold lift. destruct r as [e | a].
  - split; [destruct e; cbn in *; tauto | discriminate].
  - split; [intros [] |]. intros a' f' [= _ <-]. lia.
Qed.

Lemma advances_bind (z1 z2 : Z) (m : M A) (k : A → M B) :
  advances z1 m → (∀ a, advances z2 (k a)) → advances (z1 + z2) (m ≫= k).
Proof.
  intros Hm Hk f. unfold mbind, M_bind.
  destruct (Hm f) as [Hno Hok].
  destruct (m f) as [e | [a f1]].
  - split; [destruct e; cbn in *; tauto | discriminate].
  - specialize (Hok a f1 eq_refl).
    destruct (Hk a f1) as [Hno' Hok'].
    split; [exact Hno' |].
    intros b f' Hrun. specialize (Hok' b f' Hrun). lia.
Qed.

Lemma steady_bind (m : M A) (k : A → M B) :
  advances 0 m → (∀ a, advances 0 (k a)) → advances 0 (m ≫= k).
Proof. intros Hm Hk. exact (advances_bind 0 0 m k Hm Hk). Qed.

Lemma advances_if (z : Z) (c : bool) (m1 m2 : M A) :
  advances z m1 → advances z m2 → advances z (if c then m1 else m2).
Proof. destruct c; auto. Qed.

End Advances.

Lemma advances_read (n : Z) : advances 0 (fp_read n).
Proof.
  intros f. split; [intros [] |].
  intros a f' [= _ <-]. unfold remaining. cbn.
  rewrite length_drop. destruct (n <? 0); lia.
Qed.

Lemma advances_tell : advances 0 fp_tell.
Proof.
  intros f. split; [intros [] |]. intros a f' [= _ <-]. lia.
Qed.

Lemma advances_u8 : advances 1 _u8.
Proof.
  intros [bk [| b rest] ov]; (split; [intros [] |]).
  - discriminate.
  - intros a f' Hrun. change (_u8 (mkFile bk (b :: rest) ov))
      with (Ok (byte_value b, mkFile (b :: bk) rest ov)) in Hrun.
    injection Hrun as _ <-. unfold remaining. cbn [ahead length].
    lia.
Qed.

Lemma steady_u8 : advances 0 _u8.
Proof. apply (advances_weaken 1); [lia | apply advances_u8]. Qed.

Lemma unread_length (k : nat) :
  ∀ bs ah bs' ah', unread k bs ah = Some (bs', ah') →
                   length ah' = (length ah + k)%nat.
Proof.
  induction k as [| k IH]; intros bs ah bs' ah' H; simpl in H.
  - injection H as <- <-. lia.
  - destruct bs as [| b bs]; [discriminate |].
    apply IH in H. simpl in H. lia.
Qed.

(** Seeking moves the position by at most the offset. *)
Lemma advances_seek (offset : Z) : advances (Z.min offset 0) (fp_seek offset).
Proof.
  intros f. unfold fp_seek, seek_cur.
  destruct (Z.leb_spec 0 offset).
  - split; [intros [] |]. intros a f' [= _ <-]. unfold remaining. cbn.
    rewrite length_drop. lia.
  - cbv zeta. destruct (N.leb_spec (Z.to_N (- offset)) (beyond f)).
    + split; [intros [] |]. intros a f' [= _ <-]. unfold remaining. cbn. lia.
    + destruct (unread _ _ _) as [[bs ah] |] eqn:Hun.
      * split; [intros [] |]. intros a f' [= _ <-]. unfold remaining. cbn.
        apply unread_length in Hun. lia.
      * split; [intros [] | discriminate].
Qed.

Lemma _read_var_length_loop_advances (fuel : nat) :
  ∀ len b f, remaining f < Z.of_nat fuel →
    ¬ out_of_fuel (_read_var_length_loop fuel len b f)
    ∧ ∀ a f', _read_var_length_loop fuel len b f = Ok (a, f') →
              remaining f' ≤ remaining f.
Proof.
  induction fuel as [| fuel IH]; intros len b f Hfuel.
  - unfold remaining in Hfuel. lia.
  - simpl. destruct (Z.land b 128 =? 0); simpl.
    + split; [intros [] |]. intros a f' [= _ <-]. lia.
    + unfold mbind, M_bind.
      destruct (advances_u8 f) as [Hno Hok].
      destruct (_u8 f) as [e | [b' f1]].
      * split; [exact Hno | discriminate].
      * specialize (Hok b' f1 eq_refl).
        destruct (IH (len * 128 + Z.land b 127) b' f1) as [Hno' Hok']; [lia |].
        split; [exact Hno' |].
        intros a f' Hrun. specialize (Hok' a f' Hrun). lia.
Qed.

Lemma advances_read_var_length : advances 1 _read_var_length.
Proof.
  intros f. unfold _read_var_length, mbind, M_bind.
  destruct (advances_u8 f) as [Hno Hok].
  destruct (_u8 f) as [e | [b f1]].
  - split; [exact Hno | discriminate].
  - specialize (Hok b f1 eq_refl).
    destruct (_read_var_length_loop_advances (length (ahead f)) 0 b f1) as [Hno' Hok'].
    { unfold remaining in *. lia. }
    split; [exact Hno' |].
    intros a f' Hrun. specialize (Hok' a f' Hrun). lia.
Qed.

Lemma steady_read_var_length : advances 0 _read_var_length.
Proof. apply (advances_weaken 1); [lia | apply advances_read_var_length]. Qed.

Lemma steady_u8_times (n : nat) : advances 0 (_u8_times n).
Proof.
  induction n as [| n IH]; simpl; [apply advances_ret |].
  apply steady_bind; [apply steady_u8 | intros b].
  apply steady_bind; [exact IH | intros bs]. apply advances_ret.
Qed.

Lemma steady_u8_list (n : Z) : advances 0 (_u8_list n).
Proof. apply steady_u8_times. Qed.

(** The pure helpers raise Python exceptions only. *)
Lemma enum_call_python {E} (value : E → Z) (members : list E) (name : string) (v : Z) :
  ¬ out_of_fuel (enum_call value members name v).
Proof. unfold enum_call. destruct (find _ _); intros []. Qed.

Lemma SongEvent_init_python (track time : Z) (t : EventType)
    (data : option (gmap string pyobj)) (channel : option pyobj) :
  ¬ out_of_fuel (SongEvent_init track time t data channel).
Proof.
  unfold SongEvent_init, not_in.
  destruct t, channel as [[] |], data as [d |]; cbn; try (intros []);
    destruct (bool_decide _); intros [].
Qed.

Lemma get_key_signature_python (sharps_flats major_minor : Z) :
  ¬ out_of_fuel (get_key_signature sharps_flats major_minor).
Proof.
  unfold get_key_signature, list_getitem. cbv zeta.
  destruct (_ || _); [intros [] |]. destruct (_ !! _); intros [].
Qed.

Lemma u8_python (c : list byte) : ¬ out_of_fuel (u8 c).
Proof. destruct c as [| ? [| ? ?]]; intros []. Qed.

Lemma u16be_python (c : list byte) : ¬ out_of_fuel (u16be c).
Proof. destruct c as [| ? [| ? [| ? ?]]]; intros []. Qed.

Lemma u32be_python (c : list byte) : ¬ out_of_fuel (u32be c).
Proof. destruct c as [| ? [| ? [| ? [| ? [| ? ?]]]]]; intros []. Qed.

Lemma unpack_bB_python (c : list byte) : ¬ out_of_fuel (unpack_bB c).
Proof. destruct c as [| ? [| ? [| ? ?]]]; intros []. Qed.

Create HintDb steady discriminated.

#[local] Hint Resolve advances_ret advances_read advances_tell steady_u8
  steady_read_var_length steady_u8_list advances_lift enum_call_python
  SongEvent_init_python get_key_signature_python u8_python u16be_python
  u32be_python unpack_bB_python : steady.

Ltac steady_step :=
  first
    [ apply steady_bind; [| intros ?]
    | apply advances_if
    | apply advances_throw; intros []
    | match goal with |- advances _ (let '(_, _) := ?p in _) => destruct p end
    | solve [eauto with steady] ].

Ltac steady := repeat steady_step.

Lemma steady_read_meta_data (meta_type : MetaType) (data_length : Z)
    (event_data : gmap string pyobj) :
  advances 0 (read_meta_data meta_type data_length event_data).
Proof. unfold read_meta_data. steady. Qed.

Lemma steady_read_channel_data (event_type : Z) :
  advances 0 (read_channel_data event_type).
Proof. unfold read_channel_data, ControllerType_call. steady. Qed.

Lemma advances_running_status (event_type : Z) (st : track_state) :
  advances (-1)
    (if Z.land event_type 0x80 =? 0 then
       _ ← fp_seek (-1);
       match running_status st with
       | None =>
           throw (ValueError
                    "Expected a running status, but it was None at pos {self.fp.tell()}.")
       | Some status => mret (status, running_status st)
       end
     else mret (event_type, None)).
Proof.
  apply advances_if.
  - apply (advances_bind (-1) 0); [apply (advances_seek (-1)) | intros _].
    destruct (running_status st); steady.
  - apply (advances_weaken 0); [lia | steady].
Qed.

(** Reading one event takes at least one byte off the stream. *)
Lemma advances_read_event (track_number : Z) (st : track_state) :
  advances 1 (read_event track_number st).
Proof.
  unfold read_event.
  apply (advances_bind 1 0); [apply advances_read_var_length | intros delta_time].
  apply (advances_bind 1 (-1)); [apply advances_u8 | intros event_type].
  apply (advances_bind (-1) 0); [apply advances_running_status | intros [status rs]].
  unfold MetaType_call, EventType_call.
  pose proof steady_read_meta_data. pose proof steady_read_channel_data.
  steady.
Qed.

Lemma _read_events_loop_S (fuel : nat) (chunk_end track_number : Z)
    (st : track_state) (f : file) :
  _read_events_loop (S fuel) chunk_end track_number st f
  = if tell f <? chunk_end then
      match read_event track_number st f with
      | inl e => inl e
      | inr (st1, f1) => _read_events_loop fuel chunk_end track_number st1 f1
      end
    else Ok (events st, f).
Proof. cbn. unfold mbind, M_bind, fp_tell, Ok. destruct (tell f <? chunk_end); reflexivity. Qed.

Lemma _read_events_loop_advances (fuel : nat) (chunk_end track_number : Z) :
  ∀ st f, remaining f < Z.of_nat fuel →
    ¬ out_of_fuel (_read_events_loop fuel chunk_end track_number st f)
    ∧ ∀ a f', _read_events_loop fuel chunk_end track_number st f = Ok (a, f') →
              remaining f' ≤ remaining f.
Proof.
  induction fuel as [| fuel IH]; intros st f Hfuel.
  - unfold remaining in Hfuel. lia.
  - rewrite _read_events_loop_S.
    destruct (tell f <? chunk_end).
    + destruct (advances_read_event track_number st f) as [Hno Hok].
      destruct (read_event track_number st f) as [e | [st1 f1]].
      * split; [exact Hno | discriminate].
      * specialize (Hok st1 f1 eq_refl).
        destruct (IH st1 f1) as [Hno' Hok']; [lia |].
        split; [exact Hno' |].
        intros a f' Hrun. specialize (Hok' a f' Hrun). lia.
    + split; [intros [] |]. intros a f' [= _ <-]. lia.
Qed.

Lemma steady_read_events (chunk_length track_number : Z) :
  advances 0 (_read_events chunk_length track_number).
Proof.
  intros f. unfold _read_events, mbind, M_bind, fp_tell. cbn beta iota.
  destruct (_read_events_loop_advances (S (length (ahead f))) (tell f + chunk_length)
              track_number (mkTrackState None 0 []) f) as [Hno Hok].
  { unfold remaining. lia. }
  split; [exact Hno |]. intros a f' Hrun. specialize (Hok a f' Hrun). lia.
Qed.

Lemma read_remaining (n : Z) (f f' : file) (data : list byte) :
  File.read n f = (data, f') →
  remaining f' + Z.of_nat (length data) ≤ remaining f.
Proof.
  unfold File.read. intros [= <- <-]. unfold remaining. cbn [ahead].
  rewrite length_take, length_drop. lia.
Qed.

Lemma unpack_chunk_header_eq (f : file) :
  unpack_chunk_header f
  = let (chunk_name, f1) := File.read 4 f in
    match chunk_name with
    | [] => Raise (TypeError "cannot unpack non-iterable NoneType object")
    | _ :: _ =>
        let (c, f2) := File.read 4 f1 in
        match u32be c with
        | inl e => inl e
        | inr chunk_length => Ok ((chunk_name, chunk_length), f2)
        end
    end.
Proof.
  unfold unpack_chunk_header, _read_chunk_header, mbind, M_bind, fp_read, Ok.
  destruct (File.read 4 f) as [[| b chunk_name] f1]; [reflexivity |].
  destruct (File.read 4 f1) as [c f2]. unfold lift.
  destruct (u32be c); reflexivity.
Qed.

(** A chunk header that is there takes at least one byte. *)
Lemma advances_unpack_chunk_header : advances 1 unpack_chunk_header.
Proof.
  intros f. rewrite unpack_chunk_header_eq.
  destruct (File.read 4 f) as [chunk_name f1] eqn:Hread.
  apply read_remaining in Hread.
  destruct chunk_name as [| b chunk_name]; [split; [intros [] | discriminate] |].
  destruct (File.read 4 f1) as [c f2] eqn:Hread2.
  apply read_remaining in Hread2.
  pose proof (u32be_python c) as Hp.
  destruct (u32be c) as [e | n]; [split; [exact Hp | discriminate] |].
  split; [intros [] |]. intros a f' [= _ <-]. cbn [length] in Hread. lia.
Qed.

Lemma byte_value_nonneg (b : byte) : 0 ≤ byte_value b.
Proof. unfold byte_value. lia. Qed.

Lemma u32be_nonneg (c : list byte) (n : Z) : u32be c = Ok n → 0 ≤ n.
Proof.
  destruct c as [| b0 [| b1 [| b2 [| b3 [| ? ?]]]]]; try discriminate.
  intros [= <-].
  pose proof (byte_value_nonneg b0). pose proof (byte_value_nonneg b1).
  pose proof (byte_value_nonneg b2). pose proof (byte_value_nonneg b3). lia.
Qed.

Lemma unpack_chunk_header_nonneg (f f' : file) (chunk_name : list byte) (n : Z) :
  unpack_chunk_header f = Ok ((chunk_name, n), f') → 0 ≤ n.
Proof.
  rewrite unpack_chunk_header_eq.
  destruct (File.read 4 f) as [[| b name] f1]; [discriminate |].
  destruct (File.read 4 f1) as [c f2].
  destruct (u32be c) as [e | m] eqn:Hm; [discriminate |].
  intros [= _ <- _]. exact (u32be_nonneg c m Hm).
Qed.

(** A bind whose continuation relies on a property of the value. *)
Lemma advances_bind_post {A B} (P : A → Prop) (z1 z2 : Z) (m : M A) (k : A → M B) :
  advances z1 m →
  (∀ f a f', m f = Ok (a, f') → P a) →
  (∀ a, P a → advances z2 (k a)) →
  advances (z1 + z2) (m ≫= k).
Proof.
  intros Hm HP Hk f. unfold mbind, M_bind.
  destruct (Hm f) as [Hno Hok]. specialize (HP f).
  destruct (m f) as [e | [a f1]].
  - split; [destruct e; cbn in *; tauto | discriminate].
  - specialize (Hok a f1 eq_refl).
    destruct (Hk a (HP a f1 eq_refl) f1) as [Hno' Hok'].
    split; [exact Hno' |].
    intros b f' Hrun. specialize (Hok' b f' Hrun). lia.
Qed.

(** Reading or skipping a chunk takes at least one byte. *)
Lemma advances_read_chunk (track_number : Z) (events : list SongEvent) :
  advances 1 (read_chunk track_number events).
Proof.
  unfold read_chunk.
  apply (advances_bind_post (λ p, 0 ≤ p.2) 1 0).
  - apply advances_unpack_chunk_header.
  - intros f [chunk_name chunk_length] f' Hhdr.
    exact (unpack_chunk_header_nonneg _ _ _ _ Hhdr).
  - intros [chunk_name chunk_length] Hlen. cbn in Hlen. apply advances_if.
    + apply steady_bind; [| intros _; steady].
      apply (advances_weaken (Z.min chunk_length 0)); [lia | apply advances_seek].
    + apply steady_bind; [apply steady_read_events | intros ?; steady].
Qed.

Lemma _open_loop_python (fuel : nat) :
  ∀ track_number events f,
    remaining f ≤ Z.of_nat fuel →
    ¬ out_of_fuel (_open_loop fuel track_number events f).
Proof.
  induction fuel as [| fuel IH]; intros track_number events f Hfuel; simpl.
  - destruct (advances_read_chunk track_number events f) as [Hno Hok].
    destruct (read_chunk track_number events f) as [e | [events1 f1]].
    + destruct (is_TypeError e) eqn:He; [intros [] | exact Hno].
    + specialize (Hok _ _ eq_refl). unfold remaining in *. lia.
  - destruct (advances_read_chunk track_number events f) as [Hno Hok].
    destruct (read_chunk track_number events f) as [e | [events1 f1]].
    + destruct (is_TypeError e) eqn:He; [intros [] | exact Hno].
    + specialize (Hok _ _ eq_refl). apply IH. lia.
Qed.

Lemma unpack_HHH_python (c : list byte) : ¬ out_of_fuel (unpack_HHH c).
Proof. destruct c as [| ? [| ? [| ? [| ? [| ? [| ? [| ? ?]]]]]]]; intros []. Qed.

(** Termination: the loops of the decoder never use up their bounds, so
    opening a stream ends with a reader or with a Python exception. *)
Theorem _open_terminates (f : file) : ¬ out_of_fuel (_open f).
Proof.
  unfold _open.
  destruct (advances_unpack_chunk_header f) as [Hno _].
  destruct (unpack_chunk_header f) as [e | [[chunk_name chunk_length] f1]];
    [exact Hno |].
  destruct (negb _); [intros [] |].
  destruct (negb _); [intros [] |].
  destruct (File.read 6 f1) as [c f2].
  pose proof (unpack_HHH_python c) as Hp.
  destruct (unpack_HHH c) as [e | [[file_format num_tracks] division]]; [exact Hp |].
  destruct (negb _); [intros [] |].
  pose proof (_open_loop_python (length (ahead f2)) 0 [] f2) as Hloop.
  destruct (_open_loop _ _ _ _) as [e | events]; [| intros []].
  apply Hloop. unfold remaining. lia.
Qed.

(** ** Invariants of the event loop *)

Section Inversion.

Context {A B : Type}.

Lemma bind_inv (m : M A) (k : A → M B) (f : file) (r : B * file) :
  (m ≫= k) f = Ok r → ∃ a f1, m f = Ok (a, f1) ∧ k a f1 = Ok r.
Proof.
  unfold mbind, M_bind. destruct (m f) as [e | [a f1]]; [discriminate |].
  intros H. exists a, f1. split; [reflexivity | exact H].
Qed.

Lemma lift_inv (r : result A) (f f' : file) (a : A) :
  lift r f = Ok (a, f') → r = Ok a ∧ f' = f.
Proof. unfold lift. destruct r; [discriminate |]. intros [= <- <-]. split; reflexivity. Qed.

Lemma mret_inv (a a' : A) (f f' : file) :
  (mret a : M A) f = Ok (a', f') → a' = a ∧ f' = f.
Proof. intros [= <- <-]. split; reflexivity. Qed.

End Inversion.

Lemma SongEvent_init_inv (track time : Z) (t : EventType)
    (data : option (gmap string pyobj)) (channel : option pyobj) (e : SongEvent) :
  SongEvent_init track time t data channel = Ok e →
  e = mkSongEvent track time t data channel.
Proof.
  unfold SongEvent_init, not_in.
  destruct t, channel as [[] |], data as [d |]; cbn; try discriminate;
    try (intros [= <-]; reflexivity);
    destruct (bool_decide _); try discriminate; intros [= <-]; reflexivity.
Qed.

Lemma _u8_nonneg (f f' : file) (b : Z) : _u8 f = Ok (b, f') → 0 ≤ b.
Proof.
  intros H. apply bind_inv in H as (c & f1 & _ & H).
  apply lift_inv in H as [H _].
  destruct c as [| b0 [| ? ?]]; try discriminate.
  injection H as <-. apply byte_value_nonneg.
Qed.

Lemma land_nonneg_l (a b : Z) : 0 ≤ a → 0 ≤ Z.land a b.
Proof. intros Ha. apply Z.land_nonneg. left. exact Ha. Qed.

Lemma _read_var_length_loop_nonneg (fuel : nat) :
  ∀ len b f v f', 0 ≤ len → 0 ≤ b →
    _read_var_length_loop fuel len b f = Ok (v, f') → 0 ≤ v.
Proof.
  induction fuel as [| fuel IH]; intros len b f v f' Hlen Hb; simpl.
  - destruct (Z.land b 128 =? 0); simpl; [| discriminate].
    intros [= <- _]. lia.
  - destruct (Z.land b 128 =? 0); simpl.
    + intros [= <- _]. lia.
    + intros H. apply bind_inv in H as (b' & f1 & Hb' & H).
      apply _u8_nonneg in Hb'.
      apply (IH _ _ _ _ _) in H; [exact H | | exact Hb'].
      pose proof (land_nonneg_l b 127 Hb). lia.
Qed.

(** A delta time is never negative. *)
Lemma _read_var_length_nonneg (f f' : file) (v : Z) :
  _read_var_length f = Ok (v, f') → 0 ≤ v.
Proof.
  unfold _read_var_length. intros H.
  apply bind_inv in H as (b & f1 & Hb & H).
  apply _u8_nonneg in Hb.
  exact (_read_var_length_loop_nonneg _ _ _ _ _ _ (Z.le_refl 0) Hb H).
Qed.

(** What one iteration of the event loop does to its state: one event is
    appended; it carries the track number of the chunk and the running
    time, which has not gone back. *)
Lemma read_event_inv (track_number : Z) (st st' : track_state) (f f' : file) :
  read_event track_number st f = Ok (st', f') →
  ∃ e, events st' = events st ++ [e]
       ∧ track e = track_number
       ∧ time e = event_time st'
       ∧ event_time st ≤ event_time st'.
Proof.
  unfold read_event. intros H.
  apply bind_inv in H as (delta_time & f1 & Hdelta & H).
  apply _read_var_length_nonneg in Hdelta.
  apply bind_inv in H as (event_type & f2 & _ & H).
  apply bind_inv in H as ([status rs] & f3 & _ & H).
  apply bind_inv in H as ([[[ty data] ch] rs'] & f4 & _ & H).
  apply bind_inv in H as (ty' & f5 & _ & H).
  apply bind_inv in H as (event & f6 & Hinit & H).
  apply lift_inv in Hinit as [Hinit _]. apply SongEvent_init_inv in Hinit.
  apply mret_inv in H as [-> _]. subst event. cbn.
  exists (mkSongEvent track_number (event_time st + delta_time) ty' (Some data) ch).
  repeat split. lia.
Qed.

Lemma StronglySorted_snoc {X} (R : X → X → Prop) (l : list X) (x : X) :
  StronglySorted R l → Forall (λ y, R y x) l →
  StronglySorted R (l ++ [x]).
Proof.
  induction 1 as [| y l Hs IH Hy]; intros Hall; simpl.
  - repeat constructor.
  - inversion Hall as [| ? ? Hyx Hl]; subst. constructor; [apply IH, Hl |].
    apply Forall_app. split; [exact Hy | constructor; [exact Hyx | constructor]].
Qed.

Lemma read_event_invariant (track_number : Z) (st st' : track_state) (f f' : file) :
  track_invariant track_number st →
  read_event track_number st f = Ok (st', f') →
  track_invariant track_number st'.
Proof.
  intros [Hall Hsorted] H. unfold track_invariant.
  apply read_event_inv in H as (e & -> & Htrack & Htime & Hle).
  split.
  - apply Forall_app. split.
    + eapply Forall_impl; [exact Hall |]. intros x [Hx1 Hx2]. cbn. split; [exact Hx1 | lia].
    + constructor; [split; [exact Htrack | lia] | constructor].
  - apply StronglySorted_snoc; [exact Hsorted |].
    eapply Forall_impl; [exact Hall |]. intros x [_ Hx]. cbn in *. lia.
Qed.

Lemma _read_events_loop_invariant (fuel : nat) (chunk_end track_number : Z) :
  ∀ st f evs f',
    track_invariant track_number st →
    _read_events_loop fuel chunk_end track_number st f = Ok (evs, f') →
    Forall (λ e, track e = track_number) evs
    ∧ StronglySorted (λ a b, time a ≤ time b) evs.
Proof.
  induction fuel as [| fuel IH]; intros st f evs f' Hinv.
  - simpl. unfold mbind, M_bind, fp_tell. cbn.
    destruct (tell f <? chunk_end); [discriminate |].
    intros [= <- _]. destruct Hinv as [Hall Hs]. split; [| exact Hs].
    eapply Forall_impl; [exact Hall |]. intros x [Hx _]. exact Hx.
  - rewrite _read_events_loop_S.
    destruct (tell f <? chunk_end).
    + destruct (read_event track_number st f) as [e | [st1 f1]] eqn:Hev; [discriminate |].
      apply IH. exact (read_event_invariant _ _ _ _ _ Hinv Hev).
    + intros [= <- _]. destruct Hinv as [Hall Hs]. split; [| exact Hs].
      eapply Forall_impl; [exact Hall |]. intros x [Hx _]. exact Hx.
Qed.

(** The events [_read_events] returns carry the track number it was given
    and come in non-decreasing order of time. *)
Theorem _read_events_track_and_time (chunk_length track_number : Z)
    (f f' : file) (evs : list SongEvent) :
  _read_events chunk_length track_number f = Ok (evs, f') →
  Forall (λ e, track e = track_number) evs
  ∧ StronglySorted (λ a b, time a ≤ time b) evs.
Proof.
  unfold _read_events. intros H.
  apply bind_inv in H as (pos & f1 & Hpos & H).
  eapply _read_events_loop_invariant; [| exact H].
  split; constructor.
Qed.

(** What reading one chunk adds: the events of an MTrk chunk, tagged with
    the current track number; nothing for a chunk of another tag. *)
Lemma read_chunk_inv (track_number : Z) (events events' : list SongEvent)
    (f f' : file) :
  read_chunk track_number events f = Ok (events', f') →
  ∃ new, events' = events ++ new ∧ Forall (λ e, track e = track_number) new.
Proof.
  unfold read_chunk. intros H.
  apply bind_inv in H as ([chunk_name chunk_length] & f1 & _ & H).
  destruct (negb _).
  - apply bind_inv in H as ([] & f2 & _ & H). apply mret_inv in H as [-> _].
    exists []. split; [symmetry; apply app_nil_r | constructor].
  - apply bind_inv in H as (new & f2 & Hnew & H). apply mret_inv in H as [-> _].
    exists new. split; [reflexivity |].
    exact (proj1 (_read_events_track_and_time _ _ _ _ _ Hnew)).
Qed.

(** The chunk loop moves on to the next track number after every chunk,
    whatever its tag. *)
Lemma _open_loop_S (fuel : nat) (track_number : Z) (events events' : list SongEvent)
    (f f' : file) :
  read_chunk track_number events f = Ok (events', f') →
  _open_loop (S fuel) track_number events f
  = _open_loop fuel (track_number + 1) events' f'.
Proof. intros H. simpl. rewrite H. reflexivity. Qed.

(** Skipping a chunk of a foreign tag adds no event and still uses up a
    track number. *)
Lemma foreign_chunk_takes_a_track_number (fuel : nat) (track_number : Z)
    (events : list SongEvent) (f f1 : file) (chunk_name : list byte)
    (chunk_length : Z) :
  unpack_chunk_header f = Ok ((chunk_name, chunk_length), f1) →
  chunk_name ≠ MTrk →
  ∃ f2, fp_seek chunk_length f1 = Ok (tt, f2)
        ∧ _open_loop (S fuel) track_number events f
          = _open_loop fuel (track_number + 1) events f2.
Proof.
  intros Hhdr Hname.
  pose proof (unpack_chunk_header_nonneg _ _ _ _ Hhdr) as Hlen.
  assert (Hseek : ∃ f2, fp_seek chunk_length f1 = Ok (tt, f2)).
  { unfold fp_seek, seek_cur. destruct (Z.leb_spec 0 chunk_length); [| lia].
    eexists. reflexivity. }
  destruct Hseek as [f2 Hseek]. exists f2. split; [exact Hseek |].
  apply _open_loop_S. unfold read_chunk, mbind, M_bind. rewrite Hhdr.
  unfold Ok at 1. cbn beta iota.
  rewrite bool_decide_eq_false_2 by exact Hname. cbn [negb].
  rewrite Hseek. reflexivity.
Qed.

(** ** Bytes and the reader monad *)

(** From here on the proofs step through the decoder by rewriting; the
    readers are not to be unfolded by simplification. *)
#[local] Arguments _read_var_length : simpl never.
#[local] Arguments _u8 : simpl never.
#[local] Arguments _u8_list : simpl never.
#[local] Arguments vlq_encode : simpl never.
#[local] Arguments dict_update : simpl never.
#[local] Arguments SongEvent_init : simpl never.
#[local] Arguments ControllerType_call : simpl never.
#[local] Arguments MetaType_call : simpl never.
#[local] Arguments Utils.clamp : simpl never.
#[local] Arguments File.read : simpl never.

Section Bytes.

Lemma byte_value_range (b : byte) : 0 ≤ byte_value b < 256.
Proof.
  unfold byte_value. pose proof (Byte.to_N_bounded b). lia.
Qed.

Lemma byte_value_of_Z (z : Z) : 0 ≤ z < 256 → byte_value (byte_of_Z z) = z.
Proof.
  intros Hz. unfold byte_value, byte_of_Z.
  destruct (Byte.of_N (Z.to_N z)) as [b |] eqn:Hb.
  - simpl. apply Byte.to_of_N in Hb. lia.
  - apply Byte.of_N_None_iff in Hb. lia.
Qed.

Lemma byte_value_in (b : byte) : In (byte_value b) byte_values.
Proof.
  pose proof (byte_value_range b).
  apply list_elem_of_In, list_elem_of_fmap. exists (Z.to_nat (byte_value b)).
  split; [lia |]. apply list_elem_of_In, in_seq. lia.
Qed.

Lemma land_high_bit (v : Z) :
  0 ≤ v < 256 → Z.land v 0x80 = if v <? 128 then 0 else 128.
Proof.
  intros Hv.
  assert (Hin : v ∈ byte_values).
  { apply list_elem_of_fmap. exists (Z.to_nat v). split; [lia |].
    apply list_elem_of_In, in_seq. lia. }
  clear Hv. revert v Hin. apply Forall_forall. vm_compute.
  repeat constructor.
Qed.

Lemma land_low_bits (v : Z) : 0 ≤ v → Z.land v 0x7f = v mod 128.
Proof.
  intros Hv. change 0x7f with (Z.ones 7). rewrite Z.land_ones by lia. reflexivity.
Qed.

Lemma rev_append_snoc {A} (l : list A) (x : A) (acc : list A) :
  rev_append (l ++ [x]) acc = x :: rev_append l acc.
Proof. rewrite !rev_append_rev, rev_app_distr. reflexivity. Qed.

Lemma rev_append_app {A} (l1 l2 acc : list A) :
  rev_append (l1 ++ l2) acc = rev_append l2 (rev_append l1 acc).
Proof. rewrite !rev_append_rev, rev_app_distr, app_assoc. reflexivity. Qed.

(** One byte read from a stream that has one. *)
Lemma _u8_cons (b : byte) (bk rest : list byte) (ov : N) :
  _u8 (mkFile bk (b :: rest) ov) = Ok (byte_value b, mkFile (b :: bk) rest ov).
Proof. reflexivity. Qed.

(** At the end of the stream [_u8] fails. *)
Lemma _u8_nil (bk : list byte) (ov : N) :
  _u8 (mkFile bk [] ov) = Raise ShortRead.
Proof. reflexivity. Qed.

Lemma read_two (a b : byte) (bk rest : list byte) (ov : N) :
  File.read 2 (mkFile bk (a :: b :: rest) ov) = ([a; b], mkFile (b :: a :: bk) rest ov).
Proof. reflexivity. Qed.

Lemma _u8_times_app (payload : list byte) :
  ∀ (bk rest : list byte) (ov : N),
    _u8_times (length payload) (mkFile bk (payload ++ rest) ov)
    = Ok (byte_value <$> payload, mkFile (rev_append payload bk) rest ov).
Proof.
  induction payload as [| b payload IH]; intros bk rest ov; [reflexivity |].
  cbn [length _u8_times app]. monad_unfold.
  rewrite _u8_cons. cbn. rewrite IH. reflexivity.
Qed.

Lemma _u8_list_app (payload bk rest : list byte) (ov : N) :
  _u8_list (Z.of_nat (length payload)) (mkFile bk (payload ++ rest) ov)
  = Ok (byte_value <$> payload, mkFile (rev_append payload bk) rest ov).
Proof. unfold _u8_list. rewrite Nat2Z.id. apply _u8_times_app. Qed.

(** A status byte of a channel voice message has its high bit set and is
    none of the tag bytes. *)
Lemma channel_status_facts (s : byte) :
  0x80 ≤ Z.land (byte_value s) 0xf0 ≤ 0xe0 →
  Z.land (byte_value s) 0x80 = 0x80
  ∧ bool_decide (byte_value s ∈ [EventType_value F0_SYSEX; EventType_value F7_SYSEX]) = false
  ∧ (byte_value s =? EventType_value META) = false.
Proof.
  destruct s; vm_compute; intros [H1 H2];
    first [ exfalso; apply H1; reflexivity
          | exfalso; apply H2; reflexivity
          | repeat split ].
Qed.

End Bytes.

(** ** Variable-length quantities *)

Section VarLength.

(** A continuation byte sends the loop round once more. *)
Lemma _read_var_length_loop_continue (fuel : nat) (len v : Z) :
  128 ≤ v < 256 →
  _read_var_length_loop (S fuel) len v
  = (b ← _u8; _read_var_length_loop fuel (len * 0x80 + (v - 128)) b).
Proof.
  intros Hv. simpl.
  rewrite land_high_bit by lia.
  destruct (Z.ltb_spec v 128); [lia |]. simpl.
  rewrite land_low_bits by lia.
  replace (v mod 128) with (v - 128); [reflexivity |].
  apply Z.mod_unique with 1; lia.
Qed.

(** A byte with a clear high bit ends it. *)
Lemma _read_var_length_loop_stop (fuel : nat) (len v : Z) (f : file) :
  0 ≤ v < 128 →
  _read_var_length_loop fuel len v f = Ok (len * 0x80 + v, f).
Proof.
  intros Hv. destruct fuel; simpl;
    rewrite land_high_bit by lia;
    destruct (Z.ltb_spec v 128); try lia; reflexivity.
Qed.

Lemma bind_Ok {A B} (m : M A) (k : A → M B) (f f' : file) (a : A) :
  m f = Ok (a, f') → (m ≫= k) f = k a f'.
Proof. intros H. unfold mbind, M_bind. rewrite H. reflexivity. Qed.

Lemma vlq_groups_bound (k : nat) (m : Z) :
  0 ≤ m < 128 ^ Z.of_nat (S k) → 0 ≤ m / 128 < 128 ^ Z.of_nat k.
Proof.
  intros [H0 H1]. rewrite Nat2Z.inj_succ, Z.pow_succ_r in H1 by lia.
  split; [apply Z.div_pos; lia | apply Z.div_lt_upper_bound; lia].
Qed.

(** Reading the continuation bytes of [m] brings the accumulated length
    from 0 to [m]. *)
Lemma read_vlq_groups (k : nat) :
  ∀ (m : Z) (tail : list byte) (fuel : nat) (bk : list byte) (ov : N),
    0 ≤ m < 128 ^ Z.of_nat k →
    (length (vlq_groups k m) ≤ fuel)%nat →
    (b ← _u8; _read_var_length_loop fuel 0 b)
      (mkFile bk (vlq_groups k m ++ tail) ov)
    = (b ← _u8; _read_var_length_loop (fuel - length (vlq_groups k m)) m b)
        (mkFile (rev_append (vlq_groups k m) bk) tail ov).
Proof.
  induction k as [| k IH]; intros m tail fuel bk ov Hm Hfuel.
  - simpl in *. replace m with 0 by lia. rewrite Nat.sub_0_r. reflexivity.
  - simpl in *. destruct (Z.eqb_spec m 0) as [-> | Hne].
    + simpl. rewrite Nat.sub_0_r. reflexivity.
    + rewrite length_app in *. simpl in Hfuel.
      rewrite <- app_assoc. simpl.
      rewrite (IH (m / 128)) by (try apply vlq_groups_bound; try lia; exact Hm).
      set (c := byte_of_Z (128 + m mod 128)).
      assert (Hc : byte_value c = 128 + m mod 128).
      { apply byte_value_of_Z. pose proof (Z.mod_pos_bound m 128). lia. }
      erewrite bind_Ok by apply _u8_cons.
      destruct (fuel - length (vlq_groups k (m / 128)))%nat as [| fuel'] eqn:Hf; [lia |].
      rewrite Hc, _read_var_length_loop_continue
        by (pose proof (Z.mod_pos_bound m 128); lia).
      rewrite rev_append_snoc.
      replace (m / 128 * 128 + (128 + m mod 128 - 128)) with m
        by (pose proof (Z.div_mod m 128); lia).
      replace (fuel - (length (vlq_groups k (m / 128)) + 1))%nat with fuel' by lia.
      reflexivity.
Qed.

(** The groups above the last byte of [n] fit the bound of [vlq_encode]. *)
Lemma vlq_fuel_enough (n : Z) :
  0 ≤ n → 0 ≤ n / 128 < 128 ^ Z.of_nat (Z.to_nat (Z.log2 n)).
Proof.
  intros Hn. pose proof (Z.log2_nonneg n) as HL.
  rewrite Z2Nat.id by lia.
  split; [apply Z.div_pos; lia |].
  destruct (Z.lt_ge_cases n 128) as [Hsmall | Hbig].
  - rewrite Z.div_small by lia. apply Z.pow_pos_nonneg; lia.
  - assert (H7 : 7 ≤ Z.log2 n).
    { change 7 with (Z.log2 128). apply Z.log2_le_mono. lia. }
    destruct (Z.log2_spec n) as [_ Hup]; [lia |].
    apply Z.div_lt_upper_bound; [lia |].
    eapply Z.lt_le_trans; [exact Hup |].
    change 128 with (2 ^ 7). rewrite <- Z.pow_mul_r, <- Z.pow_add_r by lia.
    apply Z.pow_le_mono_r; lia.
Qed.

(** A quantity below [128^j] has at most [j] continuation bytes. *)
Lemma vlq_groups_length (k : nat) :
  ∀ (j : nat) (m : Z), 0 ≤ m < 128 ^ Z.of_nat j → (length (vlq_groups k m) ≤ j)%nat.
Proof.
  induction k as [| k IH]; intros j m Hm; simpl; [lia |].
  destruct (Z.eqb_spec m 0) as [-> | Hne]; simpl; [lia |].
  destruct j as [| j]; [simpl in Hm; lia |].
  rewrite length_app. simpl.
  specialize (IH j (m / 128) (vlq_groups_bound j m Hm)). lia.
Qed.

(** Decoding the encoding of any quantity gives it back and leaves the
    stream after the encoding. *)
Lemma _read_var_length_encode (n : Z) (bk rest : list byte) (ov : N) :
  0 ≤ n →
  _read_var_length (mkFile bk (vlq_encode n ++ rest) ov)
  = Ok (n, mkFile (rev_append (vlq_encode n) bk) rest ov).
Proof.
  intros Hn. unfold _read_var_length, vlq_encode. cbn [ahead].
  rewrite <- app_assoc.
  rewrite read_vlq_groups.
  - cbn [app]. erewrite bind_Ok by apply _u8_cons.
    pose proof (Z.mod_pos_bound n 128).
    rewrite byte_value_of_Z by lia.
    rewrite _read_var_length_loop_stop by lia.
    rewrite rev_append_snoc.
    replace (n / 128 * 128 + n mod 128) with n
      by (pose proof (Z.div_mod n 128); lia).
    reflexivity.
  - apply vlq_fuel_enough, Hn.
  - rewrite !length_app.
    pose proof (vlq_groups_length (Z.to_nat (Z.log2 n)) _ _ (vlq_fuel_enough n Hn)).
    lia.
Qed.

(** The encoder on the examples of the Standard MIDI File format. *)
Example vlq_encode_examples :
  vlq_encode 0x00 = [x00] ∧ vlq_encode 0x40 = [x40] ∧ vlq_encode 0x7f = [x7f]
  ∧ vlq_encode 0x80 = [x81; x00] ∧ vlq_encode 0x2000 = [xc0; x00]
  ∧ vlq_encode 0x3fff = [xff; x7f] ∧ vlq_encode 0x4000 = [x81; x80; x00]
  ∧ vlq_encode 0x1fffff = [xff; xff; x7f]
  ∧ vlq_encode 0x200000 = [x81; x80; x80; x00]
  ∧ vlq_encode 0x0fffffff = [xff; xff; xff; x7f].
Proof. vm_compute. repeat split. Qed.

(** C7: for every integer n in [0, 0x0FFFFFFF], decoding the canonical
    variable-length encoding of n (at most four bytes) with
    [_read_var_length] yields n, and leaves the stream right after the
    encoding. *)
Theorem read_var_length_roundtrip (n : Z) (bk rest : list byte) (ov : N) :
  0 ≤ n ≤ 0x0FFFFFFF →
  _read_var_length (mkFile bk (vlq_encode n ++ rest) ov)
  = Ok (n, mkFile (rev_append (vlq_encode n) bk) rest ov)
  ∧ (1 ≤ length (vlq_encode n) ≤ 4)%nat.
Proof.
  intros [Hlo Hhi]. split; [apply _read_var_length_encode, Hlo |].
  unfold vlq_encode. rewrite length_app. simpl.
  assert (Hm : 0 ≤ n / 128 < 128 ^ Z.of_nat 3).
  { split; [apply Z.div_pos; lia | apply Z.div_lt_upper_bound; simpl; lia]. }
  pose proof (vlq_groups_length (Z.to_nat (Z.log2 n)) 3 _ Hm). lia.
Qed.

Lemma read_var_length_roundtrip_witness :
  0 ≤ 0x2000 ≤ 0x0FFFFFFF
  ∧ _read_var_length (File.of_bytes [xc0; x00; x90; x3c; x64])
    = Ok (0x2000, mkFile [x00; xc0] [x90; x3c; x64] 0%N).
Proof.
  split; [lia |].
  apply (read_var_length_roundtrip 0x2000 [] [x90; x3c; x64] 0%N). lia.
Defined.

End VarLength.

Ltac read_step :=
  first
    [ rewrite _read_var_length_encode by lia
    | rewrite _u8_cons ];
  ground.

(** ** Enumeration lookups *)

Section Enumerations.

Context {E : Type} (value : E → Z) (members : list E) (name : string).

Lemma enum_call_no_member (v : Z) :
  (∀ m, m ∈ members → value m ≠ v) →
  enum_call value members name v
  = Raise (ValueError (String.append "{value} is not a valid " name)).
Proof.
  intros Hno. unfold enum_call.
  destruct (find (λ m, value m =? v) members) as [m |] eqn:Hfind; [| reflexivity].
  apply find_some in Hfind as [Hin Heq].
  apply list_elem_of_In in Hin. apply Z.eqb_eq in Heq.
  destruct (Hno m Hin Heq).
Qed.

Lemma enum_call_Ok (v : Z) (m : E) :
  enum_call value members name v = Ok m → m ∈ members ∧ value m = v.
Proof.
  unfold enum_call.
  destruct (find (λ m, value m =? v) members) as [m' |] eqn:Hfind; [| discriminate].
  intros [= <-]. apply find_some in Hfind as [Hin Heq].
  split; [apply list_elem_of_In, Hin | apply Z.eqb_eq, Heq].
Qed.

End Enumerations.

Lemma ControllerType_call_value (c : ControllerType) :
  ControllerType_call (ControllerType_value c) = Ok c.
Proof. destruct c; reflexivity. Qed.

Lemma MetaType_call_value (m : MetaType) :
  MetaType_call (MetaType_value m) = Ok m.
Proof. destruct m; reflexivity. Qed.

Lemma undefined_controllers_no_member :
  Forall (λ n, ∀ c, ControllerType_value c ≠ n) undefined_controllers.
Proof.
  apply Forall_forall. intros n Hn c.
  assert (Hfind : find (λ m, ControllerType_value m =? n) ControllerType_members = None).
  { revert n Hn. apply Forall_forall. vm_compute. repeat constructor. }
  intros Heq.
  assert (Hc : ControllerType_call n = Ok c)
    by (rewrite <- Heq; apply ControllerType_call_value).
  unfold ControllerType_call, enum_call in Hc. rewrite Hfind in Hc. discriminate.
Qed.

(** ** Decoding one event *)

Section Decoding.

Variables (track : Z) (st : track_state) (bk rest : list byte) (ov : N).

(** The stream before an event: [bk] behind, the bytes of the event and
    then [rest] ahead. *)
Let stream (event : list byte) : file := mkFile bk (event ++ rest) ov.

(** The stream after it. *)
Let stream_after (event : list byte) : file := mkFile (rev_append event bk) rest ov.

(** The loop state after the event. *)
Let appended (status : option Z) (time : Z) (event : SongEvent) : track_state :=
  mkTrackState status time (events st ++ [event]).

Lemma pitch_bend_value_range (lsb msb : byte) :
  in_unit_range (pitch_bend_value (byte_value lsb) (byte_value msb)) = true.
Proof.
  assert (Hall : forallb (λ l, forallb (λ m, in_unit_range (pitch_bend_value l m))
                                 byte_values) byte_values = true)
    by (vm_compute; reflexivity).
  rewrite forallb_forall in Hall.
  specialize (Hall _ (byte_value_in lsb)). rewrite forallb_forall in Hall.
  exact (Hall _ (byte_value_in msb)).
Qed.

(** What the decoder computes for a pitch bend, [clamp] of the code
    included, is the specified value, for every pair of data bytes. *)
Lemma clamp_pitch_bend (lsb msb : byte) :
  Utils.clamp
    (PrimFloat.div (float_of_int (byte_value lsb + byte_value msb * 0x80 - 0x2000))
       (float_of_int 0x1fff))
    (-1)%float 1%float
  = pitch_bend_value (byte_value lsb) (byte_value msb).
Proof.
  assert (Hall : forallb
                   (λ l, forallb
                           (λ m, PrimFloat.Leibniz.eqb
                                   (Utils.clamp
                                      (PrimFloat.div
                                         (float_of_int (l + m * 0x80 - 0x2000))
                                         (float_of_int 0x1fff))
                                      (-1)%float 1%float)
                                   (pitch_bend_value l m))
                           byte_values) byte_values = true)
    by (vm_compute; reflexivity).
  rewrite forallb_forall in Hall.
  specialize (Hall _ (byte_value_in lsb)). rewrite forallb_forall in Hall.
  apply FloatAxioms.Leibniz.eqb_spec.
  exact (Hall _ (byte_value_in msb)).
Qed.

(** C8: a PITCH_BEND message with data bytes lsb and msb decodes to an
    event whose "value" is the clamp of (lsb + msb*128 - 8192)/8191 to
    [-1.0, 1.0], the clamp being the one of [clamp_to_interval] and not
    the code's; the value lies in [-1.0, 1.0], raw 0x2000 gives exactly
    0.0 and raw 0x3FFF exactly 1.0 (and raw 0, below the range, is
    clamped to -1.0). *)
Theorem pitch_bend_decoding (d : Z) (status lsb msb : byte) :
  0 ≤ d →
  Z.land (byte_value status) 0xf0 = EventType_value PITCH_BEND →
  let value := pitch_bend_value (byte_value lsb) (byte_value msb) in
  let time := event_time st + d in
  read_event track st (stream (vlq_encode d ++ [status; lsb; msb]))
  = Ok (appended (Some (byte_value status)) time
          (mkSongEvent track time PITCH_BEND (Some {["value" := PyFloat value]})
             (Some (PyInt (Z.land (byte_value status) 0xf)))),
        stream_after (vlq_encode d ++ [status; lsb; msb]))
  ∧ in_unit_range value = true
  ∧ pitch_bend_value 0x00 0x40 = 0%float
  ∧ pitch_bend_value 0x7f 0x7f = 1%float
  ∧ pitch_bend_value 0x00 0x00 = (-1)%float.
Proof.
  intros Hd Hstatus value time.
  split; [| split; [apply pitch_bend_value_range | repeat split; reflexivity]].
  destruct (channel_status_facts status) as (Hhigh & Hsysex & Hmeta);
    [rewrite Hstatus; cbn; lia |].
  cbn in Hsysex, Hmeta.
  unfold stream, stream_after, appended, read_event. monad_unfold.
  rewrite <- !app_assoc, !rev_append_app. cbn [rev_append].
  read_step. read_step.
  rewrite Hhigh. ground. rewrite Hsysex, Hmeta, Hstatus.
  unfold read_channel_data. monad_unfold. ground.
  read_step. read_step.
  subst value. rewrite <- (clamp_pitch_bend lsb msb).
  reflexivity.
Qed.

(** C2, amended: a CONTROLLER_CHANGE message decodes when its controller
    number is the value of a [ControllerType] member, and the event is
    labelled with that member; for a number with no member, such as the
    ones the source calls undefined, decoding fails with [ValueError]. *)
Theorem controller_change_decoding (d : Z) (status number value : byte) :
  0 ≤ d →
  Z.land (byte_value status) 0xf0 = EventType_value CONTROLLER_CHANGE →
  let time := event_time st + d in
  (∀ c, ControllerType_value c = byte_value number →
        read_event track st (stream (vlq_encode d ++ [status; number; value]))
        = Ok (appended (Some (byte_value status)) time
                (mkSongEvent track time CONTROLLER_CHANGE
                   (Some (<["value" := PyInt (byte_value value)]>
                            {["controller" := PyController c]}))
                   (Some (PyInt (Z.land (byte_value status) 0xf)))),
              stream_after (vlq_encode d ++ [status; number; value])))
  ∧ ((∀ c, ControllerType_value c ≠ byte_value number) →
     read_event track st (stream (vlq_encode d ++ [status; number; value]))
     = Raise (ValueError "{value} is not a valid ControllerType"))
  ∧ Forall (λ n, ∀ c, ControllerType_value c ≠ n) undefined_controllers.
Proof.
  intros Hd Hstatus time.
  destruct (channel_status_facts status) as (Hhigh & Hsysex & Hmeta);
    [rewrite Hstatus; cbn; lia |].
  cbn in Hsysex, Hmeta.
  assert (Hrun : ∀ r, ControllerType_call (byte_value number) = r →
            read_event track st (stream (vlq_encode d ++ [status; number; value]))
            = match r with
              | inl e => Raise e
              | inr c =>
                  Ok (appended (Some (byte_value status)) time
                        (mkSongEvent track time CONTROLLER_CHANGE
                           (Some (<["value" := PyInt (byte_value value)]>
                                    {["controller" := PyController c]}))
                           (Some (PyInt (Z.land (byte_value status) 0xf)))),
                      stream_after (vlq_encode d ++ [status; number; value]))
              end).
  { intros r Hr. unfold stream, stream_after, appended, read_event. monad_unfold.
    rewrite <- !app_assoc, !rev_append_app. cbn [rev_append].
    read_step. read_step.
    rewrite Hhigh. ground. rewrite Hsysex, Hmeta, Hstatus.
    unfold read_channel_data. monad_unfold. ground.
    read_step. rewrite Hr. destruct r as [e | c]; [reflexivity |]. cbn.
    read_step. reflexivity. }
  split; [| split].
  - intros c Hc. apply (Hrun (Ok c)). rewrite <- Hc. apply ControllerType_call_value.
  - intros Hno. apply (Hrun (Raise (ValueError "{value} is not a valid ControllerType"))).
    apply (enum_call_no_member ControllerType_value ControllerType_members).
    intros m _. apply Hno.
  - apply undefined_controllers_no_member.
Qed.

Lemma meta_type_lookup (m : MetaType) (new : gmap string pyobj) :
  new !! "meta_type" = None →
  dict_update {["meta_type" := PyMeta m]} new !! "meta_type" = Some (PyMeta m).
Proof.
  intros Hnew. unfold dict_update.
  rewrite lookup_union_r by exact Hnew. apply lookup_singleton_eq.
Qed.

(** The last branch of the META chain, for the two types that reach it. *)
Lemma read_meta_data_raw (m : MetaType) (payload back : list byte) :
  m ∈ [END_OF_TRACK; SEQUENCER_SPECIFIC] →
  read_meta_data m (Z.of_nat (length payload)) {["meta_type" := PyMeta m]}
    (mkFile back (payload ++ rest) ov)
  = Ok (raw_meta_data m payload, mkFile (rev_append payload back) rest ov).
Proof.
  intros Hm. unfold read_meta_data. monad_unfold.
  set_unfold in Hm. destruct Hm as [-> | [-> | []]]; ground.
  all: destruct payload as [| b payload]; [reflexivity |].
  all: set (p := b :: payload).
  all: change (Z.of_nat (length p) =? 0) with false; cbn [negb].
  all: rewrite (_u8_list_app p); reflexivity.
Qed.

(** C1, amended: a META event whose code is a [MetaType] member with no
    decoder of its own (END_OF_TRACK, SEQUENCER_SPECIFIC) is produced with
    its raw payload bytes, if any, stored verbatim under "bytes"; a code
    that is no member of [MetaType] makes decoding fail with
    [ValueError]. *)
Theorem meta_raw_payload_decoding (d : Z) (code : byte) (payload : list byte) :
  0 ≤ d →
  let time := event_time st + d in
  let event := vlq_encode d ++ [xff; code]
               ++ vlq_encode (Z.of_nat (length payload)) ++ payload in
  (∀ m : MetaType,
      m ∈ [END_OF_TRACK; SEQUENCER_SPECIFIC] →
      MetaType_value m = byte_value code →
      read_event track st (stream event)
      = Ok (appended None time
              (mkSongEvent track time META (Some (raw_meta_data m payload)) None),
            stream_after event))
  ∧ ((∀ m, MetaType_value m ≠ byte_value code) →
     read_event track st (stream event)
     = Raise (ValueError "{value} is not a valid MetaType")).
Proof.
  intros Hd time event. unfold event, stream, stream_after, appended. split.
  - intros m Hm Hcode.
    unfold read_event. monad_unfold.
    rewrite <- !app_assoc, !rev_append_app. cbn [rev_append].
    read_step. read_step. read_step.
    rewrite <- Hcode, MetaType_call_value. cbn.
    read_step.
    rewrite (read_meta_data_raw m payload _ Hm). cbn.
    erewrite SongEvent_init_meta; [reflexivity |].
    destruct payload; [apply lookup_singleton_eq | apply meta_type_lookup; reflexivity].
  - intros Hno. unfold read_event. monad_unfold.
    rewrite <- !app_assoc.
    read_step. read_step. read_step.
    rewrite (enum_call_no_member MetaType_value MetaType_members "MetaType")
      by (intros m _; apply Hno).
    reflexivity.
Qed.

Lemma list_getitem_in_range {A} (l : list A) (i : Z) (x : A) :
  0 ≤ i < Z.of_nat (length l) →
  list_getitem l i = Ok (nth (Z.to_nat i) l x).
Proof.
  intros Hi. unfold list_getitem.
  destruct (Z.ltb_spec i 0); [lia |].
  destruct (Z.ltb_spec i 0); [lia |].
  destruct (Z.leb_spec (Z.of_nat (length l)) i); [lia |]. simpl.
  destruct (l !! Z.to_nat i) as [y |] eqn:Hy.
  - rewrite (nth_lookup_Some _ _ x _ Hy). reflexivity.
  - apply lookup_ge_None in Hy. lia.
Qed.

Lemma get_key_signature_in_table (sharps_flats major_minor : Z) :
  0 ≤ sharps_flats + 7 + major_minor * 3 < 18 →
  get_key_signature sharps_flats major_minor
  = Ok (String.append
          (nth (Z.to_nat (sharps_flats + 7 + major_minor * 3)) keys EmptyString)
          (str_mul "m" major_minor)).
Proof.
  intros Hi. unfold get_key_signature.
  rewrite (list_getitem_in_range keys _ EmptyString) by exact Hi.
  reflexivity.
Qed.

(** C4, amended: a KEY_SIGNATURE meta event maps the two bytes it reads
    (signed sharps/flats count, major/minor flag) through the 18-entry
    key-name table at index sharps_flats + 7 + major_minor*3, with "m"
    appended when minor; raw bytes (0, 0) decode to "C" and raw bytes
    (0, 1) to "Am". *)
Theorem key_signature_decoding (d n : Z) (sf mm : byte) :
  0 ≤ d → 0 ≤ n →
  let time := event_time st + d in
  let sharps_flats := signed_byte sf in
  let major_minor := byte_value mm in
  let event := vlq_encode d ++ [xff; x59] ++ vlq_encode n ++ [sf; mm] in
  read_event track st (stream event)
  = match get_key_signature sharps_flats major_minor with
    | inl e => Raise e
    | inr key =>
        Ok (appended None time
              (mkSongEvent track time META
                 (Some (dict_update {["meta_type" := PyMeta KEY_SIGNATURE]}
                          {["key" := PyStr key]})) None),
            stream_after event)
    end
  ∧ (0 ≤ sharps_flats + 7 + major_minor * 3 < 18 →
     get_key_signature sharps_flats major_minor
     = Ok (String.append
             (nth (Z.to_nat (sharps_flats + 7 + major_minor * 3)) keys EmptyString)
             (str_mul "m" major_minor)))
  ∧ get_key_signature 0 0 = Ok "C"%string
  ∧ get_key_signature 0 1 = Ok "Am"%string.
Proof.
  intros Hd Hn time sharps_flats major_minor event.
  split; [| split; [apply get_key_signature_in_table | split; reflexivity]].
  unfold event, stream, stream_after, appended, read_event. monad_unfold.
  rewrite <- !app_assoc, !rev_append_app. cbn [rev_append].
  read_step. read_step. read_step.
  change (MetaType_call 89) with (@Ok MetaType KEY_SIGNATURE). cbn.
  read_step.
  unfold read_meta_data. monad_unfold. ground.
  rewrite read_two. ground.
  fold major_minor. unfold sharps_flats, signed_byte.
  destruct (get_key_signature _ major_minor) as [e | key]; [reflexivity |].
  cbn. erewrite SongEvent_init_meta; [reflexivity |].
  apply meta_type_lookup. reflexivity.
Qed.

End Decoding.

(** ** The decoder on sample streams and files *)

Section Samples.

Lemma pitch_bend_decoding_witness :
  0 ≤ 0
  ∧ Z.land (byte_value xe3) 0xf0 = EventType_value PITCH_BEND
  ∧ read_event 0 track_start (File.of_bytes [x00; xe3; x00; x40])
    = Ok (mkTrackState (Some 0xe3) 0
            [mkSongEvent 0 0 PITCH_BEND (Some {["value" := PyFloat 0]})
               (Some (PyInt 3))],
          mkFile [x40; x00; xe3; x00] [] 0%N).
Proof.
  split; [lia |]. split; [reflexivity |].
  exact (proj1 (pitch_bend_decoding 0 track_start [] [] 0%N 0 xe3 x00 x40
                  ltac:(lia) eq_refl)).
Defined.

Lemma controller_change_decoding_witness :
  0 ≤ 0
  ∧ Z.land (byte_value xb2) 0xf0 = EventType_value CONTROLLER_CHANGE
  ∧ read_event 0 track_start (File.of_bytes [x00; xb2; x07; x64])
    = Ok (mkTrackState (Some 0xb2) 0
            [mkSongEvent 0 0 CONTROLLER_CHANGE
               (Some (<["value" := PyInt 100]>
                        {["controller" := PyController VOLUME_MSB]}))
               (Some (PyInt 2))],
          mkFile [x64; x07; xb2; x00] [] 0%N)
  ∧ read_event 0 track_start (File.of_bytes [x00; xb2; x03; x64])
    = Raise (ValueError "{value} is not a valid ControllerType").
Proof.
  split; [lia |]. split; [reflexivity |]. split.
  - exact (proj1 (controller_change_decoding 0 track_start [] [] 0%N 0 xb2 x07 x64
                    ltac:(lia) eq_refl) VOLUME_MSB eq_refl).
  - apply (proj1 (proj2 (controller_change_decoding 0 track_start [] [] 0%N 0 xb2 x03 x64
                           ltac:(lia) eq_refl))).
    intros c. destruct c; discriminate.
Defined.

(** C2 as stated fails: controller number 3 is a number from 0 to 127
    that [ControllerType] does not name, and a file with a controller
    change for it is refused. *)
Lemma controller_3_rejected :
  0 ≤ 3 ≤ 127
  ∧ (∀ c, ControllerType_value c ≠ 3)
  ∧ open_bytes smf_controller_3
    = Raise (ValueError "{value} is not a valid ControllerType").
Proof.
  split; [lia |]. split; [| vm_compute; reflexivity].
  intros c. destruct c; discriminate.
Qed.

Lemma meta_raw_payload_decoding_witness :
  0 ≤ 0
  ∧ read_event 0 track_start (File.of_bytes [x00; xff; x7f; x02; x41; x42])
    = Ok (mkTrackState None 0
            [mkSongEvent 0 0 META
               (Some (dict_update {["meta_type" := PyMeta SEQUENCER_SPECIFIC]}
                        {["bytes" := PyIntList [0x41; 0x42]]})) None],
          mkFile [x42; x41; x02; x7f; xff; x00] [] 0%N)
  ∧ read_event 0 track_start (File.of_bytes [x00; xff; x0a; x02; x41; x42])
    = Raise (ValueError "{value} is not a valid MetaType").
Proof.
  split; [lia |]. split.
  - apply (proj1 (meta_raw_payload_decoding 0 track_start [] [] 0%N 0 x7f [x41; x42]
                    ltac:(lia)) SEQUENCER_SPECIFIC).
    + set_solver.
    + reflexivity.
  - apply (proj2 (meta_raw_payload_decoding 0 track_start [] [] 0%N 0 x0a [x41; x42]
                    ltac:(lia))).
    intros m. destruct m; discriminate.
Defined.

(** C1 as stated fails: the code [0x0a] is none of the [MetaType] values,
    and a file with a META event of that type is refused instead of
    decoded. *)
Lemma unknown_meta_type_rejected :
  (∀ m, MetaType_value m ≠ 0x0a)
  ∧ open_bytes smf_unknown_meta = Raise (ValueError "{value} is not a valid MetaType").
Proof.
  split; [| vm_compute; reflexivity].
  intros m. destruct m; discriminate.
Qed.

Lemma key_signature_decoding_witness :
  0 ≤ 0 ∧ 0 ≤ 2
  ∧ read_event 0 track_start (File.of_bytes [x00; xff; x59; x02; xfd; x00])
    = Ok (mkTrackState None 0
            [mkSongEvent 0 0 META
               (Some (dict_update {["meta_type" := PyMeta KEY_SIGNATURE]}
                        {["key" := PyStr "Eb"]})) None],
          mkFile [x00; xfd; x02; x59; xff; x00] [] 0%N).
Proof.
  split; [lia |]. split; [lia |].
  exact (proj1 (key_signature_decoding 0 track_start [] [] 0%N 0 2 xfd x00
                  ltac:(lia) ltac:(lia))).
Defined.

(** C4 as stated fails: the raw bytes (0, 1) index the table at 10, which
    holds "A", so they decode to "Am" and not to "Cm". *)
Lemma key_signature_0_1_is_not_Cm :
  get_key_signature 0 1 ≠ Ok "Cm"%string
  ∧ ∃ r, open_bytes smf_key_signature_0_1 = Ok r
         ∧ ((λ e, SongEvent_getitem e "key") <$> reader_events r)
           = [Ok (PyStr "Am")].
Proof.
  split; [discriminate |].
  eexists. split; vm_compute; reflexivity.
Qed.

(** C3: the track number is advanced once per chunk, not once per MTrk
    chunk: in a file with an MTrk chunk, a foreign chunk and a second MTrk
    chunk, the events of the second track carry track number 2. *)
Theorem track_number_counts_foreign_chunks :
  ∃ r, open_bytes smf_with_foreign_chunk = Ok r
       ∧ event_summary r
         = [(0, 0, NOTE_ON); (0, 0, META); (2, 0, PROGRAM_CHANGE); (2, 0, META)].
Proof.
  eexists. split; vm_compute; reflexivity.
Qed.

End Samples.

(** * Further properties of the code *)

(** ** Comparing song events *)

Section Comparisons.

Lemma key_lt_trichotomy (k1 k2 : Z * Z * Z) :
  (key_lt k1 k2 ∧ k1 ≠ k2 ∧ ¬ key_lt k2 k1)
  ∨ (¬ key_lt k1 k2 ∧ k1 = k2 ∧ ¬ key_lt k2 k1)
  ∨ (¬ key_lt k1 k2 ∧ k1 ≠ k2 ∧ key_lt k2 k1).
Proof.
  destruct k1 as [[t1 p1] r1], k2 as [[t2 p2] r2]. unfold key_lt.
  destruct (Z.lt_total t1 t2) as [Ht | [Ht | Ht]];
    destruct (Z.lt_total p1 p2) as [Hp | [Hp | Hp]];
    destruct (Z.lt_total r1 r2) as [Hr | [Hr | Hr]];
    first [ left; split; [lia | split; [congruence || (intros [= ? ? ?]; lia) | lia]]
          | right; left; split; [lia | split; [congruence | lia]]
          | right; right; split; [lia | split; [intros [= ? ? ?]; lia | lia]] ].
Qed.

Lemma SongEvent_eq_false (a b : SongEvent) :
  sort_key a ≠ sort_key b → SongEvent_eq a b = false.
Proof.
  intros Hne. destruct (SongEvent_eq a b) eqn:Heq; [| reflexivity].
  apply SongEvent_eq_key in Heq. destruct (Hne Heq).
Qed.

(** X1: of two events exactly one of [a < b], [a == b], [b < a] holds:
    the equality and the order of the class agree, as
    [functools.total_ordering] asks of them. *)
Theorem SongEvent_trichotomy (a b : SongEvent) :
  (SongEvent_lt a b = true ∧ SongEvent_eq a b = false ∧ SongEvent_lt b a = false)
  ∨ (SongEvent_lt a b = false ∧ SongEvent_eq a b = true ∧ SongEvent_lt b a = false)
  ∨ (SongEvent_lt a b = false ∧ SongEvent_eq a b = false ∧ SongEvent_lt b a = true).
Proof.
  destruct (key_lt_trichotomy (sort_key a) (sort_key b))
    as [(H1 & H2 & H3) | [(H1 & H2 & H3) | (H1 & H2 & H3)]].
  - left. split; [apply SongEvent_lt_key, H1 |].
    split; [apply SongEvent_eq_false, H2 | apply SongEvent_lt_false, H3].
  - right; left. split; [apply SongEvent_lt_false, H1 |].
    split; [apply SongEvent_eq_key, H2 | apply SongEvent_lt_false, H3].
  - right; right. split; [apply SongEvent_lt_false, H1 |].
    split; [apply SongEvent_eq_false, H2 | apply SongEvent_lt_key, H3].
Qed.

Lemma SongEvent_lt_key_eq (a a' b b' : SongEvent) :
  sort_key a = sort_key a' → sort_key b = sort_key b' →
  SongEvent_lt a b = SongEvent_lt a' b'.
Proof.
  intros Ha Hb.
  destruct (SongEvent_lt a b) eqn:H1, (SongEvent_lt a' b') eqn:H2; try reflexivity.
  - apply SongEvent_lt_key in H1. rewrite Ha, Hb in H1.
    apply SongEvent_lt_key in H1. congruence.
  - apply SongEvent_lt_key in H2. rewrite <- Ha, <- Hb in H2.
    apply SongEvent_lt_key in H2. congruence.
Qed.

Lemma SongEvent_eq_sym (a b : SongEvent) : SongEvent_eq a b = SongEvent_eq b a.
Proof.
  destruct (SongEvent_eq a b) eqn:H1, (SongEvent_eq b a) eqn:H2; try reflexivity.
  - apply SongEvent_eq_key in H1. symmetry in H1.
    apply SongEvent_eq_key in H1. congruence.
  - apply SongEvent_eq_key in H2. symmetry in H2.
    apply SongEvent_eq_key in H2. congruence.
Qed.

(** X2: [__eq__] is an equivalence on events, and [__lt__] does not tell
    equal events apart: an event can be exchanged for an equal one on
    either side of a comparison. *)
Theorem SongEvent_eq_equivalence (a b c : SongEvent) :
  SongEvent_eq a a = true
  ∧ SongEvent_eq a b = SongEvent_eq b a
  ∧ (SongEvent_eq a b = true → SongEvent_eq b c = true → SongEvent_eq a c = true)
  ∧ (SongEvent_eq a b = true →
     SongEvent_lt a c = SongEvent_lt b c ∧ SongEvent_lt c a = SongEvent_lt c b).
Proof.
  split; [apply SongEvent_eq_key; reflexivity |]. split; [| split].
  - apply SongEvent_eq_sym.
  - rewrite !SongEvent_eq_key. congruence.
  - rewrite SongEvent_eq_key. intros Hab.
    split; apply SongEvent_lt_key_eq; (exact Hab || reflexivity).
Qed.

Lemma SongEvent_eq_equivalence_witness :
  SongEvent_eq (program_change_at 4 0) (end_of_track_at 4 0) = true
  ∧ SongEvent_lt (program_change_at 4 0) (note_on_at 4 0)
    = SongEvent_lt (end_of_track_at 4 0) (note_on_at 4 0)
  ∧ SongEvent_lt (note_on_at 4 0) (program_change_at 4 0)
    = SongEvent_lt (note_on_at 4 0) (end_of_track_at 4 0).
Proof.
  split; [reflexivity |].
  apply (SongEvent_eq_equivalence (program_change_at 4 0) (end_of_track_at 4 0)
           (note_on_at 4 0)).
  reflexivity.
Defined.

(** X3: the comparisons [functools.total_ordering] derives are the
    expected ones: [a > b] is [b < a], [a <= b] is [not b < a], [a >= b] is
    [b <= a], and [a != b] holds when one of the two is less. *)
Theorem total_ordering_consistent (a b : SongEvent) :
  SongEvent_gt a b = SongEvent_lt b a
  ∧ SongEvent_le a b = negb (SongEvent_lt b a)
  ∧ SongEvent_ge a b = SongEvent_le b a
  ∧ SongEvent_ne a b = (SongEvent_lt a b || SongEvent_lt b a).
Proof.
  unfold SongEvent_gt, SongEvent_le, SongEvent_ge, SongEvent_ne.
  rewrite <- (SongEvent_eq_sym a b).
  destruct (key_lt_trichotomy (sort_key a) (sort_key b))
    as [(H1 & H2 & H3) | [(H1 & H2 & H3) | (H1 & H2 & H3)]].
  - rewrite (proj2 (SongEvent_lt_key a b) H1), (SongEvent_eq_false a b H2),
      (SongEvent_lt_false b a H3). repeat split.
  - rewrite (SongEvent_lt_false a b H1), (proj2 (SongEvent_eq_key a b) H2),
      (SongEvent_lt_false b a H3). repeat split.
  - rewrite (SongEvent_lt_false a b H1), (SongEvent_eq_false a b H2),
      (proj2 (SongEvent_lt_key b a) H3). repeat split.
Qed.

End Comparisons.

(** ** Constructing and updating events *)

Section Events.

(** What a successful construction tells about its arguments. *)
Lemma SongEvent_init_valid (track time : Z) (event_type : EventType)
    (data : option (gmap string pyobj)) (channel : option pyobj) (e : SongEvent) :
  SongEvent_init track time event_type data channel = Ok e →
  valid_event_args event_type data channel
  ∧ e = mkSongEvent track time event_type data channel.
Proof.
  unfold SongEvent_init, not_in, valid_event_args.
  destruct event_type, channel as [[] |], data as [d |]; cbn;
    try discriminate;
    try (intros [= <-]; split; [| reflexivity];
         first [ eexists; reflexivity
               | split; [reflexivity | discriminate] ]).
  destruct (d !! "meta_type") as [v |] eqn:Hv.
  - rewrite bool_decide_eq_false_2 by discriminate.
    intros [= <-]. split; [| reflexivity].
    split; [reflexivity |]. intros _. exists d, v. split; [reflexivity | exact Hv].
  - rewrite bool_decide_eq_true_2 by reflexivity. discriminate.
Qed.

(** X4: the constructor succeeds exactly on the arguments that keep its
    invariants (no channel for sysex and meta events and a 'meta_type'
    entry for meta events, an integer channel for all others), and then
    stores every argument unchanged. *)
Theorem SongEvent_init_Ok_iff (track time : Z) (event_type : EventType)
    (data : option (gmap string pyobj)) (channel : option pyobj) (e : SongEvent) :
  SongEvent_init track time event_type data channel = Ok e
  ↔ valid_event_args event_type data channel
    ∧ e = mkSongEvent track time event_type data channel.
Proof.
  split; [apply SongEvent_init_valid |].
  unfold SongEvent_init, not_in, valid_event_args.
  intros [Hvalid ->].
  destruct event_type; cbn in Hvalid;
    try (destruct Hvalid as [z ->]; reflexivity);
    destruct Hvalid as [-> Hmeta]; try reflexivity.
  destruct (Hmeta eq_refl) as (d & v & -> & Hv). cbn.
  rewrite bool_decide_eq_false_2 by congruence. reflexivity.
Qed.

(** X5: after [event[key] = value], reading [key] gives [value] and every
    other key reads as before; the track, time, type and channel are
    untouched, so the event compares as before with every event.  The
    assignment fails only on an event without a data dictionary. *)
Theorem setitem_getitem (e : SongEvent) (key : string) (value : pyobj) :
  match SongEvent_setitem e key value with
  | inl err => _data e = None
  | inr e' =>
      SongEvent_getitem e' key = Ok value
      ∧ (∀ k, k ≠ key → SongEvent_getitem e' k = SongEvent_getitem e k)
      ∧ sort_key e' = sort_key e
      ∧ channel e' = channel e
      ∧ ∀ other, SongEvent_lt e' other = SongEvent_lt e other
                 ∧ SongEvent_lt other e' = SongEvent_lt other e
                 ∧ SongEvent_eq e' other = SongEvent_eq e other
  end.
Proof.
  unfold SongEvent_setitem. destruct e as [tr ti ty [d |] ch]; cbn; [| reflexivity].
  split; [unfold SongEvent_getitem; cbn; rewrite lookup_insert_eq; reflexivity |].
  split.
  { intros k Hk. unfold SongEvent_getitem. cbn.
    rewrite lookup_insert_ne by congruence. reflexivity. }
  split; [reflexivity |]. split; [reflexivity |].
  intros other. repeat split.
Qed.

End Events.

(** ** Channel voice messages and running status *)

Section Blind.

Context {A B : Type}.

Lemma blind_ret (a : A) : blind (mret a : M A).
Proof. intros f1 f2 H. cbn. split; [reflexivity | exact H]. Qed.

Lemma blind_throw (e : exn) : blind (throw e : M A).
Proof. intros f1 f2 H. reflexivity. Qed.

Lemma blind_lift (r : result A) : blind (lift r).
Proof.
  intros f1 f2 H. unfold lift. destruct r; [reflexivity |].
  cbn. split; [reflexivity | exact H].
Qed.

Lemma blind_bind (m : M A) (k : A → M B) :
  blind m → (∀ a, blind (k a)) → blind (m ≫= k).
Proof.
  intros Hm Hk f1 f2 H. unfold mbind, M_bind. specialize (Hm f1 f2 H).
  destruct (m f1) as [e1 | [a1 g1]], (m f2) as [e2 | [a2 g2]]; try contradiction.
  - exact Hm.
  - destruct Hm as [<- Hg]. exact (Hk a1 g1 g2 Hg).
Qed.

Lemma blind_if (c : bool) (m1 m2 : M A) :
  blind m1 → blind m2 → blind (if c then m1 else m2).
Proof. destruct c; auto. Qed.

End Blind.

Lemma blind_read (n : Z) : blind (fp_read n).
Proof.
  intros [bk1 ah1 ov1] [bk2 ah2 ov2] [Hah Hov]. cbn in Hah, Hov. subst.
  unfold fp_read, File.read. cbn. repeat split.
Qed.

Lemma blind_u8 : blind _u8.
Proof.
  unfold _u8. apply blind_bind; [apply blind_read | intros c; apply blind_lift].
Qed.

Lemma blind_read_channel_data (event_type : Z) : blind (read_channel_data event_type).
Proof.
  unfold read_channel_data.
  repeat first
    [ apply blind_u8 | apply blind_read | apply blind_lift | apply blind_ret
    | apply blind_throw | apply blind_if
    | apply blind_bind; [| intros ?] ].
Qed.

Section ChannelMessages.

Variables (track : Z) (st : track_state) (bk : list byte).

(** The channel branch of the event loop, entered with a status byte. *)
Lemma read_event_channel (d : Z) (status : byte) (tail : list byte) (ov : N) :
  0 ≤ d →
  0x80 ≤ Z.land (byte_value status) 0xf0 ≤ 0xe0 →
  read_event track st (mkFile bk (vlq_encode d ++ status :: tail) ov)
  = match read_channel_data (Z.land (byte_value status) 0xf0)
            (mkFile (status :: rev_append (vlq_encode d) bk) tail ov) with
    | inl e => inl e
    | inr (event_data, f) =>
        match EventType_call (Z.land (byte_value status) 0xf0) with
        | inl e => inl e
        | inr t =>
            match SongEvent_init track (event_time st + d) t (Some event_data)
                    (Some (PyInt (Z.land (byte_value status) 0xf))) with
            | inl e => inl e
            | inr event =>
                Ok (mkTrackState (Some (byte_value status)) (event_time st + d)
                      (events st ++ [event]), f)
            end
        end
    end.
Proof.
  intros Hd Hstatus.
  destruct (channel_status_facts status Hstatus) as (Hhigh & Hsysex & Hmeta).
  cbn in Hsysex, Hmeta.
  unfold read_event. monad_unfold.
  read_step. read_step.
  rewrite Hhigh. ground. rewrite Hsysex, Hmeta.
  destruct (read_channel_data _ _) as [e | [event_data f]]; [reflexivity |].
  cbn. destruct (EventType_call _) as [e | t]; [reflexivity |].
  cbn. destruct (SongEvent_init _ _ _ _ _); reflexivity.
Qed.

(** The same branch, entered through the running status: the byte that
    was read is pushed back and the data bytes are read from there. *)
Lemma read_event_running (d : Z) (status first : byte) (tail : list byte) :
  0 ≤ d →
  running_status st = Some (byte_value status) →
  0x80 ≤ Z.land (byte_value status) 0xf0 ≤ 0xe0 →
  byte_value first < 128 →
  read_event track st (mkFile bk (vlq_encode d ++ first :: tail) 0)
  = match read_channel_data (Z.land (byte_value status) 0xf0)
            (mkFile (rev_append (vlq_encode d) bk) (first :: tail) 0) with
    | inl e => inl e
    | inr (event_data, f) =>
        match EventType_call (Z.land (byte_value status) 0xf0) with
        | inl e => inl e
        | inr t =>
            match SongEvent_init track (event_time st + d) t (Some event_data)
                    (Some (PyInt (Z.land (byte_value status) 0xf))) with
            | inl e => inl e
            | inr event =>
                Ok (mkTrackState (Some (byte_value status)) (event_time st + d)
                      (events st ++ [event]), f)
            end
        end
    end.
Proof.
  intros Hd Hrun Hstatus Hfirst.
  destruct (channel_status_facts status Hstatus) as (Hhigh & Hsysex & Hmeta).
  cbn in Hsysex, Hmeta.
  unfold read_event. monad_unfold.
  read_step. read_step.
  rewrite land_high_bit by (pose proof (byte_value_range first); lia).
  destruct (Z.ltb_spec (byte_value first) 128); [| lia]. ground.
  rewrite Hrun.
  change (Z.to_N (- (-1)) <=? 0)%N with false.
  change (N.to_nat (Z.to_N (- (-1)) - 0)) with 1%nat.
  ground. rewrite Hsysex, Hmeta.
  destruct (read_channel_data _ _) as [e | [event_data f]]; [reflexivity |].
  cbn. destruct (EventType_call _) as [e | t]; [reflexivity |].
  cbn. destruct (SongEvent_init _ _ _ _ _); reflexivity.
Qed.

(** X6: a NOTE_OFF, NOTE_ON or POLYPHONIC_KEY_PRESSURE message takes two
    data bytes and a PROGRAM_CHANGE or CHANNEL_KEY_PRESSURE message one;
    the event carries them unchanged under the keys of [voice_data] (a
    NOTE_ON with velocity 0 stays a NOTE_ON), takes its channel from the
    low four bits of the status byte, and the status byte becomes the
    running status. *)
Theorem channel_voice_decoding (d : Z) (status : byte) (t : EventType)
    (data rest : list byte) (ov : N) (event_data : gmap string pyobj) :
  0 ≤ d →
  Z.land (byte_value status) 0xf0 = EventType_value t →
  voice_data t data = Some event_data →
  let time := event_time st + d in
  read_event track st (mkFile bk ((vlq_encode d ++ status :: data) ++ rest) ov)
  = Ok (mkTrackState (Some (byte_value status)) time
          (events st
           ++ [mkSongEvent track time t (Some event_data)
                 (Some (PyInt (Z.land (byte_value status) 0xf)))]),
        mkFile (rev_append (vlq_encode d ++ status :: data) bk) rest ov).
Proof.
  intros Hd Hstatus Hdata time.
  rewrite <- !app_assoc, !rev_append_app. cbn [app rev_append].
  assert (0x80 ≤ EventType_value t ≤ 0xe0) as Hrange
    by (destruct t; cbn; try lia;
        destruct data as [| b1 [| b2 [| b3 data]]]; discriminate Hdata).
  rewrite read_event_channel; [| exact Hd | rewrite Hstatus; exact Hrange].
  rewrite Hstatus.
  destruct t; try discriminate Hdata;
    destruct data as [| b1 [| b2 [| b3 data]]]; try discriminate Hdata;
    injection Hdata as <-;
    unfold read_channel_data; monad_unfold; ground;
    repeat read_step; reflexivity.
Qed.

(** X7: with a running status in force, an event that starts with a data
    byte decodes exactly as the same event with the status byte written
    out: the same failure, or the same event, the same loop state and the
    same bytes left to read. *)
Theorem running_status_equivalence (d : Z) (status first : byte) (tail : list byte) :
  0 ≤ d →
  running_status st = Some (byte_value status) →
  0x80 ≤ Z.land (byte_value status) 0xf0 ≤ 0xe0 →
  byte_value first < 128 →
  match read_event track st (mkFile bk (vlq_encode d ++ first :: tail) 0),
        read_event track st (mkFile bk (vlq_encode d ++ status :: first :: tail) 0) with
  | inl e1, inl e2 => e1 = e2
  | inr (st1, f1), inr (st2, f2) => st1 = st2 ∧ ahead f1 = ahead f2
  | _, _ => False
  end.
Proof.
  intros Hd Hrun Hstatus Hfirst.
  rewrite (read_event_running d status first tail) by assumption.
  rewrite (read_event_channel d status (first :: tail) 0) by assumption.
  pose proof (blind_read_channel_data (Z.land (byte_value status) 0xf0)
                (mkFile (rev_append (vlq_encode d) bk) (first :: tail) 0)
                (mkFile (status :: rev_append (vlq_encode d) bk) (first :: tail) 0)
                (conj eq_refl eq_refl)) as Hblind.
  destruct (read_channel_data _ _) as [e1 | [data1 f1]],
           (read_channel_data _ _) as [e2 | [data2 f2]]; try contradiction.
  - exact Hblind.
  - destruct Hblind as [<- [Hahead _]].
    destruct (EventType_call _) as [e | t]; [reflexivity |].
    destruct (SongEvent_init _ _ _ _ _) as [e | event]; [reflexivity |].
    split; [reflexivity | exact Hahead].
Qed.

(** X8: an event that starts with a data byte while no running status is
    in force, as at the start of a track, is rejected with [ValueError]. *)
Theorem running_status_missing (d : Z) (first : byte) (tail : list byte) :
  0 ≤ d →
  running_status st = None →
  byte_value first < 128 →
  read_event track st (mkFile bk (vlq_encode d ++ first :: tail) 0)
  = Raise (ValueError
             "Expected a running status, but it was None at pos {self.fp.tell()}.").
Proof.
  intros Hd Hrun Hfirst.
  unfold read_event. monad_unfold.
  read_step. read_step.
  rewrite land_high_bit by (pose proof (byte_value_range first); lia).
  destruct (Z.ltb_spec (byte_value first) 128); [| lia]. ground.
  rewrite Hrun.
  change (Z.to_N (- (-1)) <=? 0)%N with false.
  change (N.to_nat (Z.to_N (- (-1)) - 0)) with 1%nat.
  reflexivity.
Qed.

(** X9: the status bytes 0xF1-0xF6 and 0xF8-0xFE (system common and
    real-time messages) are rejected with [ValueError], whatever
    follows. *)
Theorem system_message_rejected (d : Z) (status : byte) (tail : list byte) (ov : N) :
  0 ≤ d →
  0xf1 ≤ byte_value status ≤ 0xfe →
  byte_value status ≠ 0xf7 →
  read_event track st (mkFile bk (vlq_encode d ++ status :: tail) ov)
  = Raise (ValueError "Unsupported MIDI event code: 0x{event_type:x}").
Proof.
  intros Hd Hrange Hf7.
  assert (Z.land (byte_value status) 0x80 = 0x80
          ∧ bool_decide (byte_value status ∈ [0xf0; 0xf7]) = false
          ∧ (byte_value status =? 0xff) = false
          ∧ Z.land (byte_value status) 0xf0 = 0xf0) as (Hhigh & Hsysex & Hmeta & Hmask).
  { revert Hrange Hf7. destruct status; vm_compute; intros [H1 H2] H3;
      first [ exfalso; apply H1; reflexivity
            | exfalso; apply H2; reflexivity
            | exfalso; apply H3; reflexivity
            | repeat split ]. }
  unfold read_event. monad_unfold.
  read_step. read_step.
  rewrite Hhigh. ground. rewrite Hsysex, Hmeta, Hmask.
  reflexivity.
Qed.

End ChannelMessages.

Section ChannelSamples.

Lemma channel_voice_decoding_witness :
  read_event 0 track_start (mkFile [] (vlq_encode 0 ++ [x93; x3c; x00]) 0)
  = Ok (mkTrackState (Some 0x93) 0
          [mkSongEvent 0 0 NOTE_ON
             (Some (<["velocity" := PyInt 0]> {["note" := PyInt 60]})) (Some (PyInt 3))],
        mkFile [x00; x3c; x93; x00] [] 0).
Proof.
  exact (channel_voice_decoding 0 track_start [] 0 x93 NOTE_ON [x3c; x00] [] 0 _
           ltac:(lia) eq_refl eq_refl).
Defined.

(** A note-on on channel 3 has been read; the next event gives only the
    note and the velocity. *)
Lemma running_status_equivalence_witness :
  match read_event 0 (mkTrackState (Some 0x93) 0 [])
          (mkFile [] (vlq_encode 5 ++ [x3e; x40]) 0),
        read_event 0 (mkTrackState (Some 0x93) 0 [])
          (mkFile [] (vlq_encode 5 ++ [x93; x3e; x40]) 0) with
  | inl e1, inl e2 => e1 = e2
  | inr (st1, f1), inr (st2, f2) => st1 = st2 ∧ ahead f1 = ahead f2
  | _, _ => False
  end.
Proof.
  apply (running_status_equivalence 0 (mkTrackState (Some 0x93) 0 []) [] 5 x93 x3e [x40]).
  - lia.
  - reflexivity.
  - vm_compute. split; discriminate.
  - vm_compute. reflexivity.
Defined.

Lemma running_status_missing_witness :
  read_event 0 track_start (mkFile [] (vlq_encode 0 ++ [x3c; x64]) 0)
  = Raise (ValueError
             "Expected a running status, but it was None at pos {self.fp.tell()}.").
Proof.
  apply (running_status_missing 0 track_start [] 0 x3c [x64]).
  - lia.
  - reflexivity.
  - vm_compute. reflexivity.
Defined.

Lemma system_message_rejected_witness :
  read_event 0 track_start (mkFile [] (vlq_encode 0 ++ [xf8; x00]) 0)
  = Raise (ValueError "Unsupported MIDI event code: 0x{event_type:x}").
Proof.
  apply (system_message_rejected 0 track_start [] 0 xf8 [x00] 0).
  - lia.
  - vm_compute. split; discriminate.
  - vm_compute. discriminate.
Defined.

End ChannelSamples.

(** ** META and system exclusive events *)

Section MetaEvents.

Variables (track : Z) (st : track_state) (bk : list byte).

(** The META branch of the event loop up to the type-specific part. *)
Lemma read_event_meta (d n : Z) (code : byte) (m : MetaType) (tail : list byte) (ov : N) :
  0 ≤ d → 0 ≤ n →
  MetaType_value m = byte_value code →
  read_event track st (mkFile bk (vlq_encode d ++ xff :: code :: vlq_encode n ++ tail) ov)
  = match read_meta_data m n {["meta_type" := PyMeta m]}
            (mkFile (rev_append (vlq_encode n) (code :: xff :: rev_append (vlq_encode d) bk))
               tail ov) with
    | inl e => inl e
    | inr (event_data, f) =>
        match SongEvent_init track (event_time st + d) META (Some event_data) None with
        | inl e => inl e
        | inr event =>
            Ok (mkTrackState None (event_time st + d) (events st ++ [event]), f)
        end
    end.
Proof.
  intros Hd Hn Hcode.
  unfold read_event. monad_unfold.
  read_step. read_step. read_step.
  rewrite <- Hcode, MetaType_call_value. cbn.
  read_step.
  destruct (read_meta_data _ _ _ _) as [e | [event_data f]]; [reflexivity |].
  cbn. destruct (SongEvent_init _ _ _ _ _); reflexivity.
Qed.

(** X10: a META event of a type with a fixed data length (SEQUENCE_NUMBER
    2, CHANNEL_PREFIX 1, PORT 1, SET_TEMPO 3, SMTPE_OFFSET 5,
    TIME_SIGNATURE 4) that declares any other length is rejected with
    [ValueError] before any of its data is read. *)
Theorem meta_length_checked (d n len : Z) (code : byte) (m : MetaType) (msg : string)
    (tail : list byte) (ov : N) :
  0 ≤ d → 0 ≤ n →
  MetaType_value m = byte_value code →
  fixed_meta_length m = Some (len, msg) →
  n ≠ len →
  read_event track st (mkFile bk (vlq_encode d ++ xff :: code :: vlq_encode n ++ tail) ov)
  = Raise (ValueError msg).
Proof.
  intros Hd Hn Hcode Hfixed Hlen.
  rewrite (read_event_meta d n code m) by assumption.
  unfold read_meta_data. monad_unfold.
  destruct m; try discriminate Hfixed; injection Hfixed as <- <-; ground;
    match goal with
    | |- context [n =? ?k] =>
        destruct (Z.eqb_spec n k) as [Heq | _]; [destruct (Hlen Heq) | reflexivity]
    end.
Qed.

(** X11: a SET_TEMPO event reads a 24-bit big-endian number of
    microseconds per quarter note and stores 60000000 divided by it under
    "bpm"; the number 0 makes decoding fail with [ZeroDivisionError].
    500000 microseconds give exactly 120.0. *)
Theorem set_tempo_decoding (d : Z) (b0 b1 b2 : byte) (rest : list byte) (ov : N) :
  0 ≤ d →
  let time := event_time st + d in
  let speed := byte_value b0 * 65536 + byte_value b1 * 256 + byte_value b2 in
  let event := vlq_encode d ++ [xff; x51; x03; b0; b1; b2] in
  read_event track st (mkFile bk (event ++ rest) ov)
  = (if speed =? 0 then Raise ZeroDivisionError
     else Ok (with_meta_event track st time
                (dict_update {["meta_type" := PyMeta SET_TEMPO]}
                   {["bpm" := PyFloat (tempo_bpm speed)]}),
              mkFile (rev_append event bk) rest ov))
  ∧ tempo_bpm 500000 = 120%float.
Proof.
  intros Hd time speed event. split; [| reflexivity].
  unfold event, with_meta_event.
  rewrite <- !app_assoc, !rev_append_app. cbn [app rev_append].
  change (x03 :: b0 :: b1 :: b2 :: rest) with (vlq_encode 3 ++ b0 :: b1 :: b2 :: rest).
  rewrite (read_event_meta d 3 x51 SET_TEMPO) by (reflexivity || lia).
  unfold read_meta_data. monad_unfold. ground.
  change (vlq_encode 3) with [x03]. cbn [rev_append].
  repeat (rewrite _u8_cons; cbn).
  rewrite !Z.shiftl_mul_pow2 by lia.
  change (2 ^ 16) with 65536. change (2 ^ 8) with 256. fold speed.
  destruct (speed =? 0); [reflexivity |]. cbn.
  erewrite SongEvent_init_meta; [reflexivity |].
  apply meta_type_lookup. reflexivity.
Qed.

(** X12: a TIME_SIGNATURE event stores its four data bytes as the
    numerator, the denominator (two to the power of the second byte), the
    MIDI clocks per metronome tick and the number of 32nd notes per
    beat. *)
Theorem time_signature_decoding (d : Z) (nn dd cc bb : byte) (rest : list byte) (ov : N) :
  0 ≤ d →
  let time := event_time st + d in
  let event := vlq_encode d ++ [xff; x58; x04; nn; dd; cc; bb] in
  read_event track st (mkFile bk (event ++ rest) ov)
  = Ok (with_meta_event track st time
          (dict_update {["meta_type" := PyMeta TIME_SIGNATURE]}
             (<["number_of_32nd_notes_per_beat" := PyInt (byte_value bb)]>
                (<["midi_clocks_per_metronome_tick" := PyInt (byte_value cc)]>
                   (<["denominator" := PyInt (2 ^ byte_value dd)]>
                      {["numerator" := PyInt (byte_value nn)]})))),
        mkFile (rev_append event bk) rest ov).
Proof.
  intros Hd time event.
  unfold event, with_meta_event.
  rewrite <- !app_assoc, !rev_append_app. cbn [app rev_append].
  change (x04 :: nn :: dd :: cc :: bb :: rest)
    with (vlq_encode 4 ++ nn :: dd :: cc :: bb :: rest).
  rewrite (read_event_meta d 4 x58 TIME_SIGNATURE) by (reflexivity || lia).
  unfold read_meta_data. monad_unfold. ground.
  change (vlq_encode 4) with [x04]. cbn [rev_append].
  repeat (rewrite _u8_cons; cbn).
  erewrite SongEvent_init_meta; [reflexivity |].
  apply meta_type_lookup. reflexivity.
Qed.


(** X14: a system exclusive event (status 0xF0 or 0xF7) stores the bytes
    of its payload, whose length precedes it as a variable-length
    quantity, under "bytes"; it has no channel and leaves no running
    status. *)
Theorem sysex_decoding (d : Z) (status : byte) (t : EventType) (payload rest : list byte)
    (ov : N) :
  0 ≤ d →
  t ∈ [F0_SYSEX; F7_SYSEX] →
  EventType_value t = byte_value status →
  let time := event_time st + d in
  let event := vlq_encode d ++ status :: vlq_encode (Z.of_nat (length payload)) ++ payload in
  read_event track st (mkFile bk (event ++ rest) ov)
  = Ok (mkTrackState None time
          (events st
           ++ [mkSongEvent track time t
                 (Some {["bytes" := PyIntList (byte_value <$> payload)]}) None]),
        mkFile (rev_append event bk) rest ov).
Proof.
  intros Hd Ht Hstatus time event. unfold event.
  rewrite <- !app_assoc, !rev_append_app. cbn [app rev_append].
  rewrite <- !app_assoc, !rev_append_app.
  unfold read_event. monad_unfold.
  read_step. read_step.
  rewrite <- Hstatus.
  set_unfold in Ht. destruct Ht as [-> | [-> | []]]; ground.
  all: read_step.
  all: rewrite _u8_list_app; reflexivity.
Qed.

End MetaEvents.

Section MetaSamples.

Lemma meta_length_checked_witness :
  read_event 0 track_start
    (mkFile [] (vlq_encode 0 ++ xff :: x51 :: vlq_encode 2 ++ [x07; xa1]) 0)
  = Raise (ValueError "MetaType.SET_TEMPO events should have a data length of 3.").
Proof.
  apply (meta_length_checked 0 track_start [] 0 2 3 x51 SET_TEMPO _ [x07; xa1] 0).
  - lia.
  - lia.
  - reflexivity.
  - reflexivity.
  - lia.
Defined.

Lemma set_tempo_decoding_witness :
  read_event 0 track_start
    (mkFile [] ((vlq_encode 0 ++ [xff; x51; x03; x00; x00; x00]) ++ []) 0)
  = Raise ZeroDivisionError
  ∧ read_event 0 track_start
      (mkFile [] ((vlq_encode 0 ++ [xff; x51; x03; x07; xa1; x20]) ++ []) 0)
    = Ok (with_meta_event 0 track_start 0
            (dict_update {["meta_type" := PyMeta SET_TEMPO]} {["bpm" := PyFloat 120]}),
          mkFile (rev_append (vlq_encode 0 ++ [xff; x51; x03; x07; xa1; x20]) []) [] 0).
Proof.
  split.
  - exact (proj1 (set_tempo_decoding 0 track_start [] 0 x00 x00 x00 [] 0 ltac:(lia))).
  - exact (proj1 (set_tempo_decoding 0 track_start [] 0 x07 xa1 x20 [] 0 ltac:(lia))).
Defined.

Lemma time_signature_decoding_witness :
  read_event 0 track_start
    (mkFile [] ((vlq_encode 0 ++ [xff; x58; x04; x06; x03; x18; x08]) ++ []) 0)
  = Ok (with_meta_event 0 track_start 0
          (dict_update {["meta_type" := PyMeta TIME_SIGNATURE]}
             (<["number_of_32nd_notes_per_beat" := PyInt 8]>
                (<["midi_clocks_per_metronome_tick" := PyInt 24]>
                   (<["denominator" := PyInt 8]> {["numerator" := PyInt 6]})))),
        mkFile (rev_append (vlq_encode 0 ++ [xff; x58; x04; x06; x03; x18; x08]) []) [] 0).
Proof.
  exact (time_signature_decoding 0 track_start [] 0 x06 x03 x18 x08 [] 0 ltac:(lia)).
Defined.


Lemma sysex_decoding_witness :
  read_event 0 track_start
    (mkFile [] ((vlq_encode 0 ++ xf0 :: vlq_encode 3 ++ [x7e; x09; xf7]) ++ []) 0)
  = Ok (mkTrackState None 0
          [mkSongEvent 0 0 F0_SYSEX (Some {["bytes" := PyIntList [0x7e; 0x09; 0xf7]]}) None],
        mkFile (rev_append (vlq_encode 0 ++ xf0 :: vlq_encode 3 ++ [x7e; x09; xf7]) []) [] 0).
Proof.
  apply (sysex_decoding 0 track_start [] 0 xf0 F0_SYSEX [x7e; x09; xf7] [] 0).
  - lia.
  - set_solver.
  - reflexivity.
Defined.

End MetaSamples.

(** ** Invariants of a decoded file *)

Section FileInvariants.

Lemma land_low_nibble (s : Z) : 0 ≤ Z.land s 0xf ≤ 15.
Proof.
  change (Z.land s 0xf) with (Z.land s (Z.ones 4)). rewrite Z.land_ones by lia.
  change (2 ^ 4) with 16. pose proof (Z.mod_pos_bound s 16 eq_refl). lia.
Qed.

(** One iteration of the event loop appends one well-formed event. *)
Lemma read_event_well_formed (track_number : Z) (st st' : track_state) (f f' : file) :
  0 ≤ track_number → 0 ≤ event_time st →
  read_event track_number st f = Ok (st', f') →
  ∃ e, events st' = events st ++ [e]
       ∧ track e = track_number
       ∧ time e = event_time st'
       ∧ event_time st ≤ event_time st'
       ∧ event_well_formed e.
Proof.
  intros Htrack Htime. unfold read_event. intros H.
  apply bind_inv in H as (delta_time & f1 & Hdelta & H).
  apply _read_var_length_nonneg in Hdelta.
  apply bind_inv in H as (event_type & f2 & _ & H).
  apply bind_inv in H as ([status rs] & f3 & _ & H).
  apply bind_inv in H as ([[[ty data] ch] rs'] & f4 & Hbranch & H).
  apply bind_inv in H as (ty' & f5 & _ & H).
  apply bind_inv in H as (event & f6 & Hinit & H).
  apply lift_inv in Hinit as [Hinit _].
  apply SongEvent_init_valid in Hinit as [Hvalid ->].
  apply mret_inv in H as [-> _]. cbn.
  eexists. split; [reflexivity |]. cbn.
  split; [reflexivity |]. split; [reflexivity |]. split; [lia |].
  unfold event_well_formed. cbn.
  split; [exact Htrack |]. split; [lia |]. split; [eexists; reflexivity |].
  split; [exact Hvalid |].
  assert (ch = None ∨ ∃ s, ch = Some (PyInt (Z.land s 0xf))) as Hch.
  { destruct (bool_decide _).
    - apply bind_inv in Hbranch as (n & g1 & _ & Hbranch).
      apply bind_inv in Hbranch as (bytes & g2 & _ & Hbranch).
      apply mret_inv in Hbranch as [[= _ _ -> _] _]. left. reflexivity.
    - destruct (status =? _).
      + apply bind_inv in Hbranch as (code & g1 & _ & Hbranch).
        apply bind_inv in Hbranch as (m & g2 & _ & Hbranch).
        apply bind_inv in Hbranch as (n & g3 & _ & Hbranch).
        apply bind_inv in Hbranch as (d & g4 & _ & Hbranch).
        apply mret_inv in Hbranch as [[= _ _ -> _] _]. left. reflexivity.
      + apply bind_inv in Hbranch as (d & g1 & _ & Hbranch).
        apply mret_inv in Hbranch as [[= _ _ -> _] _]. right. eexists. reflexivity. }
  intros c Hc. destruct Hch as [-> | [s ->]]; [discriminate |].
  injection Hc as <-. exists (Z.land s 0xf). split; [reflexivity | apply land_low_nibble].
Qed.

Lemma read_event_track_well_formed (track_number : Z) (st st' : track_state)
    (f f' : file) :
  0 ≤ track_number →
  track_well_formed track_number st →
  read_event track_number st f = Ok (st', f') →
  track_well_formed track_number st'.
Proof.
  intros Htrack (Htime & Hall & Hsorted) H. unfold track_well_formed.
  apply (read_event_well_formed _ _ _ _ _ Htrack Htime) in H
    as (e & -> & He1 & He2 & Hle & Hwf).
  split; [lia |]. split.
  - apply Forall_app. split.
    + eapply Forall_impl; [exact Hall |]. intros x (Hx1 & Hx2 & Hx3). cbn.
      split; [exact Hx1 |]. split; [lia | exact Hx3].
    + constructor; [| constructor]. split; [exact He1 |]. split; [lia | exact Hwf].
  - apply StronglySorted_snoc; [exact Hsorted |].
    eapply Forall_impl; [exact Hall |]. intros x (_ & Hx & _). cbn in *. lia.
Qed.

Lemma _read_events_loop_well_formed (fuel : nat) (chunk_end track_number : Z) :
  0 ≤ track_number →
  ∀ st f evs f',
    track_well_formed track_number st →
    _read_events_loop fuel chunk_end track_number st f = Ok (evs, f') →
    ∃ st', track_well_formed track_number st' ∧ evs = events st'.
Proof.
  intros Htrack.
  induction fuel as [| fuel IH]; intros st f evs f' Hinv.
  - simpl. unfold mbind, M_bind, fp_tell. cbn.
    destruct (tell f <? chunk_end); [discriminate |].
    intros [= <- _]. exists st. split; [exact Hinv | reflexivity].
  - rewrite _read_events_loop_S.
    destruct (tell f <? chunk_end).
    + destruct (read_event track_number st f) as [e | [st1 f1]] eqn:Hev; [discriminate |].
      apply IH. exact (read_event_track_well_formed _ _ _ _ _ Htrack Hinv Hev).
    + intros [= <- _]. exists st. split; [exact Hinv | reflexivity].
Qed.

Lemma _read_events_well_formed (chunk_length track_number : Z) (f f' : file)
    (evs : list SongEvent) :
  0 ≤ track_number →
  _read_events chunk_length track_number f = Ok (evs, f') →
  Forall (λ e, track e = track_number ∧ event_well_formed e) evs
  ∧ StronglySorted (λ a b, time a ≤ time b) evs.
Proof.
  intros Htrack. unfold _read_events. intros H.
  apply bind_inv in H as (pos & f1 & Hpos & H).
  apply (_read_events_loop_well_formed _ _ _ Htrack) in H
    as (st' & (_ & Hall & Hsorted) & ->).
  - split; [| exact Hsorted].
    eapply Forall_impl; [exact Hall |]. intros x (Hx1 & _ & Hx3). split; assumption.
  - split; [cbn; lia |]. split; constructor.
Qed.

Lemma StronglySorted_app {X} (R : X → X → Prop) (l1 l2 : list X) :
  StronglySorted R l1 → StronglySorted R l2 →
  (∀ x y, x ∈ l1 → y ∈ l2 → R x y) →
  StronglySorted R (l1 ++ l2).
Proof.
  induction 1 as [| x l1 Hs IH Hx]; intros H2 Hcross; simpl; [exact H2 |].
  constructor.
  - apply IH; [exact H2 |]. intros a b Ha Hb. apply Hcross; [right; exact Ha | exact Hb].
  - apply Forall_app. split; [exact Hx |].
    apply Forall_forall. intros y Hy. apply Hcross; [left | exact Hy].
Qed.

Lemma StronglySorted_weaken {X} (R R' : X → X → Prop) (P : X → Prop) (l : list X) :
  (∀ x y, P x → P y → R x y → R' x y) →
  Forall P l → StronglySorted R l → StronglySorted R' l.
Proof.
  intros Himpl Hall Hs. induction Hs as [| x l Hs IH Hx]; [constructor |].
  inversion Hall as [| ? ? Hpx Hpl]; subst.
  constructor; [apply IH, Hpl |].
  rewrite Forall_forall in Hx, Hpl |- *.
  intros y Hy. apply Himpl; [exact Hpx | apply Hpl, Hy | apply Hx, Hy].
Qed.

Lemma read_chunk_well_formed (track_number : Z) (events events' : list SongEvent)
    (f f' : file) :
  file_well_formed track_number events →
  read_chunk track_number events f = Ok (events', f') →
  file_well_formed (track_number + 1) events'.
Proof.
  intros (Htrack & Hall & Hsorted). unfold read_chunk. intros H.
  apply bind_inv in H as ([chunk_name chunk_length] & f1 & _ & H).
  assert (Forall (λ e, track e < track_number + 1 ∧ event_well_formed e) events)
    as Hall'.
  { eapply Forall_impl; [exact Hall |]. intros x [Hx1 Hx2]. split; [lia | exact Hx2]. }
  destruct (negb _).
  - apply bind_inv in H as ([] & f2 & _ & H). apply mret_inv in H as [-> _].
    split; [lia |]. split; assumption.
  - apply bind_inv in H as (new & f2 & Hnew & H). apply mret_inv in H as [-> _].
    apply (_read_events_well_formed _ _ _ _ _ Htrack) in Hnew as [Hnew Hnew_sorted].
    split; [lia |]. split.
    + apply Forall_app. split; [exact Hall' |].
      eapply Forall_impl; [exact Hnew |]. intros x [Hx1 Hx2]. split; [lia | exact Hx2].
    + apply StronglySorted_app.
      * exact Hsorted.
      * apply (StronglySorted_weaken (λ a b, time a ≤ time b) file_order
                 (λ e, track e = track_number ∧ event_well_formed e));
          [| exact Hnew | exact Hnew_sorted].
        intros x y [Hx _] [Hy _] Hxy. right. split; [congruence | exact Hxy].
      * intros x y Hx Hy. left.
        rewrite Forall_forall in Hall, Hnew.
        destruct (Hall x Hx) as [Hx1 _]. destruct (Hnew y Hy) as [Hy1 _]. lia.
Qed.

Lemma _open_loop_well_formed (fuel : nat) :
  ∀ track_number events f evs,
    file_well_formed track_number events →
    _open_loop fuel track_number events f = Ok evs →
    ∃ track_number', file_well_formed track_number' evs.
Proof.
  induction fuel as [| fuel IH]; intros track_number events f evs Hinv; simpl.
  - destruct (read_chunk track_number events f) as [e | [events1 f1]]; [| discriminate].
    destruct (is_TypeError e); [| discriminate].
    intros [= <-]. exists track_number. exact Hinv.
  - destruct (read_chunk track_number events f) as [e | [events1 f1]] eqn:Hchunk.
    + destruct (is_TypeError e); [| discriminate].
      intros [= <-]. exists track_number. exact Hinv.
    + apply IH. exact (read_chunk_well_formed _ _ _ _ _ Hinv Hchunk).
Qed.

(** What a successful [_open] went through. *)
Lemma _open_inv (f : file) (r : MidiReader) :
  _open f = Ok r →
  ∃ f1 f2 c file_format num_tracks,
    unpack_chunk_header f = Ok ((MThd, 6), f1)
    ∧ File.read 6 f1 = (c, f2)
    ∧ unpack_HHH c = Ok (file_format, num_tracks, division r)
    ∧ file_format ∈ [0; 1]
    ∧ _open_loop (length (ahead f2)) 0 [] f2 = Ok (reader_events r).
Proof.
  unfold _open.
  destruct (unpack_chunk_header f) as [e | [[chunk_name chunk_length] f1]] eqn:Hheader;
    [discriminate |].
  destruct (bool_decide (chunk_name = MThd)) eqn:Hname; [| discriminate].
  apply bool_decide_eq_true in Hname as ->. cbn [negb].
  destruct (Z.eqb_spec chunk_length 6) as [-> |]; [| discriminate]. cbn [negb].
  destruct (File.read 6 f1) as [c f2] eqn:Hread.
  destruct (unpack_HHH c) as [e | [[file_format num_tracks] division]] eqn:Hunpack;
    [discriminate |].
  destruct (bool_decide (file_format ∈ [0; 1])) eqn:Hformat; [| discriminate].
  apply bool_decide_eq_true in Hformat. cbn [negb].
  destruct (_open_loop _ _ _ _) as [e | events] eqn:Hloop; [discriminate |].
  intros [= <-]. exists f1, f2, c, file_format, num_tracks. cbn.
  split; [reflexivity |]. split; [exact Hread |]. split; [exact Hunpack |].
  split; [exact Hformat | exact Hloop].
Qed.

Lemma open_bytes_well_formed (content : list byte) (r : MidiReader) :
  open_bytes content = Ok r →
  ∃ track_number, file_well_formed track_number (reader_events r).
Proof.
  unfold open_bytes. intros H.
  apply _open_inv in H as (f1 & f2 & c & fmt & nt & _ & _ & _ & _ & Hloop).
  apply _open_loop_well_formed in Hloop; [exact Hloop |].
  split; [lia |]. split; constructor.
Qed.

(** X15: the events of a decoded file come track by track in the order of
    the chunks, and within a track in non-decreasing order of time. *)
Theorem open_events_ordered (content : list byte) (r : MidiReader) :
  open_bytes content = Ok r →
  StronglySorted file_order (reader_events r).
Proof.
  intros H. apply open_bytes_well_formed in H as (n & _ & _ & Hsorted). exact Hsorted.
Qed.

(** X16: every event of a decoded file has a track number and a time that
    are not negative and a data dictionary, satisfies the invariants the
    constructor checks, and has either no channel (sysex and meta events)
    or an integer channel from 0 to 15. *)
Theorem open_events_well_formed (content : list byte) (r : MidiReader) :
  open_bytes content = Ok r →
  Forall event_well_formed (reader_events r).
Proof.
  intros H. apply open_bytes_well_formed in H as (n & _ & Hall & _).
  eapply Forall_impl; [exact Hall |]. intros x [_ Hx]. exact Hx.
Qed.

End FileInvariants.

(** ** The header chunk and the chunk loop *)

Section Chunks.

(** Reading exactly the bytes that are there. *)
Lemma read_app (n : Z) (data bk rest : list byte) (ov : N) :
  Z.of_nat (length data) = n →
  File.read n (mkFile bk (data ++ rest) ov)
  = (data, mkFile (rev_append data bk) rest ov).
Proof.
  intros <-. unfold File.read. cbn [ahead behind beyond].
  destruct (Z.ltb_spec (Z.of_nat (length data)) 0); [lia |].
  rewrite Nat2Z.id, take_app_length', drop_app_length' by reflexivity.
  reflexivity.
Qed.

Lemma u32be_length (size : list byte) (n : Z) : u32be size = Ok n → length size = 4%nat.
Proof.
  destruct size as [| b0 [| b1 [| b2 [| b3 [| ? ?]]]]]; try discriminate. reflexivity.
Qed.

(** The header of a chunk that is there in full. *)
Lemma unpack_chunk_header_app (name size bk rest : list byte) (ov : N) (n : Z) :
  length name = 4%nat →
  u32be size = Ok n →
  unpack_chunk_header (mkFile bk (name ++ size ++ rest) ov)
  = Ok ((name, n), mkFile (rev_append size (rev_append name bk)) rest ov).
Proof.
  intros Hname Hsize. rewrite unpack_chunk_header_eq.
  rewrite (read_app 4 name) by (rewrite Hname; reflexivity).
  destruct name as [| b name]; [discriminate Hname |].
  rewrite (read_app 4 size) by (rewrite (u32be_length _ _ Hsize); reflexivity).
  rewrite Hsize. reflexivity.
Qed.

(** At the end of the content there is no chunk header. *)
Lemma unpack_chunk_header_end (bk : list byte) (ov : N) :
  unpack_chunk_header (mkFile bk [] ov)
  = Raise (TypeError "cannot unpack non-iterable NoneType object").
Proof. reflexivity. Qed.

(** X17: [_open] checks the header chunk in this order: a first chunk
    whose tag is not "MThd" is refused, then a declared length other than
    6, then a format other than 0 or 1; each with its own [ValueError]. *)
Theorem open_header_checked (name size rest : list byte) (n : Z) :
  length name = 4%nat →
  u32be size = Ok n →
  (name ≠ MThd →
   open_bytes (name ++ size ++ rest)
   = Raise (ValueError "Unexpected MIDI header chunk name: {chunk_name}"))
  ∧ (name = MThd → n ≠ 6 →
     open_bytes (name ++ size ++ rest)
     = Raise (ValueError "Unexpected MIDI header chunk length: {chunk_length}"))
  ∧ (name = MThd → n = 6 →
     ∀ (f0 f1 n0 n1 d0 d1 : byte) (tail : list byte),
       rest = [f0; f1; n0; n1; d0; d1] ++ tail →
       byte_value f0 * 256 + byte_value f1 ∉ [0; 1] →
       open_bytes (name ++ size ++ rest)
       = Raise (ValueError "Unsupported MIDI file format: {file_format}")).
Proof.
  intros Hname Hsize.
  split; [| split].
  all: unfold open_bytes, File.of_bytes, _open.
  all: rewrite (unpack_chunk_header_app name size [] rest 0 n Hname Hsize).
  all: unfold Ok at 1; cbn beta iota.
  - intros Hne. rewrite bool_decide_eq_false_2 by exact Hne. reflexivity.
  - intros -> Hn. rewrite bool_decide_eq_true_2 by reflexivity. cbn [negb].
    destruct (Z.eqb_spec n 6); [contradiction | reflexivity].
  - intros -> -> f0 f1 n0 n1 d0 d1 tail -> Hformat.
    rewrite bool_decide_eq_true_2 by reflexivity. cbn [negb Z.eqb Pos.eqb].
    rewrite (read_app 6 [f0; f1; n0; n1; d0; d1]) by reflexivity.
    cbn [unpack_HHH]. unfold Ok at 1. cbn beta iota.
    rewrite bool_decide_eq_false_2 by exact Hformat. reflexivity.
Qed.

(** X18: a file that ends after a valid header chunk opens with no
    events, whatever number of tracks the header declares: the declared
    number is not compared with the chunks present.  The event count is
    then 0 and no index is valid. *)
Theorem open_without_tracks (fmt n0 n1 d0 d1 : byte) :
  fmt ∈ [x00; x01] →
  let r := mkMidiReader (byte_value d0 * 256 + byte_value d1) [] in
  open_bytes (MThd ++ [x00; x00; x00; x06] ++ [x00; fmt; n0; n1; d0; d1]) = Ok r
  ∧ event_count r = 0
  ∧ ∀ index, get_event r index = Raise (IndexError "list index out of range").
Proof.
  intros Hfmt r. split; [| split; [reflexivity |]].
  - unfold open_bytes, File.of_bytes, _open.
    rewrite (unpack_chunk_header_app MThd [x00; x00; x00; x06] []
               [x00; fmt; n0; n1; d0; d1] 0 6 eq_refl eq_refl).
    unfold Ok at 1. cbn beta iota.
    rewrite bool_decide_eq_true_2 by reflexivity. cbn [negb Z.eqb Pos.eqb].
    rewrite <- (app_nil_r [x00; fmt; n0; n1; d0; d1]).
    rewrite (read_app 6 [x00; fmt; n0; n1; d0; d1]) by reflexivity.
    cbn [unpack_HHH]. unfold Ok at 1. cbn beta iota.
    rewrite bool_decide_eq_true_2; [reflexivity |].
    set_unfold in Hfmt. destruct Hfmt as [-> | [-> | []]]; vm_compute; set_solver.
  - intros index. unfold get_event, list_getitem. cbn [reader_events r length].
    change (Z.of_nat 0) with 0. rewrite Z.add_0_r.
    destruct (index <? 0) eqn:Hneg; rewrite Hneg; [reflexivity |]. cbn [orb].
    destruct (Z.leb_spec 0 index); [reflexivity |].
    apply Z.ltb_ge in Hneg. lia.
Qed.

(** X19: a file that [_open] loads is one [accept] says yes to, on any
    preview of at least its first eight bytes. *)
Theorem accept_of_open (content : list byte) (r : MidiReader) (k : nat) :
  open_bytes content = Ok r →
  (8 ≤ k)%nat →
  accept (take k content) = Ok true.
Proof.
  unfold open_bytes. intros Hopen Hk.
  apply _open_inv in Hopen as (f1 & f2 & c & fmt & nt & Hheader & _).
  rewrite unpack_chunk_header_eq in Hheader.
  unfold File.read, File.of_bytes in Hheader. cbn in Hheader.
  change (Z.to_nat 4) with 4%nat in Hheader.
  destruct (take 4 content) as [| b name] eqn:Hname; [discriminate |].
  destruct (u32be (take 4 (drop 4 content))) as [e | n] eqn:Hsize; [discriminate |].
  assert (b :: name = MThd ∧ n = 6) as [Hname' ->]
    by (injection Hheader; intros; subst; split; reflexivity).
  unfold accept.
  rewrite take_take, Nat.min_l by lia. rewrite Hname, Hname'.
  rewrite bool_decide_eq_true_2 by reflexivity.
  rewrite take_drop_commute, take_take, Nat.min_l by lia.
  rewrite <- take_drop_commute, Hsize. reflexivity.
Qed.

(** X20: [get_event] returns the event at [index] for an index from 0 up
    to the event count, counts a negative index down to minus the count
    from the end, and raises [IndexError] for every other index. *)
Theorem get_event_bounds (r : MidiReader) (index : Z) :
  let count := event_count r in
  (0 ≤ index < count →
   ∃ e, get_event r index = Ok e ∧ reader_events r !! Z.to_nat index = Some e)
  ∧ (- count ≤ index < 0 → get_event r index = get_event r (index + count))
  ∧ (index < - count ∨ count ≤ index →
     get_event r index = Raise (IndexError "list index out of range")).
Proof.
  intros count. unfold count, event_count, get_event, list_getitem.
  set (n := Z.of_nat (length (reader_events r))).
  split; [| split].
  - intros Hi.
    destruct (Z.ltb_spec index 0); [lia |].
    destruct (Z.ltb_spec index 0); [lia |].
    destruct (Z.leb_spec n index); [lia |]. cbn.
    destruct (reader_events r !! Z.to_nat index) as [e |] eqn:He.
    + exists e. split; reflexivity.
    + apply lookup_ge_None in He. lia.
  - intros Hi.
    rewrite (proj2 (Z.ltb_lt index 0)) by lia.
    rewrite !(proj2 (Z.ltb_ge (index + n) 0)) by lia. reflexivity.
  - intros Hi.
    destruct (Z.ltb_spec index 0).
    + destruct (Z.ltb_spec (index + n) 0); [reflexivity | lia].
    + destruct (Z.ltb_spec index 0); [lia |].
      destruct (Z.leb_spec n index); [reflexivity | lia].
Qed.

(** At or past the end of the chunk the event loop returns. *)
Lemma _read_events_loop_done (fuel : nat) (chunk_end track_number : Z)
    (st : track_state) (f : file) :
  chunk_end ≤ tell f →
  _read_events_loop fuel chunk_end track_number st f = Ok (events st, f).
Proof.
  intros Hend.
  destruct fuel; cbn; unfold mbind, M_bind, fp_tell, Ok; cbn beta iota;
    (destruct (Z.ltb_spec (tell f) chunk_end); [lia | reflexivity]).
Qed.

(** X21: the chunk length only stops the event loop between events: an
    event that begins before the end of the chunk is read in full, also
    when it runs past the end. *)
Theorem event_may_overrun_chunk (chunk_length track_number : Z) (f f' : file)
    (st' : track_state) :
  read_event track_number track_start f = Ok (st', f') →
  0 < chunk_length ≤ tell f' - tell f →
  _read_events chunk_length track_number f = Ok (events st', f').
Proof.
  intros Hevent Hlength.
  change (_read_events chunk_length track_number f)
    with (_read_events_loop (S (length (ahead f))) (tell f + chunk_length)
            track_number track_start f).
  rewrite _read_events_loop_S.
  destruct (Z.ltb_spec (tell f) (tell f + chunk_length)); [| lia].
  rewrite Hevent. unfold Ok at 1. cbn beta iota.
  apply _read_events_loop_done. lia.
Qed.

(** X22: when the chunk loop comes to a chunk with a tag other than
    "MTrk" whose declared length covers the rest of the file, or more, it
    skips it and ends with the events read before. *)
Theorem trailing_foreign_chunk_ignored (fuel : nat) (track_number : Z)
    (events : list SongEvent) (name size rest bk : list byte) (n : Z) :
  length name = 4%nat →
  name ≠ MTrk →
  u32be size = Ok n →
  Z.of_nat (length rest) ≤ n →
  _open_loop (S fuel) track_number events (mkFile bk (name ++ size ++ rest) 0)
  = Ok events.
Proof.
  intros Hname Hforeign Hsize Hrest.
  pose proof (unpack_chunk_header_app name size bk rest 0 n Hname Hsize) as Hheader.
  destruct (foreign_chunk_takes_a_track_number fuel track_number events _ _ _ _
              Hheader Hforeign) as (f2 & Hseek & ->).
  assert (ahead f2 = []) as Hahead.
  { unfold fp_seek, seek_cur in Hseek.
    destruct (Z.leb_spec 0 n); [| lia].
    injection Hseek as <-. cbn [ahead]. apply drop_ge. lia. }
  destruct f2 as [bk2 ah2 ov2]. cbn in Hahead. subst ah2.
  destruct fuel; cbn [_open_loop]; unfold read_chunk, mbind, M_bind;
    rewrite unpack_chunk_header_end; reflexivity.
Qed.

(** X23: the loops of the decoder end on every input: reading a
    variable-length quantity, reading the events of a chunk and opening a
    file each finish with a result or with a Python exception. *)
Theorem decoder_terminates (f : file) (chunk_length track_number : Z)
    (content : list byte) :
  ¬ out_of_fuel (_read_var_length f)
  ∧ ¬ out_of_fuel (_read_events chunk_length track_number f)
  ∧ ¬ out_of_fuel (open_bytes content).
Proof.
  split; [exact (proj1 (advances_read_var_length f)) |].
  split; [exact (proj1 (steady_read_events chunk_length track_number f)) |].
  apply _open_terminates.
Qed.

End Chunks.

Section ChunkSamples.

Lemma open_events_ordered_witness :
  ∃ r, open_bytes smf_with_foreign_chunk = Ok r
       ∧ StronglySorted file_order (reader_events r).
Proof.
  eexists. split; [vm_compute; reflexivity |].
  apply (open_events_ordered smf_with_foreign_chunk). vm_compute. reflexivity.
Defined.

Lemma open_events_well_formed_witness :
  ∃ r, open_bytes smf_with_foreign_chunk = Ok r
       ∧ Forall event_well_formed (reader_events r).
Proof.
  eexists. split; [vm_compute; reflexivity |].
  apply (open_events_well_formed smf_with_foreign_chunk). vm_compute. reflexivity.
Defined.

(** A file of format 2, and files whose header chunk has another tag or
    another length. *)
Lemma open_header_checked_witness :
  open_bytes ([x52; x49; x46; x46] ++ [x00; x00; x00; x06] ++ [])
  = Raise (ValueError "Unexpected MIDI header chunk name: {chunk_name}")
  ∧ open_bytes (MThd ++ [x00; x00; x00; x0a] ++ [])
    = Raise (ValueError "Unexpected MIDI header chunk length: {chunk_length}")
  ∧ open_bytes (MThd ++ [x00; x00; x00; x06] ++ [x00; x02; x00; x01; x00; x60])
    = Raise (ValueError "Unsupported MIDI file format: {file_format}").
Proof.
  split; [| split].
  - apply (open_header_checked [x52; x49; x46; x46] [x00; x00; x00; x06] [] 6
             eq_refl eq_refl).
    discriminate.
  - apply (open_header_checked MThd [x00; x00; x00; x0a] [] 10 eq_refl eq_refl);
      [reflexivity | lia].
  - apply (proj2 (proj2 (open_header_checked MThd [x00; x00; x00; x06]
                           [x00; x02; x00; x01; x00; x60] 6 eq_refl eq_refl))
             eq_refl eq_refl x00 x02 x00 x01 x00 x60 [] eq_refl).
    change (2 ∉ [0; 1]). intros Hin. set_unfold in Hin. lia.
Defined.

Lemma open_without_tracks_witness :
  open_bytes (MThd ++ [x00; x00; x00; x06] ++ [x00; x01; x00; x02; x00; x60])
  = Ok (mkMidiReader 96 []).
Proof.
  exact (proj1 (open_without_tracks x01 x00 x02 x00 x60 ltac:(set_solver))).
Defined.

Lemma accept_of_open_witness :
  accept (take 8 smf_with_foreign_chunk) = Ok true.
Proof.
  eapply (accept_of_open smf_with_foreign_chunk _ 8); [| lia].
  vm_compute. reflexivity.
Defined.

(** A chunk that declares one byte and holds a note-on of four. *)
Lemma event_may_overrun_chunk_witness :
  _read_events 1 0 (File.of_bytes [x00; x90; x3c; x64])
  = Ok ([mkSongEvent 0 0 NOTE_ON
           (Some (<["velocity" := PyInt 100]> {["note" := PyInt 60]})) (Some (PyInt 0))],
        mkFile [x64; x3c; x90; x00] [] 0).
Proof.
  apply (event_may_overrun_chunk 1 0 (File.of_bytes [x00; x90; x3c; x64])
           (mkFile [x64; x3c; x90; x00] [] 0)
           (mkTrackState (Some 0x90) 0
              [mkSongEvent 0 0 NOTE_ON
                 (Some (<["velocity" := PyInt 100]> {["note" := PyInt 60]}))
                 (Some (PyInt 0))])).
  - vm_compute. reflexivity.
  - vm_compute. split; [reflexivity | discriminate].
Defined.

(** A chunk "XFIH" that declares two bytes and is the last of the file,
    with its two bytes and with one only. *)
Lemma trailing_foreign_chunk_ignored_witness :
  _open_loop 1 1 [] (mkFile [] ([x58; x46; x49; x48] ++ [x00; x00; x00; x02] ++ [xaa; xbb]) 0)
  = Ok []
  ∧ _open_loop 1 1 [] (mkFile [] ([x58; x46; x49; x48] ++ [x00; x00; x00; x02] ++ [xaa]) 0)
    = Ok [].
Proof.
  split.
  - apply (trailing_foreign_chunk_ignored 0 1 [] [x58; x46; x49; x48]
             [x00; x00; x00; x02] [xaa; xbb] [] 2 eq_refl);
      [discriminate | reflexivity | cbn; lia].
  - apply (trailing_foreign_chunk_ignored 0 1 [] [x58; x46; x49; x48]
             [x00; x00; x00; x02] [xaa] [] 2 eq_refl);
      [discriminate | reflexivity | cbn; lia].
Defined.

End ChunkSamples.

(** ** Padded variable-length quantities *)

Section Padding.

(** A leading byte 0x80 adds nothing to the quantity. *)
Lemma _read_var_length_pad (bk tail : list byte) (ov : N) :
  _read_var_length (mkFile bk (x80 :: tail) ov)
  = _read_var_length (mkFile (x80 :: bk) tail ov).
Proof.
  unfold _read_var_length. cbn [ahead length].
  rewrite (bind_Ok _ _ _ _ _ (_u8_cons x80 bk tail ov)).
  rewrite _read_var_length_loop_continue by (vm_compute; split; [discriminate | reflexivity]).
  reflexivity.
Qed.

(** X24: the decoder of variable-length quantities takes encodings that
    are not the shortest one: any number of leading 0x80 bytes before the
    encoding of [n] is read through and the result is [n].  It sets no
    limit of four bytes. *)
Theorem padded_var_length (k : nat) (n : Z) (rest : list byte) (ov : N) :
  0 ≤ n →
  ∀ bk,
    _read_var_length (mkFile bk ((repeat x80 k ++ vlq_encode n) ++ rest) ov)
    = Ok (n, mkFile (rev_append (repeat x80 k ++ vlq_encode n) bk) rest ov).
Proof.
  intros Hn. induction k as [| k IH]; intros bk.
  - cbn [repeat app]. apply _read_var_length_encode. exact Hn.
  - cbn [repeat app rev_append]. rewrite _read_var_length_pad. apply IH.
Qed.

Lemma padded_var_length_witness :
  _read_var_length
    (File.of_bytes (([x80; x80; x80; x80; x80] ++ vlq_encode 200) ++ [x90]))
  = Ok (200, mkFile (rev_append ([x80; x80; x80; x80; x80] ++ vlq_encode 200) []) [x90] 0).
Proof.
  exact (padded_var_length 5 200 [x90] 0 ltac:(lia) []).
Defined.

End Padding.

(** ** Enumeration lookups round trip *)

Section EnumRoundTrip.

(** X25: looking up the value of a member of [EventType], [MetaType] or
    [ControllerType] gives that member back, so no two members share a
    value; a lookup that succeeds returns a member with the value looked
    up; and the constants of [midi/constants.py] are the values of the
    [EventType] members. *)
Theorem enum_lookup_roundtrip :
  (∀ t, EventType_call (EventType_value t) = Ok t)
  ∧ (∀ m, MetaType_call (MetaType_value m) = Ok m)
  ∧ (∀ c, ControllerType_call (ControllerType_value c) = Ok c)
  ∧ (∀ v t, EventType_call v = Ok t → EventType_value t = v)
  ∧ (∀ v m, MetaType_call v = Ok m → MetaType_value m = v)
  ∧ (∀ v c, ControllerType_call v = Ok c → ControllerType_value c = v)
  ∧ event_constants = EventType_value <$> EventType_members.
Proof.
  split; [intros t; destruct t; reflexivity |].
  split; [apply MetaType_call_value |].
  split; [apply ControllerType_call_value |].
  split; [intros v t H; exact (proj2 (enum_call_Ok _ _ _ _ _ H)) |].
  split; [intros v m H; exact (proj2 (enum_call_Ok _ _ _ _ _ H)) |].
  split; [intros v c H; exact (proj2 (enum_call_Ok _ _ _ _ _ H)) |].
  reflexivity.
Qed.

End EnumRoundTrip.

(** ** [clamp] *)

Section Clamp.

Import SpecFloat.

Lemma compare_cont_antisym (p q : positive) (c : comparison) :
  Pos.compare_cont (CompOpp c) q p = CompOpp (Pos.compare_cont c p q).
Proof. symmetry. apply Pos.compare_cont_antisym. Qed.

Lemma SFcompare_antisym (x y : spec_float) :
  SFcompare y x = option_map CompOpp (SFcompare x y).
Proof.
  destruct x as [sx | sx | | sx mx ex], y as [sy | sy | | sy my ey]; cbn;
    try reflexivity;
    try (destruct sx; reflexivity);
    try (destruct sy; reflexivity);
    try (destruct sx, sy; reflexivity).
  f_equal. rewrite (Z.compare_antisym ex ey).
  destruct sx, sy; cbn; try reflexivity;
    destruct (ex ?= ey)%Z; cbn; try reflexivity.
  - rewrite <- (compare_cont_antisym mx my Eq). reflexivity.
  - apply (compare_cont_antisym mx my Eq).
Qed.

Lemma SFcompare_refl (x : spec_float) :
  SFcompare x x = match x with S754_nan => None | _ => Some Eq end.
Proof.
  destruct x as [s | s | | s m e]; cbn; try reflexivity; [destruct s; reflexivity |].
  rewrite Z.compare_refl.
  change (Pos.compare_cont Eq m m) with (Pos.compare m m). rewrite Pos.compare_refl.
  destruct s; reflexivity.
Qed.

Lemma float_ltb_leb (a b : float) :
  PrimFloat.ltb a b = true → PrimFloat.leb a b = true.
Proof.
  rewrite FloatAxioms.ltb_spec, FloatAxioms.leb_spec. unfold SFltb, SFleb.
  destruct (SFcompare _ _) as [[] |]; (discriminate || reflexivity).
Qed.

(** Two floats that compare are not NaN, so each compares with itself. *)
Lemma float_leb_refl (a b : float) :
  PrimFloat.leb a b = true → PrimFloat.leb a a = true ∧ PrimFloat.leb b b = true.
Proof.
  rewrite !FloatAxioms.leb_spec. unfold SFleb.
  rewrite !SFcompare_refl.
  destruct (FloatOps.Prim2SF a), (FloatOps.Prim2SF b); cbn;
    try discriminate; intros _; split; reflexivity.
Qed.

(** Floats that are not NaN are totally ordered. *)
Lemma float_not_ltb_leb (a b : float) :
  PrimFloat.leb a a = true → PrimFloat.leb b b = true →
  PrimFloat.ltb a b = false → PrimFloat.leb b a = true.
Proof.
  rewrite FloatAxioms.ltb_spec, !FloatAxioms.leb_spec. unfold SFltb, SFleb.
  rewrite (SFcompare_antisym (FloatOps.Prim2SF a) (FloatOps.Prim2SF b)).
  intros Ha Hb.
  destruct (SFcompare (FloatOps.Prim2SF a) (FloatOps.Prim2SF b)) as [[] |] eqn:Hab;
    cbn; try discriminate; try reflexivity.
  exfalso.
  destruct (FloatOps.Prim2SF a), (FloatOps.Prim2SF b); cbn in *; discriminate.
Qed.

(** X26: for a range given in order (so neither bound is NaN), [clamp]
    returns a float within the range whatever the value is, infinities and
    NaN included; a value within the range is returned as it is, and NaN
    becomes the lower bound. *)
Theorem clamp_within (value minimum maximum : float) :
  PrimFloat.leb minimum maximum = true →
  (PrimFloat.leb minimum (Utils.clamp value minimum maximum) = true
   ∧ PrimFloat.leb (Utils.clamp value minimum maximum) maximum = true)
  ∧ (PrimFloat.leb minimum value = true → PrimFloat.leb value maximum = true →
     PrimFloat.leb (Utils.clamp value minimum maximum) value = true
     ∧ PrimFloat.leb value (Utils.clamp value minimum maximum) = true)
  ∧ (PrimFloat.leb value value = false →
     Utils.clamp value minimum maximum = minimum).
Proof.
  intros Hrange.
  destruct (float_leb_refl _ _ Hrange) as [Hmin Hmax].
  unfold Utils.clamp, Utils.py_max, Utils.py_min.
  split; [| split].
  - destruct (PrimFloat.ltb maximum value) eqn:Hhigh.
    + destruct (PrimFloat.ltb minimum maximum) eqn:Hlow; split; assumption.
    + destruct (PrimFloat.ltb minimum value) eqn:Hlow; [| split; assumption].
      pose proof (float_ltb_leb _ _ Hlow) as Hle.
      split; [exact Hle |].
      destruct (float_leb_refl _ _ Hle) as [_ Hvalue].
      apply float_not_ltb_leb; assumption.
  - intros Hlow Hhigh.
    destruct (float_leb_refl _ _ Hhigh) as [Hvalue _].
    assert (PrimFloat.ltb maximum value = false) as ->.
    { destruct (PrimFloat.ltb maximum value) eqn:H; [| reflexivity].
      exfalso. revert H Hhigh.
      rewrite FloatAxioms.ltb_spec, FloatAxioms.leb_spec. unfold SFltb, SFleb.
      rewrite (SFcompare_antisym (FloatOps.Prim2SF maximum) (FloatOps.Prim2SF value)).
      destruct (SFcompare _ _) as [[] |]; cbn; discriminate. }
    destruct (PrimFloat.ltb minimum value) eqn:H; [split; exact Hvalue |].
    split; [exact Hlow |].
    apply float_not_ltb_leb; assumption.
  - intros Hnan.
    assert (∀ x, PrimFloat.ltb x value = false) as Hright.
    { intros x. revert Hnan.
      rewrite FloatAxioms.ltb_spec, FloatAxioms.leb_spec. unfold SFltb, SFleb.
      rewrite SFcompare_refl.
      destruct (FloatOps.Prim2SF value); try discriminate.
      destruct (FloatOps.Prim2SF x); reflexivity. }
    rewrite !Hright. reflexivity.
Qed.

Lemma clamp_within_witness :
  (PrimFloat.leb (-1) (Utils.clamp 3 (-1) 1) = true
   ∧ PrimFloat.leb (Utils.clamp 3 (-1) 1) 1 = true)
  ∧ Utils.clamp PrimFloat.nan (-1) 1 = (-1)%float.
Proof.
  destruct (clamp_within 3 (-1) 1 eq_refl) as (Hin & _ & _).
  destruct (clamp_within PrimFloat.nan (-1) 1 eq_refl) as (_ & _ & Hnan).
  split; [exact Hin |]. apply Hnan. reflexivity.
Defined.

End Clamp.

(** ** The keys of decoded events *)

(** Take apart a run of reader code that returned. *)
Ltac invert_reader H :=
  repeat
    match type of H with
    | (_ ≫= _) _ = Ok _ =>
        let a := fresh "a" in
        let f := fresh "f" in
        let Ha := fresh "Ha" in
        apply bind_inv in H as (a & f & Ha & H); try clear Ha
    | (let '(_, _) := ?p in _) _ = Ok _ => destruct p
    | (if ?c then _ else _) _ = Ok _ => destruct c
    | throw _ _ = Ok _ => discriminate H
    | mret _ _ = Ok _ => apply mret_inv in H as [H _]
    end.

Section Keys.

(** A property of events that every iteration of the event loop
    establishes for the event it appends holds of all events of a decoded
    file. *)
Section Eventwise.

Variable P : SongEvent → Prop.

Hypothesis read_event_P :
  ∀ track_number st st' f f',
    read_event track_number st f = Ok (st', f') →
    ∃ e, events st' = events st ++ [e] ∧ P e.

Lemma _read_events_loop_Forall (fuel : nat) (chunk_end track_number : Z) :
  ∀ st f evs f',
    Forall P (events st) →
    _read_events_loop fuel chunk_end track_number st f = Ok (evs, f') →
    Forall P evs.
Proof.
  induction fuel as [| fuel IH]; intros st f evs f' Hall.
  - simpl. unfold mbind, M_bind, fp_tell. cbn.
    destruct (tell f <? chunk_end); [discriminate |].
    intros [= <- _]. exact Hall.
  - rewrite _read_events_loop_S.
    destruct (tell f <? chunk_end); [| intros [= <- _]; exact Hall].
    destruct (read_event track_number st f) as [e | [st1 f1]] eqn:Hev; [discriminate |].
    apply IH. apply read_event_P in Hev as (e & -> & He).
    apply Forall_app. split; [exact Hall | constructor; [exact He | constructor]].
Qed.

Lemma read_chunk_Forall (track_number : Z) (events events' : list SongEvent)
    (f f' : file) :
  Forall P events →
  read_chunk track_number events f = Ok (events', f') →
  Forall P events'.
Proof.
  intros Hall. unfold read_chunk. intros H.
  apply bind_inv in H as ([chunk_name chunk_length] & f1 & _ & H).
  destruct (negb _).
  - apply bind_inv in H as ([] & f2 & _ & H). apply mret_inv in H as [-> _]. exact Hall.
  - apply bind_inv in H as (new & f2 & Hnew & H). apply mret_inv in H as [-> _].
    apply Forall_app. split; [exact Hall |].
    unfold _read_events in Hnew. apply bind_inv in Hnew as (pos & f3 & _ & Hnew).
    eapply _read_events_loop_Forall; [| exact Hnew]. constructor.
Qed.

Lemma _open_loop_Forall (fuel : nat) :
  ∀ track_number events f evs,
    Forall P events →
    _open_loop fuel track_number events f = Ok evs →
    Forall P evs.
Proof.
  induction fuel as [| fuel IH]; intros track_number events f evs Hall; simpl.
  - destruct (read_chunk track_number events f) as [e | [events1 f1]]; [| discriminate].
    destruct (is_TypeError e); [| discriminate]. intros [= <-]. exact Hall.
  - destruct (read_chunk track_number events f) as [e | [events1 f1]] eqn:Hchunk.
    + destruct (is_TypeError e); [| discriminate]. intros [= <-]. exact Hall.
    + apply IH. exact (read_chunk_Forall _ _ _ _ _ Hall Hchunk).
Qed.

Lemma open_bytes_Forall (content : list byte) (r : MidiReader) :
  open_bytes content = Ok r → Forall P (reader_events r).
Proof.
  unfold open_bytes. intros H.
  apply _open_inv in H as (f1 & f2 & c & fmt & nt & _ & _ & _ & _ & Hloop).
  eapply _open_loop_Forall; [| exact Hloop]. constructor.
Qed.

End Eventwise.

Lemma read_channel_data_keys (event_type : Z) (t : EventType)
    (d : gmap string pyobj) (f f' : file) :
  read_channel_data event_type f = Ok (d, f') →
  EventType_call event_type = Ok t →
  t ≠ META ∧ dom d = event_keys t.
Proof.
  unfold read_channel_data. intros H Ht.
  repeat
    match type of H with
    | (if ?v =? ?k then _ else _) _ = Ok _ =>
        destruct (Z.eqb_spec v k) as [-> |]
    end;
    [.. | discriminate H];
    injection Ht as <-;
    invert_reader H; subst d; (split; [discriminate |]); cbn [event_keys];
    rewrite ?dom_insert_L, ?dom_singleton_L; set_solver.
Qed.

Lemma read_meta_data_keys (m : MetaType) (n : Z) (d : gmap string pyobj) (f f' : file) :
  read_meta_data m n {["meta_type" := PyMeta m]} f = Ok (d, f') →
  d !! "meta_type" = Some (PyMeta m)
  ∧ (dom d = {["meta_type"]} ∪ meta_keys m
     ∨ (m ∈ [END_OF_TRACK; SEQUENCER_SPECIFIC] ∧ dom d = {["meta_type"; "bytes"]})).
Proof.
  unfold read_meta_data. intros H.
  destruct m;
    repeat
      match type of H with
      | context [@bool_decide ?Q ?dec] =>
          let v := eval vm_compute in (@bool_decide Q dec) in
          is_boollit v; change (@bool_decide Q dec) with v in H
      end;
    cbv beta iota in H.
  all: invert_reader H; subst d.
  all: split; [first [apply lookup_singleton_eq | apply meta_type_lookup; reflexivity] |].
  all: unfold dict_update; cbn [meta_keys].
  all: rewrite ?dom_union_L, ?dom_insert_L, ?dom_singleton_L.
  all: lazymatch goal with
       | |- ?keys = _ ∨ _ =>
           lazymatch keys with
           | context ["bytes"%string] => right; split; set_solver
           | _ => left; set_solver
           end
       end.
Qed.

(** One iteration of the event loop appends an event with the keys of
    its type. *)
Lemma read_event_schema (track_number : Z) (st st' : track_state) (f f' : file) :
  read_event track_number st f = Ok (st', f') →
  ∃ e, events st' = events st ++ [e] ∧ event_schema e.
Proof.
  unfold read_event. intros H.
  apply bind_inv in H as (delta_time & f1 & _ & H).
  apply bind_inv in H as (event_type & f2 & _ & H).
  apply bind_inv in H as ([status rs] & f3 & _ & H).
  apply bind_inv in H as ([[[ty data] ch] rs'] & f4 & Hbranch & H).
  apply bind_inv in H as (t & f5 & Ht & H).
  apply lift_inv in Ht as [Ht _].
  apply bind_inv in H as (event & f6 & Hinit & H).
  apply lift_inv in Hinit as [Hinit _]. apply SongEvent_init_inv in Hinit as ->.
  apply mret_inv in H as [-> _]. cbn [events].
  eexists. split; [reflexivity |].
  exists data. split; [reflexivity |]. cbn [type].
  destruct (bool_decide (status ∈ _)) eqn:Hsysex.
  - apply bool_decide_eq_true in Hsysex.
    apply bind_inv in Hbranch as (n & g1 & _ & Hbranch).
    apply bind_inv in Hbranch as (bytes & g2 & _ & Hbranch).
    apply mret_inv in Hbranch as [[= -> -> _ _] _].
    set_unfold in Hsysex.
    destruct Hsysex as [-> | [-> | []]]; injection Ht as <-;
      cbn [event_keys]; rewrite dom_singleton_L; reflexivity.
  - destruct (Z.eqb_spec status (EventType_value META)) as [-> |].
    + apply bind_inv in Hbranch as (code & g1 & _ & Hbranch).
      apply bind_inv in Hbranch as (m & g2 & _ & Hbranch).
      apply bind_inv in Hbranch as (n & g3 & _ & Hbranch).
      apply bind_inv in Hbranch as (d & g4 & Hmeta & Hbranch).
      apply mret_inv in Hbranch as [[= -> -> _ _] _].
      injection Ht as <-.
      exists m. exact (read_meta_data_keys _ _ _ _ _ Hmeta).
    + apply bind_inv in Hbranch as (d & g1 & Hchannel & Hbranch).
      apply mret_inv in Hbranch as [[= -> -> _ _] _].
      destruct (read_channel_data_keys _ _ _ _ _ Hchannel Ht) as [Hne Hkeys].
      destruct t; try exact Hkeys. destruct (Hne eq_refl).
Qed.

(** X27: the data dictionary of every event of a decoded file has
    exactly the keys of its type: "note" and "velocity" for note events,
    "bytes" for sysex events, and so on as in [event_keys]; a META event
    has "meta_type", holding a member of [MetaType], and the keys of that
    meta type, where END_OF_TRACK and SEQUENCER_SPECIFIC have "bytes" only
    for a payload that is not empty. *)
Theorem decoded_event_keys (content : list byte) (r : MidiReader) :
  open_bytes content = Ok r →
  Forall event_schema (reader_events r).
Proof.
  apply open_bytes_Forall. intros track_number. apply read_event_schema.
Qed.

End Keys.

Section KeysSample.

Lemma decoded_event_keys_witness :
  ∃ r, open_bytes smf_with_foreign_chunk = Ok r
       ∧ Forall event_schema (reader_events r).
Proof.
  eexists. split; [vm_compute; reflexivity |].
  apply (decoded_event_keys smf_with_foreign_chunk). vm_compute. reflexivity.
Defined.

End KeysSample.
